(** * MCP visualizer proof of concept: host-side orchestration

    A shallow embedding of [mcp_visualizer/poc]: the Claude client
    ([claude_client.py]), the MCP client wrapper ([client.py]) and the
    five-phase workflow ([orchestrator.py]).

    Python values are the JSON-like values the code handles (dicts keep
    their insertion order, as Python's do).  Strings are sequences of
    characters with code points below 256; numbers are integers.  Everything
    outside the repository (the MCP SDK session, the Anthropic SDK, the
    process environment, context managers) is an oracle that answers from
    the history of the run, and every call to it is recorded in a trace
    together with its outcome.  Diagnostic output on stderr and the fixed
    banners on stdout are left out: they read no outcome and raise nothing
    on these values. *)

From Stdlib Require Import List String Ascii ZArith Bool Lia DecimalString.
From Stdlib Require DecimalPos DecimalZ.
Import ListNotations.
Local Open Scope string_scope.
Local Open Scope Z_scope.

Set Implicit Arguments.
Set Warnings "-register-all".

(** ** Python values *)

Module Py.

Inductive value : Type :=
| VNone
| VBool (b : bool)
| VInt (z : Z)
| VStr (s : string)
| VList (l : list value)
| VDict (d : list (string * value)).

(** A [dict[str, Any]]: keys in insertion order, no key twice. *)
Definition pydict : Type := list (string * value).

Inductive exn : Type :=
| KeyError (key : string)
| TypeError
| AttributeError
| ValueError (msg : string)
| RuntimeError (msg : string)
| SdkError (tag : string).   (* raised by an SDK or a context manager *)

Definition result (A : Type) : Type := (exn + A)%type.

Definition ok {A} (a : A) : result A := inr a.
Definition raise {A} (e : exn) : result A := inl e.

Definition rbind {A B} (r : result A) (k : A -> result B) : result B :=
  match r with
  | inl e => inl e
  | inr a => k a
  end.

(** [d.get(key)] as an option. *)
Fixpoint lookup (key : string) (d : pydict) : option value :=
  match d with
  | [] => None
  | (k, v) :: d' => if String.eqb k key then Some v else lookup key d'
  end.

(** [key in d] *)
Definition has_key (key : string) (d : pydict) : bool :=
  match lookup key d with Some _ => true | None => false end.

(** [d[key]] *)
Definition getitem (d : pydict) (key : string) : result value :=
  match lookup key d with
  | Some v => ok v
  | None => raise (KeyError key)
  end.

(** [d.get(key, default)] *)
Definition get (d : pydict) (key : string) (default : value) : value :=
  match lookup key d with
  | Some v => v
  | None => default
  end.

(** [v[key]] for a value of unknown type and a string key. *)
Definition subscript (v : value) (key : string) : result value :=
  match v with
  | VDict d => getitem d key
  | _ => raise TypeError
  end.

(** [v.get(key, default)] for a value of unknown type. *)
Definition get_attr (v : value) (key : string) (default : value) : result value :=
  match v with
  | VDict d => ok (get d key default)
  | _ => raise AttributeError
  end.

(** [bool(v)] *)
Definition truthy (v : value) : bool :=
  match v with
  | VNone => false
  | VBool b => b
  | VInt z => negb (z =? 0)
  | VStr s => negb (String.eqb s "")
  | VList l => match l with [] => false | _ => true end
  | VDict d => match d with [] => false | _ => true end
  end.

(** [v == "lit"] against a string literal: only a string is equal to it. *)
Definition eq_str (v : value) (lit : string) : bool :=
  match v with
  | VStr s => String.eqb s lit
  | _ => false
  end.

(** [s += v] on a string accumulator. *)
Definition str_iadd (s : string) (v : value) : result string :=
  match v with
  | VStr t => ok (s ++ t)
  | _ => raise TypeError
  end.

(** [for x in v]: the items the loop visits. *)
Definition iter (v : value) : result (list value) :=
  match v with
  | VList l => ok l
  | VDict d => ok (map (fun kv => VStr (fst kv)) d)
  | VStr s => ok (map (fun c => VStr (String c EmptyString)) (list_ascii_of_string s))
  | _ => raise TypeError
  end.

End Py.
Import Py.

Notation "x <-! r ;; k" := (rbind r (fun x => k))
  (at level 61, r at next level, right associativity).

(** ** [json.dumps] with its default arguments *)

Module Json.

Definition hex_digit (n : nat) : ascii :=
  match n with
  | 0 => "0" | 1 => "1" | 2 => "2" | 3 => "3" | 4 => "4" | 5 => "5"
  | 6 => "6" | 7 => "7" | 8 => "8" | 9 => "9" | 10 => "a" | 11 => "b"
  | 12 => "c" | 13 => "d" | 14 => "e" | _ => "f"
  end%nat%char.

Definition dquote : string := String (ascii_of_nat 34) "".

(** One character of a string under [ensure_ascii=True]. *)
Definition escape_char (c : ascii) : string :=
  let n := nat_of_ascii c in
  if Nat.eqb n 34 then "\" ++ dquote
  else if Nat.eqb n 92 then "\\"
  else if Nat.eqb n 10 then "\n"
  else if Nat.eqb n 13 then "\r"
  else if Nat.eqb n 9 then "\t"
  else if Nat.eqb n 8 then "\b"
  else if Nat.eqb n 12 then "\f"
  else if (Nat.ltb n 32 || Nat.ltb 126 n)%bool then
    "\u00" ++ String (hex_digit (n / 16)) (String (hex_digit (n mod 16)) "")
  else String c "".

Fixpoint escape (s : string) : string :=
  match s with
  | EmptyString => ""
  | String c s' => escape_char c ++ escape s'
  end.

Definition quote (s : string) : string := dquote ++ escape s ++ dquote.

Definition dumps_int (z : Z) : string := NilZero.string_of_int (Z.to_int z).

Fixpoint join (sep : string) (parts : list string) : string :=
  match parts with
  | [] => ""
  | [p] => p
  | p :: ps => p ++ sep ++ join sep ps
  end.

Fixpoint dumps (v : value) : string :=
  match v with
  | VNone => "null"
  | VBool true => "true"
  | VBool false => "false"
  | VInt z => dumps_int z
  | VStr s => quote s
  | VList l => "[" ++ join ", " (map dumps l) ++ "]"
  | VDict d =>
      "{" ++ join ", " (map (fun kv => quote (fst kv) ++ ": " ++ dumps (snd kv)) d) ++ "}"
  end.

End Json.


(** ** [claude_client.py]: the pure parts of [ClaudeClient] *)

Module ClaudeClient.

(** [self.model] *)
Definition model : string := "claude-sonnet-4-20250514".

Definition default_input_schema : value :=
  VDict [("type", VStr "object"); ("properties", VDict [])].

(** The body of the loop of [convert_mcp_tools_to_claude_format]:
    [claude_tools] is the list built so far. *)
Fixpoint convert_loop (mcp_tools : list pydict) (claude_tools : list pydict)
  : result (list pydict) :=
  match mcp_tools with
  | [] => ok claude_tools
  | mcp_tool :: rest =>
      name <-! getitem mcp_tool "name";;
      let claude_tool :=
        [("name", name);
         ("description", get mcp_tool "description" (VStr ""));
         ("input_schema", get mcp_tool "inputSchema" default_input_schema)] in
      convert_loop rest (claude_tools ++ [claude_tool])%list
  end.

Definition convert_mcp_tools_to_claude_format (mcp_tools : list pydict)
  : result (list pydict) :=
  convert_loop mcp_tools [].

(** [if tools:] on an optional list: neither [None] nor the empty list. *)
Definition tools_given (tools : option (list pydict)) : bool :=
  match tools with
  | Some (_ :: _) => true
  | _ => false
  end.

(** The keyword arguments [call_claude] passes to [messages.create]. *)
Definition request_kwargs (messages : list pydict)
    (tools : option (list pydict)) (max_tokens : Z) : pydict :=
  let kwargs :=
    [("model", VStr model);
     ("max_tokens", VInt max_tokens);
     ("messages", VList (map VDict messages))] in
  if tools_given tools
  then (kwargs
        ++ [("tools",
             VList (map VDict (match tools with Some ts => ts | None => [] end)))])%list
  else kwargs.

Fixpoint extract_loop (blocks : list value) (tool_calls : list pydict)
  : result (list pydict) :=
  match blocks with
  | [] => ok tool_calls
  | block :: rest =>
      ty <-! subscript block "type";;
      if eq_str ty "tool_use" then
        id <-! subscript block "id";;
        name <-! subscript block "name";;
        input <-! subscript block "input";;
        extract_loop rest
          (tool_calls ++ [[("id", id); ("name", name); ("input", input)]])%list
      else extract_loop rest tool_calls
  end.

Definition extract_tool_calls (response : pydict) : result (list pydict) :=
  content <-! getitem response "content";;
  blocks <-! iter content;;
  extract_loop blocks [].

Fixpoint format_loop (items : list value) (content_text : string)
  : result string :=
  match items with
  | [] => ok content_text
  | content_item :: rest =>
      ty <-! get_attr content_item "type" VNone;;
      if eq_str ty "text" then
        text <-! get_attr content_item "text" (VStr "");;
        content_text' <-! str_iadd content_text text;;
        format_loop rest content_text'
      else format_loop rest content_text
  end.

Definition format_tool_result_for_claude (tool_call_id : value)
    (tool_result : pydict) : result pydict :=
  content_text <-!
    (if (has_key "content" tool_result
         && truthy (get tool_result "content" VNone))%bool
     then items <-! iter (get tool_result "content" VNone);;
          format_loop items ""
     else ok "");;
  ok [("type", VStr "tool_result");
      ("tool_use_id", tool_call_id);
      ("content", VStr (if String.eqb content_text ""
                        then Json.dumps (VDict tool_result)
                        else content_text))].

End ClaudeClient.

(** ** The outside world and the trace of a run *)

(** The two context managers [connect] enters on the exit stack:
    [stdio_client] (the transport to the server process) and
    [ClientSession]. *)
Inductive ctx : Type := StdioTransport | SessionCtx.

Definition ctx_eqb (a b : ctx) : bool :=
  match a, b with
  | StdioTransport, StdioTransport => true
  | SessionCtx, SessionCtx => true
  | _, _ => false
  end.

(** The message object [messages.create] returns; [resp_content] and
    [resp_usage] are already the [model_dump()] of its blocks and usage. *)
Record ApiResponse : Type := {
  resp_id : value;
  resp_type : value;
  resp_role : value;
  resp_content : list pydict;
  resp_model : value;
  resp_stop_reason : value;
  resp_usage : pydict }.

(** The lines of stdout that carry the model's answer. *)
Inductive out_line : Type :=
| OutNoTools                 (* [HOST] Claude did not select any tools. Response: *)
| OutClaudeText (v : value)  (* [CLAUDE] {block['text']} *)
| OutNoExecution             (* [HOST] POC complete - no tool execution needed *)
| OutFinal (s : string).     (* the final text, between two empty lines *)

(** One step of the run that leaves the process, with its outcome. *)
Inductive event : Type :=
| EvEnter (c : ctx) (r : result unit)
| EvExit (c : ctx) (r : result bool)
| EvInitialize (r : result pydict)
| EvListTools (r : result (list pydict))
| EvCallTool (name arguments : value) (r : result pydict)
| EvCreate (kwargs : pydict) (r : result ApiResponse)
| EvPrint (l : out_line).

(** How the world answers, given everything that happened so far. *)
Record World : Type := {
  getenv_api_key : option string;
  enter_ctx : list event -> ctx -> result unit;
  exit_ctx : list event -> ctx -> result bool;
  sdk_initialize : list event -> result pydict;
  sdk_list_tools : list event -> result (list pydict);
  sdk_call_tool : list event -> value -> value -> result pydict;
  messages_create : list event -> pydict -> result ApiResponse }.

(** The [MCPClient] object and the trace so far. *)
Record state : Type := {
  trace : list event;
  session : bool;            (* [self.session] is set *)
  exit_stack : list ctx }.   (* entered contexts, the last one first *)

Definition M (A : Type) : Type := state -> result A * state.

Definition ret {A} (a : A) : M A := fun st => (ok a, st).
Definition throw {A} (e : exn) : M A := fun st => (raise e, st).
Definition lift {A} (r : result A) : M A := fun st => (r, st).

Definition bind {A B} (m : M A) (k : A -> M B) : M B :=
  fun st =>
    match m st with
    | (inl e, st') => (inl e, st')
    | (inr a, st') => k a st'
    end.

Notation "x <- m ;; k" := (bind m (fun x => k))
  (at level 61, m at next level, right associativity).
Notation "m ;;; k" := (bind m (fun _ => k))
  (at level 61, right associativity).

(** [try: body finally: fin] where the body's value is discarded or returned:
    the finaliser runs on both outcomes, and its own exception wins. *)
Definition try_finally {A} (body : M A) (fin : M unit) : M A :=
  fun st =>
    let (r, st1) := body st in
    match fin st1 with
    | (inl e, st2) => (inl e, st2)
    | (inr _, st2) => (r, st2)
    end.

(** The state after one more event. *)
Definition log (e : event) (st : state) : state :=
  {| trace := (trace st ++ [e])%list;
     session := session st;
     exit_stack := exit_stack st |}.

Definition emit (e : event) : M unit := fun st => (ok tt, log e st).

Definition print (l : out_line) : M unit := emit (EvPrint l).

(** An outside call: ask the world at the current history and record the
    call with its outcome.  [ask] hands the outcome over as a value,
    [external] returns or raises as it says. *)
Definition ask {A} (answer : list event -> result A)
    (record : result A -> event) : M (result A) :=
  fun st =>
    let r := answer (trace st) in
    (ok r, log (record r) st).

Definition external {A} (answer : list event -> result A)
    (record : result A -> event) : M A :=
  r <- ask answer record;; lift r.

Definition set_session : M unit :=
  fun st => (ok tt, {| trace := trace st; session := true;
                        exit_stack := exit_stack st |}).

Definition set_exit_stack (cs : list ctx) : M unit :=
  fun st => (ok tt, {| trace := trace st; session := session st;
                        exit_stack := cs |}).

Definition get_state : M state := fun st => (ok st, st).

Definition initial_state : state :=
  {| trace := []; session := false; exit_stack := [] |}.

(** ** [client.py]: [MCPClient] *)

Section Host.

Variable w : World.

(** [self.exit_stack.enter_async_context(cm)]: the context is entered, and
    only when that succeeds its exit is pushed on the stack. *)
Definition enter_async_context (c : ctx) : M unit :=
  external (fun h => enter_ctx w h c) (EvEnter c);;;
  st <- get_state;;
  set_exit_stack (c :: exit_stack st).

(** [AsyncExitStack.aclose()]: every callback is popped and run once, the last
    entered first; an exception of one does not stop the others, and the
    one still pending at the end is raised.  A callback that returns true
    clears the pending exception. *)
Fixpoint aclose_loop (callbacks : list ctx) (pending : option exn) : M unit :=
  match callbacks with
  | [] =>
      match pending with
      | Some e => throw e
      | None => ret tt
      end
  | c :: rest =>
      set_exit_stack rest;;;
      r <- ask (fun h => exit_ctx w h c) (EvExit c);;
      match r with
      | inl e => aclose_loop rest (Some e)
      | inr true => aclose_loop rest None
      | inr false => aclose_loop rest pending
      end
  end.

Definition aclose : M unit :=
  st <- get_state;;
  aclose_loop (exit_stack st) None.

Definition connect (server_script_path : string) : M pydict :=
  enter_async_context StdioTransport;;;
  enter_async_context SessionCtx;;;
  set_session;;;
  init_result <- external (sdk_initialize w) EvInitialize;;
  ret init_result.

Definition not_connected : exn := RuntimeError "Not connected to a server".

Definition list_tools : M (list pydict) :=
  st <- get_state;;
  if negb (session st) then throw not_connected
  else
    tools <- external (sdk_list_tools w) EvListTools;;
    ret tools.

Definition call_tool (tool_name arguments : value) : M pydict :=
  st <- get_state;;
  if negb (session st) then throw not_connected
  else
    result_dict <- external (fun h => sdk_call_tool w h tool_name arguments)
                            (EvCallTool tool_name arguments);;
    ret result_dict.

Definition cleanup : M unit := aclose.

(** ** [claude_client.py]: [call_claude] *)

Definition response_dict (response : ApiResponse) : pydict :=
  [("id", resp_id response);
   ("type", resp_type response);
   ("role", resp_role response);
   ("content", VList (map VDict (resp_content response)));
   ("model", resp_model response);
   ("stop_reason", resp_stop_reason response);
   ("usage", VDict (resp_usage response))].

Definition call_claude (messages : list pydict)
    (tools : option (list pydict)) (max_tokens : Z) : M pydict :=
  let kwargs := ClaudeClient.request_kwargs messages tools max_tokens in
  response <- external (fun h => messages_create w h kwargs) (EvCreate kwargs);;
  ret (response_dict response).

(** ** [orchestrator.py]: [run_poc_workflow] *)

Definition user_message (user_query : string) : pydict :=
  [("role", VStr "user"); ("content", VStr user_query)].

(** The loop that prints the text blocks when no tool was selected. *)
Fixpoint report_loop (blocks : list value) : M unit :=
  match blocks with
  | [] => ret tt
  | block :: rest =>
      ty <- lift (subscript block "type");;
      (if eq_str ty "text" then
         text <- lift (subscript block "text");;
         print (OutClaudeText text)
       else ret tt);;;
      report_loop rest
  end.

(** Phase 4: the loop over the selected tool calls. *)
Fixpoint execute_loop (tool_calls : list pydict) (tool_results : list pydict)
  : M (list pydict) :=
  match tool_calls with
  | [] => ret tool_results
  | tool_call :: rest =>
      name <- lift (getitem tool_call "name");;
      input <- lift (getitem tool_call "input");;
      mcp_result <- call_tool name input;;
      id <- lift (getitem tool_call "id");;
      claude_result <-
        lift (ClaudeClient.format_tool_result_for_claude id mcp_result);;
      execute_loop rest (tool_results ++ [claude_result])%list
  end.

(** The loop that collects the final text of the synthesis response. *)
Fixpoint final_loop (blocks : list value) (final_text : string)
  : result string :=
  match blocks with
  | [] => ok final_text
  | block :: rest =>
      ty <-! subscript block "type";;
      if eq_str ty "text" then
        text <-! subscript block "text";;
        final_text' <-! str_iadd final_text text;;
        final_loop rest final_text'
      else final_loop rest final_text
  end.

Definition server_path : string := "simple_server.py".

(** The body of the [try] block.  The list [messages] is built once and
    extended before the second call; each request records the messages it
    was sent with.  Between the phases the source prints the selected calls
    ([json.dumps] of their inputs), which cannot fail on these values. *)
Definition workflow_body (user_query : string) : M unit :=
  (* Phase 1 *)
  init_result <- connect server_path;;
  (* Phase 2 *)
  mcp_tools <- list_tools;;
  claude_tools <-
    lift (ClaudeClient.convert_mcp_tools_to_claude_format mcp_tools);;
  (* Phase 3 *)
  let messages := [user_message user_query] in
  planning_response <- call_claude messages (Some claude_tools) 1024;;
  tool_calls <- lift (ClaudeClient.extract_tool_calls planning_response);;
  match tool_calls with
  | [] =>
      print OutNoTools;;;
      content <- lift (getitem planning_response "content");;
      blocks <- lift (iter content);;
      report_loop blocks;;;
      print OutNoExecution;;;
      ret tt
  | _ :: _ =>
      (* Phase 4 *)
      tool_results <- execute_loop tool_calls [];;
      (* Phase 5 *)
      content <- lift (getitem planning_response "content");;
      let messages :=
        (messages ++
         [[("role", VStr "assistant"); ("content", content)];
          [("role", VStr "user");
           ("content", VList (map VDict tool_results))]])%list in
      synthesis_response <- call_claude messages (Some claude_tools) 1024;;
      content <- lift (getitem synthesis_response "content");;
      blocks <- lift (iter content);;
      final_text <- lift (final_loop blocks "");;
      print (OutFinal final_text);;;
      ret tt
  end.

Definition missing_key : exn :=
  ValueError "ANTHROPIC_API_KEY not found in .env.local".

Definition run_poc_workflow (user_query : string) : M unit :=
  match getenv_api_key w with
  | None => throw missing_key
  | Some api_key =>
      if String.eqb api_key "" then throw missing_key
      else
        (* mcp_client = MCPClient() *)
        try_finally (workflow_body user_query) cleanup
  end.

End Host.

(** A whole run: the workflow on a fresh [MCPClient] and an empty trace. *)
Definition run (w : World) (user_query : string) : result unit * state :=
  run_poc_workflow w user_query initial_state.

(** ** Vocabulary of the properties *)

(** *** Shapes of the dicts the SDKs hand over *)

(** A capability descriptor has a name; description and input schema may
    be missing. *)
Definition is_descriptor (d : pydict) : bool := has_key "name" d.

(** What one descriptor is translated to. *)
Definition translated (mcp_tool claude_tool : pydict) : Prop :=
  lookup "name" claude_tool = lookup "name" mcp_tool /\
  lookup "description" claude_tool
    = Some (get mcp_tool "description" (VStr "")) /\
  lookup "input_schema" claude_tool
    = Some (get mcp_tool "inputSchema" ClaudeClient.default_input_schema).

(** The call extracted from a [tool_use] block. *)
Definition call_of (block call : pydict) : Prop :=
  lookup "id" call = lookup "id" block /\
  lookup "name" call = lookup "name" block /\
  lookup "input" call = lookup "input" block.

Definition is_tool_use (block : pydict) : bool :=
  eq_str (get block "type" VNone) "tool_use".

Definition is_text (block : pydict) : bool :=
  eq_str (get block "type" VNone) "text".

(** A content block has a type, and a [tool_use] block its three fields. *)
Definition wf_block (block : pydict) : bool :=
  has_key "type" block &&
  (if is_tool_use block
   then has_key "id" block && has_key "name" block && has_key "input" block
   else true).

(** A content block whose text, when it is a text block, is a string. *)
Definition wf_text_block (block : pydict) : bool :=
  has_key "type" block &&
  (if is_text block
   then match lookup "text" block with Some (VStr _) => true | _ => false end
   else true).

Definition block_text (block : pydict) : string :=
  match lookup "text" block with
  | Some (VStr s) => s
  | _ => ""
  end.

(** The texts of the text blocks, in order. *)
Definition text_blocks (content : list pydict) : list string :=
  map block_text (filter is_text content).

(** An entry of a capability result: a dict; a text entry carries a string
    (or no text at all). *)
Definition wf_item (item : value) : bool :=
  match item with
  | VDict d =>
      if is_text d
      then match lookup "text" d with
           | None | Some (VStr _) => true
           | _ => false
           end
      else true
  | _ => false
  end.

Definition result_items (tool_result : pydict) : list value :=
  match lookup "content" tool_result with
  | Some (VList items) => items
  | _ => []
  end.

(** A capability result: its content is a sequence of entries. *)
Definition wf_result (tool_result : pydict) : bool :=
  match lookup "content" tool_result with
  | Some (VList items) => forallb wf_item items
  | _ => false
  end.

Definition item_is_text (item : value) : bool :=
  match item with
  | VDict d => is_text d
  | _ => false
  end.

Definition item_text (item : value) : string :=
  match item with
  | VDict d => block_text d
  | _ => ""
  end.

(** The values of the text entries of a result, concatenated in order. *)
Definition result_text (tool_result : pydict) : string :=
  String.concat "" (map item_text (filter item_is_text (result_items tool_result))).

(** *** What a trace shows *)

(** The requests that reached the Model Service, with their outcomes. *)
Fixpoint model_requests (tr : list event)
  : list (pydict * result ApiResponse) :=
  match tr with
  | [] => []
  | EvCreate kwargs r :: tr' => (kwargs, r) :: model_requests tr'
  | _ :: tr' => model_requests tr'
  end.

(** The capability invocations: name, arguments, outcome. *)
Fixpoint invocations (tr : list event)
  : list (value * value * result pydict) :=
  match tr with
  | [] => []
  | EvCallTool name arguments r :: tr' => (name, arguments, r) :: invocations tr'
  | _ :: tr' => invocations tr'
  end.

(** The answer lines on stdout. *)
Fixpoint printed (tr : list event) : list out_line :=
  match tr with
  | [] => []
  | EvPrint l :: tr' => l :: printed tr'
  | _ :: tr' => printed tr'
  end.

(** How often context [c] was entered with success. *)
Fixpoint acquisitions (c : ctx) (tr : list event) : nat :=
  match tr with
  | [] => 0
  | EvEnter c' (inr _) :: tr' =>
      ((if ctx_eqb c c' then 1 else 0) + acquisitions c tr')%nat
  | _ :: tr' => acquisitions c tr'
  end.

(** How often the exit of context [c] was run. *)
Fixpoint releases (c : ctx) (tr : list event) : nat :=
  match tr with
  | [] => 0
  | EvExit c' _ :: tr' =>
      ((if ctx_eqb c c' then 1 else 0) + releases c tr')%nat
  | _ :: tr' => releases c tr'
  end.

Definition is_exit (e : event) : bool :=
  match e with EvExit _ _ => true | _ => false end.

Definition is_ctx_event (e : event) : bool :=
  match e with EvEnter _ _ | EvExit _ _ => true | _ => false end.

Definition no_ctx_event (e : event) : bool := negb (is_ctx_event e).

(** Events of phases 1 and 2. *)
Definition is_setup (e : event) : bool :=
  match e with
  | EvEnter _ _ | EvInitialize _ | EvListTools _ => true
  | _ => false
  end.

Definition is_invocation (e : event) : bool :=
  match e with EvCallTool _ _ _ => true | _ => false end.

Definition is_print (e : event) : bool :=
  match e with EvPrint _ => true | _ => false end.

(** Whether [initialize()] has returned with success. *)
Definition initialized (tr : list event) : bool :=
  existsb (fun e => match e with EvInitialize (inr _) => true | _ => false end) tr.

(** [m] only appends events that satisfy [P] and leaves the client object
    as it is. *)
Definition emits {A} (P : event -> bool) (m : M A) : Prop :=
  forall st, exists evs,
    trace (snd (m st)) = (trace st ++ evs)%list /\
    forallb P evs = true /\
    session (snd (m st)) = session st /\
    exit_stack (snd (m st)) = exit_stack st.

(** *** The Execute phase, call by call *)

(** A tool call as [extract_tool_calls] builds it. *)
Definition is_call (call : pydict) : bool :=
  has_key "id" call && has_key "name" call && has_key "input" call.

Definition invocation_of (call : pydict) (outcome : result pydict)
  : value * value * result pydict :=
  (get call "name" VNone, get call "input" VNone, outcome).

(** The [tool_result] block of a call whose invocation returned and whose
    result could be formatted. *)
Definition tool_result_for (call : pydict) (outcome : result pydict)
  : option pydict :=
  match outcome with
  | inl _ => None
  | inr mcp_result =>
      match ClaudeClient.format_tool_result_for_claude
              (get call "id" VNone) mcp_result with
      | inl _ => None
      | inr claude_result => Some claude_result
      end
  end.

(** [executed calls outcomes blocks]: the calls were invoked one after the
    other with these outcomes, each one only after the one before it had
    returned and been formatted into its block. *)
Inductive executed : list pydict -> list (result pydict) -> list pydict -> Prop :=
| executed_all : executed [] [] []
| executed_next call calls outcome outcomes block blocks :
    tool_result_for call outcome = Some block ->
    executed calls outcomes blocks ->
    executed (call :: calls) (outcome :: outcomes) (block :: blocks)
| executed_stop call calls outcome :
    tool_result_for call outcome = None ->
    executed (call :: calls) [outcome] [].

Definition invocation_event (i : value * value * result pydict) : event :=
  let '(name, arguments, outcome) := i in EvCallTool name arguments outcome.

(** The invocations of the first calls of [calls], one per outcome. *)
Definition invoked (calls : list pydict) (outcomes : list (result pydict))
  : list (value * value * result pydict) :=
  map (fun co => invocation_of (fst co) (snd co)) (combine calls outcomes).

(** The requests of the two inference calls. *)
Definition plan_request (user_query : string) (claude_tools : list pydict) : pydict :=
  ClaudeClient.request_kwargs [user_message user_query] (Some claude_tools) 1024.

Definition synthesis_messages (user_query : string)
    (planning_content : list pydict) (tool_results : list pydict) : list pydict :=
  [user_message user_query;
   [("role", VStr "assistant"); ("content", VList (map VDict planning_content))];
   [("role", VStr "user"); ("content", VList (map VDict tool_results))]].

Definition synthesis_request (user_query : string) (claude_tools : list pydict)
    (planning_content : list pydict) (tool_results : list pydict) : pydict :=
  ClaudeClient.request_kwargs
    (synthesis_messages user_query planning_content tool_results)
    (Some claude_tools) 1024.

(** How often context [c] is on an exit stack. *)
Definition held (c : ctx) (stack : list ctx) : nat :=
  List.length (filter (ctx_eqb c) stack).

(** *** The paths through the [try] block *)

(** What Phase 5 prints and returns, given the outcome of its request. *)
Definition synthesis_outcome (o2 : result ApiResponse) (out : result unit)
    (lines : list out_line) : Prop :=
  match o2 with
  | inl e => out = inl e /\ lines = []
  | inr synthesis_response =>
      match final_loop (map VDict (resp_content synthesis_response)) "" with
      | inl e => out = inl e /\ lines = []
      | inr final_text => out = ok tt /\ lines = [OutFinal final_text]
      end
  end.

(** [body_path q out evs]: the [try] block for query [q] ends with [out]
    after the events [evs].  One constructor per way through the block. *)
Inductive body_path (q : string) : result unit -> list event -> Prop :=
| path_setup_failed e pre :
    forallb is_setup pre = true ->
    body_path q (inl e) pre
| path_plan_failed e pre claude_tools :
    forallb is_setup pre = true ->
    body_path q (inl e)
      (pre ++ [EvCreate (plan_request q claude_tools) (inl e)])
| path_extract_failed e pre claude_tools r1 :
    forallb is_setup pre = true ->
    ClaudeClient.extract_tool_calls (response_dict r1) = inl e ->
    body_path q (inl e)
      (pre ++ [EvCreate (plan_request q claude_tools) (inr r1)])
| path_no_tools out pre claude_tools r1 lines :
    forallb is_setup pre = true ->
    ClaudeClient.extract_tool_calls (response_dict r1) = inr [] ->
    (forallb wf_text_block (resp_content r1) = true ->
     out = ok tt /\
     lines = (map (fun s => OutClaudeText (VStr s)) (text_blocks (resp_content r1))
              ++ [OutNoExecution])%list) ->
    body_path q out
      (pre ++ [EvCreate (plan_request q claude_tools) (inr r1)]
           ++ map EvPrint (OutNoTools :: lines))
| path_execute_failed e pre claude_tools r1 calls outcomes blocks :
    forallb is_setup pre = true ->
    ClaudeClient.extract_tool_calls (response_dict r1) = inr calls ->
    calls <> [] ->
    executed calls outcomes blocks ->
    (List.length blocks < List.length outcomes)%nat ->
    body_path q (inl e)
      (pre ++ [EvCreate (plan_request q claude_tools) (inr r1)]
           ++ map invocation_event (invoked calls outcomes))
| path_synthesis out pre claude_tools r1 calls outcomes blocks o2 lines :
    forallb is_setup pre = true ->
    ClaudeClient.extract_tool_calls (response_dict r1) = inr calls ->
    calls <> [] ->
    executed calls outcomes blocks ->
    List.length blocks = List.length calls ->
    synthesis_outcome o2 out lines ->
    body_path q out
      (pre ++ [EvCreate (plan_request q claude_tools) (inr r1)]
           ++ map invocation_event (invoked calls outcomes)
           ++ [EvCreate
                 (synthesis_request q claude_tools (resp_content r1) blocks) o2]
           ++ map EvPrint lines).

(** [run_view q out requests invoked printed]: what a run for query [q]
    shows to the three readers of its trace when its [try] block ends
    with [out]. *)
Inductive run_view (q : string)
  : result unit ->
    list (pydict * result ApiResponse) ->
    list (value * value * result pydict) ->
    list out_line -> Prop :=
| view_setup_failed e :
    run_view q (inl e) [] [] []
| view_plan_failed e claude_tools :
    run_view q (inl e) [(plan_request q claude_tools, inl e)] [] []
| view_extract_failed e claude_tools r1 :
    ClaudeClient.extract_tool_calls (response_dict r1) = inl e ->
    run_view q (inl e) [(plan_request q claude_tools, inr r1)] [] []
| view_no_tools out claude_tools r1 lines :
    ClaudeClient.extract_tool_calls (response_dict r1) = inr [] ->
    (forallb wf_text_block (resp_content r1) = true ->
     out = ok tt /\
     lines = (map (fun s => OutClaudeText (VStr s)) (text_blocks (resp_content r1))
              ++ [OutNoExecution])%list) ->
    run_view q out [(plan_request q claude_tools, inr r1)] [] (OutNoTools :: lines)
| view_execute_failed e claude_tools r1 calls outcomes blocks :
    ClaudeClient.extract_tool_calls (response_dict r1) = inr calls ->
    calls <> [] ->
    executed calls outcomes blocks ->
    (List.length blocks < List.length outcomes)%nat ->
    run_view q (inl e) [(plan_request q claude_tools, inr r1)]
      (invoked calls outcomes) []
| view_synthesis out claude_tools r1 calls outcomes blocks o2 lines :
    ClaudeClient.extract_tool_calls (response_dict r1) = inr calls ->
    calls <> [] ->
    executed calls outcomes blocks ->
    List.length blocks = List.length calls ->
    synthesis_outcome o2 out lines ->
    run_view q out
      [(plan_request q claude_tools, inr r1);
       (synthesis_request q claude_tools (resp_content r1) blocks, o2)]
      (invoked calls outcomes) lines.

(** ** Worlds to run the host in *)

Module Examples.

Definition is_create (e : event) : bool :=
  match e with EvCreate _ _ => true | _ => false end.

Definition response_of (content : list pydict) (stop_reason : string) : ApiResponse :=
  {| resp_id := VStr "msg_01";
     resp_type := VStr "message";
     resp_role := VStr "assistant";
     resp_content := content;
     resp_model := VStr ClaudeClient.model;
     resp_stop_reason := VStr stop_reason;
     resp_usage := [("input_tokens", VInt 12); ("output_tokens", VInt 7)] |}.

Definition text_block (s : string) : pydict :=
  [("type", VStr "text"); ("text", VStr s)].

Definition tool_use_block (id name : string) (input : pydict) : pydict :=
  [("type", VStr "tool_use"); ("id", VStr id); ("name", VStr name);
   ("input", VDict input)].

Definition text_result (s : string) (is_error : bool) : pydict :=
  [("content", VList [VDict (text_block s)]); ("isError", VBool is_error)].

Definition calculate_tool : pydict :=
  [("name", VStr "calculate");
   ("description", VStr "Safely evaluate a mathematical expression.");
   ("inputSchema",
    VDict [("type", VStr "object");
           ("properties", VDict [("expression", VDict [("type", VStr "string")])])])].

(** A descriptor with nothing but its name. *)
Definition bare_tool : pydict := [("name", VStr "get_weather")].

(** A world that follows a script: the handshake answers [init], the model
    answers [planning] to its first request and [synthesis] to any later
    one, and the server answers a call as [answer] says. *)
Definition scripted (init : result pydict) (planning synthesis : list pydict)
    (answer : value -> value -> result pydict) : World :=
  {| getenv_api_key := Some "sk-ant-test";
     enter_ctx := fun _ _ => ok tt;
     exit_ctx := fun _ _ => ok false;
     sdk_initialize := fun _ => init;
     sdk_list_tools := fun _ => ok [calculate_tool; bare_tool];
     sdk_call_tool := fun _ name arguments => answer name arguments;
     messages_create := fun h _ =>
       if existsb is_create h
       then ok (response_of synthesis "end_turn")
       else ok (response_of planning "tool_use") |}.

Definition handshake : pydict := [("protocolVersion", VStr "2025-06-18")].

(** The scenario of the calculator: one tool call, answered with 50. *)
Definition calc_query : string := "What is 42 + 8?".

Definition calc_world : World :=
  scripted (ok handshake)
    [tool_use_block "toolu_01" "calculate" [("expression", VStr "42 + 8")]]
    [text_block "42 + 8 = "; text_block "50"]
    (fun _ _ => ok (text_result "The result is: 50" false)).

(** The model answers in plain text and selects no tool. *)
Definition chat_world : World :=
  scripted (ok handshake)
    [text_block "Hello."; text_block "How can I help?"]
    []
    (fun _ _ => raise (SdkError "no call expected")).

(** The server's [initialize] fails after both contexts were entered. *)
Definition failing_init_world : World :=
  scripted (raise (SdkError "initialize: connection closed"))
    [] [] (fun _ _ => ok (text_result "late answer" false)).

Definition after_failed_connect : state :=
  snd (connect failing_init_world server_path initial_state).

(** Two calls; the server reports the first as failed ([isError]) and
    answers the second. *)
Definition error_world : World :=
  scripted (ok handshake)
    [tool_use_block "toolu_01" "calculate" [("expression", VStr "1 / 0")];
     tool_use_block "toolu_02" "get_weather" [("city", VStr "London")]]
    [text_block "The division failed; London is rainy."]
    (fun name _ =>
       if eq_str name "calculate"
       then ok (text_result "Error calculating expression: division by zero" true)
       else ok (text_result "Rainy, 55F (13C)" false)).

Definition error_calls : list pydict :=
  [[("id", VStr "toolu_01"); ("name", VStr "calculate");
    ("input", VDict [("expression", VStr "1 / 0")])];
   [("id", VStr "toolu_02"); ("name", VStr "get_weather");
    ("input", VDict [("city", VStr "London")])]].

Definition error_query : string := "What is 1 / 0, and how is London?".

End Examples.

(** ** Closed forms of the two translations *)

(** The dict [convert_mcp_tools_to_claude_format] builds for one tool. *)
Definition claude_tool_of (mcp_tool : pydict) : pydict :=
  [("name", get mcp_tool "name" VNone);
   ("description", get mcp_tool "description" (VStr ""));
   ("input_schema", get mcp_tool "inputSchema" ClaudeClient.default_input_schema)].

(** The dict [extract_tool_calls] builds for one [tool_use] block. *)
Definition tool_call_of (block : pydict) : pydict :=
  [("id", get block "id" VNone);
   ("name", get block "name" VNone);
   ("input", get block "input" VNone)].

(** The keys of a dict, in order. *)
Definition keys (d : pydict) : list string := map fst d.

(** Printable ASCII: what [json.dumps] confines its output to. *)
Definition printable (c : ascii) : bool :=
  (Nat.leb 32 (nat_of_ascii c) && Nat.leb (nat_of_ascii c) 126)%bool.

Fixpoint all_printable (s : string) : bool :=
  match s with
  | EmptyString => true
  | String c s' => (printable c && all_printable s')%bool
  end.

Definition ctx_of_exit (e : event) : list ctx :=
  match e with
  | EvExit c _ => [c]
  | _ => []
  end.

(** The contexts exited along a trace, in order. *)
Definition exited (tr : list event) : list ctx := flat_map ctx_of_exit tr.

Definition ctx_of_enter (e : event) : list ctx :=
  match e with
  | EvEnter c (inr _) => [c]
  | _ => []
  end.

(** The contexts entered with success along a trace, in order. *)
Definition entered (tr : list event) : list ctx := flat_map ctx_of_enter tr.

Definition exit_raised (e : event) : bool :=
  match e with
  | EvExit _ (inl _) => true
  | _ => false
  end.

(** ** [simple_server.py]: the two tools *)

Module SimpleServer.

(** The degree sign of the weather strings, code point 176. *)
Definition degree : string := String (ascii_of_nat 176) "".

Definition weather_data : list (string * string) :=
  [("San Francisco", "Sunny, 72" ++ degree ++ "F (22" ++ degree ++ "C)");
   ("New York", "Cloudy, 65" ++ degree ++ "F (18" ++ degree ++ "C)");
   ("London", "Rainy, 55" ++ degree ++ "F (13" ++ degree ++ "C)");
   ("Tokyo", "Clear, 68" ++ degree ++ "F (20" ++ degree ++ "C)")].

(** [d.get(key)] on a dict of strings. *)
Fixpoint dict_get (key : string) (d : list (string * string)) : option string :=
  match d with
  | [] => None
  | (k, v) :: d' => if String.eqb k key then Some v else dict_get key d'
  end.

Definition unknown_city (city : string) : string :=
  "Weather data not available for " ++ city
  ++ ". Showing default: Partly cloudy, 70" ++ degree ++ "F (21" ++ degree ++ "C)".

Definition get_weather (city : string) : string :=
  match dict_get city weather_data with
  | Some result => result
  | None => unknown_city city
  end.

(** [set("0123456789+-*/(). ")] *)
Definition allowed_chars : list ascii :=
  list_ascii_of_string "0123456789+-*/(). ".

Definition allowed (c : ascii) : bool := existsb (Ascii.eqb c) allowed_chars.

(** [all(c in allowed_chars for c in expression)] *)
Definition all_allowed (expression : string) : bool :=
  forallb allowed (list_ascii_of_string expression).

Definition invalid_characters : string :=
  "Error: Expression contains invalid characters. Only numbers and +, -, *, /, (, ) are allowed.".

Section Calculate.

(** Python's [eval] with empty builtins, as far as [calculate] sees it:
    either the exception's [str(e)] or the value's [str(result)]. *)
Variable py_eval : string -> string + string.

Definition calculate (expression : string) : string :=
  if negb (all_allowed expression) then invalid_characters
  else
    match py_eval expression with
    | inr result => "The result is: " ++ result
    | inl message => "Error calculating expression: " ++ message
    end.

End Calculate.

End SimpleServer.

(** ** [protocol_inspector.py]: [inspect_protocol] *)

Section Inspector.

Variable w : World.

(** [async with AsyncExitStack() as exit_stack: body]: a fresh stack; at
    the end every entered context is exited, with the body's exception
    pending if it raised.  The statement raises what is pending after the
    exits and returns otherwise. *)
Definition async_with_exit_stack (body : M unit) : M unit :=
  set_exit_stack [];;;
  (fun st =>
     let (r, st1) := body st in
     aclose_loop w (exit_stack st1)
       (match r with inl e => Some e | inr _ => None end) st1).

Definition inspected_call : value * value :=
  (VStr "calculate", VDict [("expression", VStr "42 + 8")]).

(** The body of the [async with] block.  The banners and the fields it prints
    of what it received are left out. *)
Definition inspect_body : M unit :=
  enter_async_context w StdioTransport;;;
  enter_async_context w SessionCtx;;;
  init_result <- external (sdk_initialize w) EvInitialize;;
  tools_response <- external (sdk_list_tools w) EvListTools;;
  result <- external
              (fun h => sdk_call_tool w h (fst inspected_call) (snd inspected_call))
              (EvCallTool (fst inspected_call) (snd inspected_call));;
  ret tt.

Definition inspect_protocol : M unit := async_with_exit_stack inspect_body.

End Inspector.

(** ** [orchestrator.py]: [main] *)

Definition default_query : string := "What's the weather like in San Francisco?".

(** [sys.argv[1] if len(sys.argv) > 1 else default_query] *)
Definition main (w : World) (argv : list string) : result unit * state :=
  run w (match argv with
         | _ :: query :: _ => query
         | _ => default_query
         end).

(** What the [tool_use] blocks of a response ask for: name and input of
    each, in order. *)
Definition requested (content : list pydict) : list (value * value) :=
  map (fun block => (get block "name" VNone, get block "input" VNone))
    (filter is_tool_use content).

(** The client of the calculator world once [connect] has returned. *)
Definition connected_client : state :=
  snd (connect Examples.calc_world server_path initial_state).

(** A world whose Model Service is overloaded. *)
Definition overloaded_world : World :=
  {| getenv_api_key := Some "sk-ant-test";
     enter_ctx := fun _ _ => ok tt;
     exit_ctx := fun _ _ => ok false;
     sdk_initialize := fun _ => ok Examples.handshake;
     sdk_list_tools := fun _ => ok [Examples.calculate_tool];
     sdk_call_tool := fun _ _ _ => raise (SdkError "unused");
     messages_create := fun _ _ => raise (SdkError "overloaded") |}.

(** Two calls are asked for, and the connection to the server is lost. *)
Definition broken_tool_world : World :=
  Examples.scripted (ok Examples.handshake)
    [Examples.tool_use_block "toolu_01" "calculate" [("expression", VStr "1 + 1")];
     Examples.tool_use_block "toolu_02" "get_weather" [("city", VStr "Tokyo")]]
    []
    (fun _ _ => raise (SdkError "connection lost")).

(** ** Phases 1 and 2 of the workflow *)

(** Events of phases 3 to 5. *)
Definition after_setup (e : event) : bool :=
  match e with
  | EvCreate _ _ | EvCallTool _ _ _ | EvPrint _ => true
  | _ => false
  end.

(** The events of a discovery that went through. *)
Definition discovered (init : pydict) (mcp_tools : list pydict) : list event :=
  [EvEnter StdioTransport (inr tt);
   EvEnter SessionCtx (inr tt);
   EvInitialize (inr init);
   EvListTools (inr mcp_tools)].

(** [setup_failure e evs stack]: phases 1 and 2 end with exception [e]
    after the events [evs], with [stack] left on the exit stack. *)
Inductive setup_failure : exn -> list event -> list ctx -> Prop :=
| transport_failed e :
    setup_failure e [EvEnter StdioTransport (inl e)] []
| session_failed e :
    setup_failure e
      [EvEnter StdioTransport (inr tt); EvEnter SessionCtx (inl e)]
      [StdioTransport]
| initialize_failed e :
    setup_failure e
      [EvEnter StdioTransport (inr tt); EvEnter SessionCtx (inr tt);
       EvInitialize (inl e)]
      [SessionCtx; StdioTransport]
| list_tools_failed e init :
    setup_failure e
      [EvEnter StdioTransport (inr tt); EvEnter SessionCtx (inr tt);
       EvInitialize (inr init); EvListTools (inl e)]
      [SessionCtx; StdioTransport]
| convert_failed e init mcp_tools :
    ClaudeClient.convert_mcp_tools_to_claude_format mcp_tools = inl e ->
    setup_failure e (discovered init mcp_tools) [SessionCtx; StdioTransport].

(** An event of phases 1 and 2 that reports exception [e]. *)
Definition failed_with (e : exn) (ev : event) : Prop :=
  (exists c, ev = EvEnter c (inl e)) \/
  ev = EvInitialize (inl e) \/
  ev = EvListTools (inl e).

(** The server lists a tool that has no name. *)
Definition nameless_tool_world : World :=
  {| getenv_api_key := Some "sk-ant-test";
     enter_ctx := fun _ _ => ok tt;
     exit_ctx := fun _ _ => ok false;
     sdk_initialize := fun _ => ok Examples.handshake;
     sdk_list_tools := fun _ => ok [Examples.calculate_tool;
                                    [("description", VStr "no name")]];
     sdk_call_tool := fun _ _ _ => raise (SdkError "unused");
     messages_create := fun _ _ => raise (SdkError "unused") |}.


(** ** Reading a serialization back *)

(** What follows a serialized value inside a list or a dict: nothing, a
    comma or a closing bracket. *)
Definition closes (s : string) : bool :=
  match s with
  | EmptyString => true
  | String c _ => (Ascii.eqb c "," || Ascii.eqb c "]" || Ascii.eqb c "}")%bool
  end.

(** The characters of a serialized integer. *)
Definition int_char (c : ascii) : bool :=
  (Ascii.eqb c "-"
   || (Nat.leb 48 (nat_of_ascii c) && Nat.leb (nat_of_ascii c) 57))%bool.

Fixpoint all_int_chars (s : string) : bool :=
  match s with
  | EmptyString => true
  | String c s' => (int_char c && all_int_chars s')%bool
  end.

Definition hex_value (c : ascii) : nat :=
  let n := nat_of_ascii c in
  if Nat.leb 97 n then n - 87 else n - 48.

(** The inverse of [Json.escape_char]: the character whose escape starts
    the string, and the rest of the string.  An unescaped quote, which
    ends a serialized string, starts no escape. *)
Definition unescape_char (s : string) : option (ascii * string) :=
  match s with
  | EmptyString => None
  | String c rest =>
      if Ascii.eqb c (ascii_of_nat 34) then None
      else if Ascii.eqb c "\" then
        match rest with
        | EmptyString => None
        | String x rest' =>
            if Ascii.eqb x (ascii_of_nat 34) then Some (x, rest')
            else if Ascii.eqb x "\" then Some (x, rest')
            else if Ascii.eqb x "n" then Some (ascii_of_nat 10, rest')
            else if Ascii.eqb x "r" then Some (ascii_of_nat 13, rest')
            else if Ascii.eqb x "t" then Some (ascii_of_nat 9, rest')
            else if Ascii.eqb x "b" then Some (ascii_of_nat 8, rest')
            else if Ascii.eqb x "f" then Some (ascii_of_nat 12, rest')
            else
              match rest' with
              | String _ (String _ (String h (String l rest''))) =>
                  Some (ascii_of_nat (16 * hex_value h + hex_value l), rest'')
              | _ => None
              end
        end
      else Some (c, rest)
  end.

(** A printer whose output for [a], followed by what may follow a value,
    is the output of no other item and leaves the rest as it is. *)
Definition self_delimiting {A : Type} (pr : A -> string) (a : A) : Prop :=
  forall b rest1 rest2,
    closes rest1 = true -> closes rest2 = true ->
    pr a ++ rest1 = pr b ++ rest2 ->
    a = b /\ rest1 = rest2.

(** One entry of a serialized dict. *)
Definition dumps_entry (kv : string * value) : string :=
  Json.quote (fst kv) ++ ": " ++ Json.dumps (snd kv).

(** ** Strings and dicts *)

Lemma append_nil_r (s : string) : s ++ "" = s.
Proof. induction s as [|c s IH]; simpl; [reflexivity | now rewrite IH]. Qed.

Lemma append_assoc (s t u : string) : (s ++ t) ++ u = s ++ (t ++ u).
Proof. induction s as [|c s IH]; simpl; [reflexivity | now rewrite IH]. Qed.

Lemma concat_cons (s : string) (l : list string) :
  String.concat "" (s :: l) = s ++ String.concat "" l.
Proof.
  destruct l as [|t l]; simpl; [now rewrite append_nil_r | reflexivity].
Qed.

Lemma has_key_lookup (key : string) (d : pydict) :
  has_key key d = true -> exists v, lookup key d = Some v.
Proof.
  unfold has_key. destruct (lookup key d) as [v|]; [eauto | discriminate].
Qed.

Lemma getitem_has_key (key : string) (d : pydict) :
  has_key key d = true -> getitem d key = ok (get d key VNone).
Proof.
  intros H. apply has_key_lookup in H as [v Hv].
  unfold getitem, get. now rewrite Hv.
Qed.

Lemma getitem_inv (key : string) (d : pydict) (v : value) :
  getitem d key = inr v -> lookup key d = Some v.
Proof.
  unfold getitem. destruct (lookup key d); [intros [= ->]; reflexivity | discriminate].
Qed.

(** ** [convert_mcp_tools_to_claude_format] *)

Lemma convert_loop_spec (mcp_tools : list pydict) :
  forallb is_descriptor mcp_tools = true ->
  forall claude_tools, exists out,
    ClaudeClient.convert_loop mcp_tools claude_tools = ok (claude_tools ++ out)%list /\
    Forall2 translated mcp_tools out.
Proof.
  induction mcp_tools as [|t rest IH]; simpl; intros Hd acc.
  - exists []. now rewrite app_nil_r.
  - apply andb_true_iff in Hd as [Ht Hrest].
    unfold is_descriptor in Ht.
    destruct (has_key_lookup _ _ Ht) as [name Hname].
    unfold getitem. rewrite Hname. simpl.
    destruct (IH Hrest (acc ++
      [[("name", name);
        ("description", get t "description" (VStr ""));
        ("input_schema", get t "inputSchema" ClaudeClient.default_input_schema)]])%list)
      as (out & Heq & Hall).
    eexists (_ :: out). rewrite Heq, <- app_assoc. split; [reflexivity|].
    constructor; [| exact Hall].
    repeat split; simpl; auto.
Qed.

(** ** [extract_tool_calls] *)

Lemma extract_loop_spec (blocks : list pydict) :
  forallb wf_block blocks = true ->
  forall tool_calls, exists out,
    ClaudeClient.extract_loop (map VDict blocks) tool_calls
      = ok (tool_calls ++ out)%list /\
    Forall2 call_of (filter is_tool_use blocks) out.
Proof.
  induction blocks as [|b rest IH]; simpl; intros Hwf acc.
  - exists []. now rewrite app_nil_r.
  - apply andb_true_iff in Hwf as [Hb Hrest].
    unfold wf_block in Hb. apply andb_true_iff in Hb as [Hty Hfields].
    rewrite (getitem_has_key _ _ Hty). simpl.
    fold (is_tool_use b). destruct (is_tool_use b) eqn:Htu.
    + apply andb_true_iff in Hfields as [Hfields Hinput].
      apply andb_true_iff in Hfields as [Hid Hname].
      rewrite (getitem_has_key _ _ Hid), (getitem_has_key _ _ Hname),
        (getitem_has_key _ _ Hinput). simpl.
      destruct (IH Hrest (acc ++
        [[("id", get b "id" VNone); ("name", get b "name" VNone);
          ("input", get b "input" VNone)]])%list) as (out & Heq & Hall).
      eexists (_ :: out). rewrite Heq, <- app_assoc. split; [reflexivity|].
      constructor; [| exact Hall].
      apply has_key_lookup in Hid as [? Hid], Hname as [? Hname], Hinput as [? Hinput].
      unfold call_of, get. rewrite Hid, Hname, Hinput. simpl. auto.
    + apply (IH Hrest acc).
Qed.

(** Whatever the blocks are, the calls that come out have their three keys. *)
Lemma extract_loop_calls (blocks : list value) :
  forall tool_calls out,
    ClaudeClient.extract_loop blocks tool_calls = inr out ->
    forallb is_call tool_calls = true ->
    forallb is_call out = true.
Proof.
  induction blocks as [|b rest IH]; simpl; intros acc out Heq Hacc.
  - now injection Heq as <-.
  - destruct (subscript b "type") as [e|ty]; simpl in Heq; [discriminate|].
    destruct (eq_str ty "tool_use").
    + destruct (subscript b "id") as [e|id]; simpl in Heq; [discriminate|].
      destruct (subscript b "name") as [e|name]; simpl in Heq; [discriminate|].
      destruct (subscript b "input") as [e|input]; simpl in Heq; [discriminate|].
      apply (IH _ _ Heq). rewrite forallb_app, Hacc. reflexivity.
    + apply (IH _ _ Heq Hacc).
Qed.

(** Blocks without a [tool_use] among them add no call. *)
Lemma extract_loop_no_tool_use (blocks : list pydict) :
  filter is_tool_use blocks = [] ->
  forall tool_calls out,
    ClaudeClient.extract_loop (map VDict blocks) tool_calls = inr out ->
    out = tool_calls.
Proof.
  induction blocks as [|b rest IH]; simpl; intros Hnone acc out Heq.
  - now injection Heq as <-.
  - destruct (is_tool_use b) eqn:Htu; [discriminate|].
    unfold getitem in Heq. unfold is_tool_use, get in Htu.
    destruct (lookup "type" b) as [ty|]; simpl in Heq; [|discriminate].
    rewrite Htu in Heq. apply (IH Hnone _ _ Heq).
Qed.

Lemma response_dict_content (response : ApiResponse) :
  getitem (response_dict response) "content"
    = ok (VList (map VDict (resp_content response))).
Proof. reflexivity. Qed.

Lemma extract_response_calls (response : ApiResponse) (calls : list pydict) :
  ClaudeClient.extract_tool_calls (response_dict response) = inr calls ->
  forallb is_call calls = true.
Proof.
  unfold ClaudeClient.extract_tool_calls. rewrite response_dict_content. simpl.
  intros H. now apply (extract_loop_calls _ _ H).
Qed.

Lemma extract_response_no_tool_use (response : ApiResponse) (calls : list pydict) :
  filter is_tool_use (resp_content response) = [] ->
  ClaudeClient.extract_tool_calls (response_dict response) = inr calls ->
  calls = [].
Proof.
  unfold ClaudeClient.extract_tool_calls. rewrite response_dict_content. simpl.
  intros Hnone H. now apply (extract_loop_no_tool_use _ Hnone _ H).
Qed.

(** ** [format_tool_result_for_claude] *)

Lemma format_loop_spec (items : list value) :
  forallb wf_item items = true ->
  forall content_text,
    ClaudeClient.format_loop items content_text
      = ok (content_text
            ++ String.concat "" (map item_text (filter item_is_text items))).
Proof.
  induction items as [|item rest IH]; intros Hwf acc.
  - simpl. now rewrite append_nil_r.
  - cbn [forallb] in Hwf. apply andb_true_iff in Hwf as [Hitem Hrest].
    destruct item as [| | | |l|d]; try discriminate.
    cbn [ClaudeClient.format_loop get_attr rbind ok filter item_is_text].
    fold (is_text d). unfold wf_item in Hitem.
    destruct (is_text d) eqn:Htext.
    + cbn [map item_text]. rewrite concat_cons, <- append_assoc.
      unfold get, block_text.
      destruct (lookup "text" d) as [[| | |s| |]|]; try discriminate;
        cbn [rbind str_iadd ok].
      * apply (IH Hrest).
      * rewrite (append_nil_r acc). apply (IH Hrest).
    + apply (IH Hrest).
Qed.

Lemma dumps_dict_not_empty (d : pydict) : Json.dumps (VDict d) <> "".
Proof. simpl. discriminate. Qed.

Lemma format_wf (tool_call_id : value) (tool_result : pydict) :
  wf_result tool_result = true ->
  ClaudeClient.format_tool_result_for_claude tool_call_id tool_result
  = ok [("type", VStr "tool_result");
        ("tool_use_id", tool_call_id);
        ("content",
         VStr (if String.eqb (result_text tool_result) ""
               then Json.dumps (VDict tool_result)
               else result_text tool_result))].
Proof.
  unfold wf_result, ClaudeClient.format_tool_result_for_claude, result_text,
    result_items, has_key, get.
  destruct (lookup "content" tool_result) as [[| | | |items|]|]; try discriminate.
  intros Hwf. destruct items as [|item items]; [reflexivity|].
  cbn [truthy andb iter rbind ok].
  rewrite (format_loop_spec _ Hwf ""). reflexivity.
Qed.

Lemma tool_result_for_wf (call mcp_result : pydict) :
  wf_result mcp_result = true ->
  exists block,
    tool_result_for call (inr mcp_result) = Some block /\
    ClaudeClient.format_tool_result_for_claude (get call "id" VNone) mcp_result
      = ok block.
Proof.
  intros Hwf. unfold tool_result_for. rewrite (format_wf _ _ Hwf).
  eexists. split; reflexivity.
Qed.

(** ** [json.dumps] loses nothing *)

Lemma value_nested_ind (P : value -> Prop) :
  P VNone ->
  (forall b, P (VBool b)) ->
  (forall z, P (VInt z)) ->
  (forall s, P (VStr s)) ->
  (forall l, Forall P l -> P (VList l)) ->
  (forall d, Forall (fun kv => P (snd kv)) d -> P (VDict d)) ->
  forall v, P v.
Proof.
  intros HN HB HI HS HL HD. fix IH 1.
  intros [|b|z|s|l|d]; [exact HN | apply HB | apply HI | apply HS | |].
  - apply HL. induction l as [|x l IHl]; constructor; [apply IH | exact IHl].
  - apply HD. induction d as [|[k x] d IHd]; constructor; [apply IH | exact IHd].
Qed.

Lemma unescape_escape_char (c : ascii) (rest : string) :
  unescape_char (Json.escape_char c ++ rest) = Some (c, rest).
Proof.
  destruct c as [[|] [|] [|] [|] [|] [|] [|] [|]]; reflexivity.
Qed.

Lemma unescape_quote (rest : string) :
  unescape_char (Json.dquote ++ rest) = None.
Proof. reflexivity. Qed.

(** An escaped string followed by the closing quote is read back in one
    way only. *)
Lemma escape_unambiguous (s1 : string) :
  forall s2 rest1 rest2,
    Json.escape s1 ++ Json.dquote ++ rest1 = Json.escape s2 ++ Json.dquote ++ rest2 ->
    s1 = s2 /\ rest1 = rest2.
Proof.
  induction s1 as [|c1 s1 IH]; intros [|c2 s2] rest1 rest2 H; cbn [Json.escape] in H.
  - simpl in H. injection H as ->. auto.
  - apply (f_equal unescape_char) in H.
    rewrite append_assoc, unescape_escape_char in H.
    change ("" ++ Json.dquote ++ rest1) with (Json.dquote ++ rest1) in H.
    rewrite unescape_quote in H. discriminate.
  - apply (f_equal unescape_char) in H.
    rewrite append_assoc, unescape_escape_char in H.
    change ("" ++ Json.dquote ++ rest2) with (Json.dquote ++ rest2) in H.
    rewrite unescape_quote in H. discriminate.
  - apply (f_equal unescape_char) in H.
    rewrite !append_assoc, !unescape_escape_char in H.
    injection H as -> H. apply IH in H as [-> ->]. auto.
Qed.

Lemma quote_unambiguous (s1 s2 rest1 rest2 : string) :
  Json.quote s1 ++ rest1 = Json.quote s2 ++ rest2 ->
  s1 = s2 /\ rest1 = rest2.
Proof.
  unfold Json.quote. rewrite !append_assoc.
  change (Json.dquote ++ ?x) with (String (ascii_of_nat 34) x).
  intros H. injection H as H. now apply escape_unambiguous in H.
Qed.

Lemma int_char_not_closes (c : ascii) (rest : string) :
  int_char c = true -> closes (String c rest) = false.
Proof.
  destruct c as [[|] [|] [|] [|] [|] [|] [|] [|]]; cbv; congruence.
Qed.

Lemma int_chars_unambiguous (a : string) :
  forall b rest1 rest2,
    all_int_chars a = true -> all_int_chars b = true ->
    closes rest1 = true -> closes rest2 = true ->
    a ++ rest1 = b ++ rest2 ->
    a = b /\ rest1 = rest2.
Proof.
  induction a as [|c a IH]; intros [|c' b] rest1 rest2 Ha Hb H1 H2 H;
    cbn [append all_int_chars] in *.
  - auto.
  - apply andb_prop in Hb as [Hc _]. subst rest1.
    rewrite int_char_not_closes in H1 by assumption. discriminate.
  - apply andb_prop in Ha as [Hc _]. subst rest2.
    rewrite int_char_not_closes in H2 by assumption. discriminate.
  - apply andb_prop in Ha as [_ Ha]. apply andb_prop in Hb as [_ Hb].
    injection H as -> H. apply IH in H as [-> ->]; auto.
Qed.

Lemma uint_int_chars (d : Decimal.uint) :
  all_int_chars (NilEmpty.string_of_uint d) = true.
Proof. induction d; simpl; auto. Qed.

Lemma dumps_int_chars (z : Z) : all_int_chars (Json.dumps_int z) = true.
Proof.
  unfold Json.dumps_int.
  destruct (Z.to_int z) as [d|d]; cbn [NilZero.string_of_int all_int_chars];
    destruct d; try reflexivity; apply uint_int_chars.
Qed.

Lemma dumps_int_head (z : Z) :
  exists h t, Json.dumps_int z = String h t /\ int_char h = true.
Proof.
  pose proof (dumps_int_chars z) as Hall.
  destruct (Json.dumps_int z) as [|h t] eqn:Hz.
  - exfalso. unfold Json.dumps_int in Hz.
    destruct (Z.to_int z) as [d|d]; [destruct d|]; discriminate.
  - exists h, t. split; [reflexivity|].
    cbn [all_int_chars] in Hall. now apply andb_prop in Hall as [Hh _].
Qed.

Lemma to_int_not_nil (z : Z) :
  Z.to_int z <> Decimal.Pos Decimal.Nil /\ Z.to_int z <> Decimal.Neg Decimal.Nil.
Proof.
  destruct z as [|p|p]; cbn [Z.to_int]; split; try discriminate;
    intros [= H]; exact (DecimalPos.Unsigned.to_uint_nonnil _ H).
Qed.

Lemma dumps_int_inj (z1 z2 : Z) :
  Json.dumps_int z1 = Json.dumps_int z2 -> z1 = z2.
Proof.
  unfold Json.dumps_int. intros H.
  apply (f_equal NilZero.int_of_string) in H.
  destruct (to_int_not_nil z1) as [Hp1 Hn1], (to_int_not_nil z2) as [Hp2 Hn2].
  rewrite !NilZero.isi in H by assumption.
  injection H as H. now apply DecimalZ.to_int_inj.
Qed.

Lemma dumps_not_closes (v : value) (rest : string) :
  closes (Json.dumps v ++ rest) = false.
Proof.
  destruct v as [|[|]|z|s|l|d]; try reflexivity.
  cbn [Json.dumps]. destruct (dumps_int_head z) as (h & t & -> & Hh).
  now apply int_char_not_closes.
Qed.

Lemma entry_not_closes (kv : string * value) (rest : string) :
  closes (dumps_entry kv ++ rest) = false.
Proof. reflexivity. Qed.

Lemma join_cons (sep p : string) (ps : list string) :
  Json.join sep (p :: ps)
  = p ++ match ps with
         | [] => ""
         | _ :: _ => sep ++ Json.join sep ps
         end.
Proof. destruct ps; [now rewrite append_nil_r | reflexivity]. Qed.

(** The items of a list or dict, joined and followed by the closing
    bracket, are read back in one way only when each item is. *)
Lemma join_unambiguous (A : Type) (pr : A -> string) (close : ascii) (l1 : list A) :
  (Ascii.eqb close "]" || Ascii.eqb close "}")%bool = true ->
  (forall b rest, closes (pr b ++ rest) = false) ->
  Forall (self_delimiting pr) l1 ->
  forall l2 rest1 rest2,
    Json.join ", " (map pr l1) ++ String close rest1
    = Json.join ", " (map pr l2) ++ String close rest2 ->
    l1 = l2 /\ rest1 = rest2.
Proof.
  intros Hclose Hhead Hall.
  assert (Hc : forall rest, closes (String close rest) = true).
  { intros rest. cbn [closes]. apply orb_prop in Hclose as [-> | ->];
      [now rewrite orb_true_r | now rewrite !orb_true_r]. }
  assert (Hcomma : close <> ","%char).
  { intros ->. discriminate. }
  induction Hall as [|a l1 Ha Hall IH]; intros [|b l2] rest1 rest2 H.
  - simpl in H. injection H as ->. auto.
  - exfalso.
    assert (Habs : closes (Json.join ", " (map pr []) ++ String close rest1) = true)
      by apply Hc.
    rewrite H in Habs. cbn [map] in Habs.
    rewrite join_cons, append_assoc, Hhead in Habs. discriminate.
  - exfalso.
    assert (Habs : closes (Json.join ", " (map pr []) ++ String close rest2) = true)
      by apply Hc.
    rewrite <- H in Habs. cbn [map] in Habs.
    rewrite join_cons, append_assoc, Hhead in Habs. discriminate.
  - cbn [map] in H. rewrite !join_cons, !append_assoc in H.
    apply Ha in H as [<- H].
    + destruct l1 as [|x l1], l2 as [|y l2]; cbn [map append] in H.
      * injection H as ->. auto.
      * injection H as H _. contradiction.
      * injection H as H _. symmetry in H. contradiction.
      * injection H as H.
        destruct (IH (y :: l2) rest1 rest2 H) as [-> ->]. auto.
    + destruct (map pr l1); [apply Hc | reflexivity].
    + destruct (map pr l2); [apply Hc | reflexivity].
Qed.

Lemma dumps_self_delimiting : forall v : value, self_delimiting Json.dumps v.
Proof.
  induction v as [|b|z|s|l IH|d IH] using value_nested_ind;
    intros v2 rest1 rest2 H1 H2 H.
  - destruct v2 as [|[|]|z2|s2|l2|d2]; try discriminate.
    + simpl in H. injection H as ->. auto.
    + exfalso. cbn [Json.dumps] in H.
      destruct (dumps_int_head z2) as (h & t & Hz & Hh). rewrite Hz in H.
      injection H as <- _. discriminate.
  - destruct b, v2 as [|[|]|z2|s2|l2|d2]; try discriminate;
      try (simpl in H; injection H as ->; now auto);
      exfalso; cbn [Json.dumps] in H;
      destruct (dumps_int_head z2) as (h & t & Hz & Hh); rewrite Hz in H;
      injection H as <- _; discriminate.
  - destruct (dumps_int_head z) as (h & t & Hz & Hh).
    destruct v2 as [|[|]|z2|s2|l2|d2]; cbn [Json.dumps] in H;
      try (exfalso; rewrite Hz in H; injection H as -> _; discriminate).
    apply int_chars_unambiguous in H as [Heq ->]; auto using dumps_int_chars.
    apply dumps_int_inj in Heq as ->. auto.
  - destruct v2 as [|[|]|z2|s2|l2|d2]; try discriminate.
    + exfalso. cbn [Json.dumps] in H.
      destruct (dumps_int_head z2) as (h & t & Hz & Hh). rewrite Hz in H.
      injection H as <- _. discriminate.
    + cbn [Json.dumps] in H. apply quote_unambiguous in H as [-> ->]. auto.
  - destruct v2 as [|[|]|z2|s2|l2|d2]; try discriminate.
    + exfalso. cbn [Json.dumps] in H.
      destruct (dumps_int_head z2) as (h & t & Hz & Hh). rewrite Hz in H.
      injection H as <- _. discriminate.
    + cbn [Json.dumps] in H. rewrite !append_assoc in H. injection H as H.
      cbn [append] in H.
      apply (@join_unambiguous _ Json.dumps "]"%char) in H as [-> ->];
        auto using dumps_not_closes.
  - destruct v2 as [|[|]|z2|s2|l2|d2]; try discriminate.
    + exfalso. cbn [Json.dumps] in H.
      destruct (dumps_int_head z2) as (h & t & Hz & Hh). rewrite Hz in H.
      injection H as <- _. discriminate.
    + cbn [Json.dumps] in H. rewrite !append_assoc in H. injection H as H.
      cbn [append] in H.
      apply (@join_unambiguous _ dumps_entry "}"%char) in H as [-> ->];
        auto using entry_not_closes.
      clear H H1 H2.
      induction IH as [|[k x] d Hx _ IHd]; [constructor|].
      constructor; [|exact IHd].
      intros [k' x'] r1 r2 Hr1 Hr2 He. unfold dumps_entry in He.
      cbn [fst snd] in *. rewrite !append_assoc in He.
      apply quote_unambiguous in He as [-> He]. injection He as He.
      apply Hx in He as [-> ->]; auto.
Qed.

(** Two values with the same serialization are the same value. *)
Lemma dumps_inj (v1 v2 : value) : Json.dumps v1 = Json.dumps v2 -> v1 = v2.
Proof.
  intros H.
  destruct (@dumps_self_delimiting v1 v2 "" "" eq_refl eq_refl) as [Hv _];
    [now rewrite !append_nil_r | exact Hv].
Qed.

(** ** Reading traces *)

Lemma model_requests_app (tr1 tr2 : list event) :
  model_requests (tr1 ++ tr2) = (model_requests tr1 ++ model_requests tr2)%list.
Proof.
  induction tr1 as [|[] tr1 IH]; simpl; try rewrite IH; reflexivity.
Qed.

Lemma invocations_app (tr1 tr2 : list event) :
  invocations (tr1 ++ tr2) = (invocations tr1 ++ invocations tr2)%list.
Proof.
  induction tr1 as [|[] tr1 IH]; simpl; try rewrite IH; reflexivity.
Qed.

Lemma printed_app (tr1 tr2 : list event) :
  printed (tr1 ++ tr2) = (printed tr1 ++ printed tr2)%list.
Proof.
  induction tr1 as [|[] tr1 IH]; simpl; try rewrite IH; reflexivity.
Qed.

Lemma acquisitions_app (c : ctx) (tr1 tr2 : list event) :
  acquisitions c (tr1 ++ tr2) = (acquisitions c tr1 + acquisitions c tr2)%nat.
Proof.
  induction tr1 as [|e tr1 IH]; simpl; [reflexivity|].
  destruct e as [c' [|]| | | | | |]; simpl; rewrite ?IH; lia.
Qed.

Lemma releases_app (c : ctx) (tr1 tr2 : list event) :
  releases c (tr1 ++ tr2) = (releases c tr1 + releases c tr2)%nat.
Proof.
  induction tr1 as [|[] tr1 IH]; simpl; try rewrite IH; lia.
Qed.

(** Events of one kind show nothing to the readers of the other kinds. *)
Ltac silent_events :=
  let evs := fresh "evs" in
  let e := fresh "e" in
  let IH := fresh "IH" in
  intros evs; induction evs as [|e evs IH]; simpl; intros H;
  [ repeat split; reflexivity
  | destruct e; simpl in H; try discriminate; auto ].

Lemma setup_silent :
  forall evs, forallb is_setup evs = true ->
    model_requests evs = [] /\ invocations evs = [] /\ printed evs = [] /\
    forall c, releases c evs = 0%nat.
Proof. silent_events. Qed.

Lemma invocation_silent :
  forall evs, forallb is_invocation evs = true ->
    model_requests evs = [] /\ printed evs = [] /\
    forall c, releases c evs = 0%nat /\ acquisitions c evs = 0%nat.
Proof. silent_events. Qed.

Lemma print_silent :
  forall evs, forallb is_print evs = true ->
    model_requests evs = [] /\ invocations evs = [] /\
    forall c, releases c evs = 0%nat /\ acquisitions c evs = 0%nat.
Proof. silent_events. Qed.

Lemma exit_silent :
  forall evs, forallb is_exit evs = true ->
    model_requests evs = [] /\ invocations evs = [] /\ printed evs = [] /\
    forall c, acquisitions c evs = 0%nat.
Proof. silent_events. Qed.

Lemma no_ctx_event_silent :
  forall evs, forallb no_ctx_event evs = true ->
    forall c, releases c evs = 0%nat /\ acquisitions c evs = 0%nat.
Proof. silent_events. Qed.

Lemma invocations_invoked (l : list (value * value * result pydict)) :
  invocations (map invocation_event l) = l.
Proof.
  induction l as [|[[n a] o] l IH]; simpl; [reflexivity | now rewrite IH].
Qed.

Lemma invoked_events_are_invocations (l : list (value * value * result pydict)) :
  forallb is_invocation (map invocation_event l) = true.
Proof.
  induction l as [|[[n a] o] l IH]; simpl; [reflexivity | exact IH].
Qed.

Lemma printed_prints (lines : list out_line) :
  printed (map EvPrint lines) = lines.
Proof.
  induction lines as [|l lines IH]; simpl; [reflexivity | now rewrite IH].
Qed.

Lemma prints_are_prints (lines : list out_line) :
  forallb is_print (map EvPrint lines) = true.
Proof. induction lines; simpl; auto. Qed.

Lemma invoked_nil (calls : list pydict) : invoked calls [] = [].
Proof. destruct calls; reflexivity. Qed.

Lemma invoked_cons call calls outcome outcomes :
  invoked (call :: calls) (outcome :: outcomes)
  = invocation_of call outcome :: invoked calls outcomes.
Proof. reflexivity. Qed.

(** ** Steps of the host *)

Section HostFacts.

Variable w : World.

Lemma bind_external {A B} (answer : list event -> result A)
    (record : result A -> event) (k : A -> M B) (st : state) :
  bind (external answer record) k st
  = match answer (trace st) with
    | inl e => (inl e, log (record (inl e)) st)
    | inr a => k a (log (record (inr a)) st)
    end.
Proof.
  unfold external, bind, ask, lift. simpl.
  destruct (answer (trace st)); reflexivity.
Qed.

Lemma bind_lift {A B} (r : result A) (k : A -> M B) (st : state) :
  bind (lift r) k st
  = match r with
    | inl e => (inl e, st)
    | inr a => k a st
    end.
Proof. unfold bind, lift. destruct r; reflexivity. Qed.

Lemma call_tool_step {B} (name arguments : value) (k : pydict -> M B) (st : state) :
  session st = true ->
  bind (call_tool w name arguments) k st
  = match sdk_call_tool w (trace st) name arguments with
    | inl e => (inl e, log (EvCallTool name arguments (inl e)) st)
    | inr mcp_result =>
        k mcp_result (log (EvCallTool name arguments (inr mcp_result)) st)
    end.
Proof.
  intros Hs. unfold call_tool, bind, get_state, external, ask, lift, ret. simpl.
  rewrite Hs. simpl.
  destruct (sdk_call_tool w (trace st) name arguments); reflexivity.
Qed.

(** Phase 4 from a connected client: the calls are invoked in order, each
    after the one before it was formatted, and nothing else happens. *)
Lemma execute_loop_spec (tool_calls : list pydict) :
  forallb is_call tool_calls = true ->
  forall (tool_results : list pydict) (st : state) r st',
    session st = true ->
    execute_loop w tool_calls tool_results st = (r, st') ->
    exists outcomes blocks,
      executed tool_calls outcomes blocks /\
      trace st'
        = (trace st ++ map invocation_event (invoked tool_calls outcomes))%list /\
      session st' = true /\
      exit_stack st' = exit_stack st /\
      match r with
      | inr results =>
          results = (tool_results ++ blocks)%list /\
          List.length blocks = List.length tool_calls
      | inl _ => (List.length blocks < List.length outcomes)%nat
      end.
Proof.
  induction tool_calls as [|call rest IH]; intros Hcalls acc st r st' Hs Hrun.
  - injection Hrun as <- <-.
    exists [], []. simpl. rewrite !app_nil_r. repeat split; auto. constructor.
  - cbn [forallb] in Hcalls. apply andb_true_iff in Hcalls as [Hcall Hrest].
    unfold is_call in Hcall.
    apply andb_true_iff in Hcall as [Hcall Hinput].
    apply andb_true_iff in Hcall as [Hid Hname].
    cbn [execute_loop] in Hrun.
    rewrite bind_lift, (getitem_has_key _ _ Hname) in Hrun.
    unfold ok in Hrun; cbn beta iota in Hrun.
    rewrite bind_lift, (getitem_has_key _ _ Hinput) in Hrun.
    unfold ok in Hrun; cbn beta iota in Hrun.
    rewrite (call_tool_step _ _ _ _ Hs) in Hrun.
    destruct (sdk_call_tool w (trace st) (get call "name" VNone) (get call "input" VNone))
      as [e|mcp_result] eqn:Hcalltool.
    + injection Hrun as <- <-.
      exists [inl e], []. rewrite invoked_cons, invoked_nil.
      simpl. repeat split; auto.
      constructor. reflexivity.
    + rewrite bind_lift, (getitem_has_key _ _ Hid) in Hrun.
      unfold ok in Hrun; cbn beta iota in Hrun.
      rewrite bind_lift in Hrun.
      destruct (ClaudeClient.format_tool_result_for_claude
                  (get call "id" VNone) mcp_result) as [e|block] eqn:Hfmt.
      * injection Hrun as <- <-.
        exists [inr mcp_result], []. rewrite invoked_cons, invoked_nil.
        simpl. repeat split; auto.
        constructor. unfold tool_result_for. now rewrite Hfmt.
      * cbn beta iota in Hrun.
        apply (IH Hrest) in Hrun; [|exact Hs].
        destruct Hrun as (outcomes & blocks & Hex & Htr & Hs' & Hstack & Hres).
        exists (inr mcp_result :: outcomes), (block :: blocks).
        split; [|split; [|split; [|split]]].
        -- constructor; [|exact Hex]. unfold tool_result_for. now rewrite Hfmt.
        -- rewrite Htr. simpl. rewrite <- app_assoc. reflexivity.
        -- exact Hs'.
        -- exact Hstack.
        -- destruct r as [e|results].
           ++ simpl. lia.
           ++ destruct Hres as [-> Hlen]. rewrite <- app_assoc. simpl.
              split; [reflexivity | lia].
Qed.

(** *** Inversion of the monad's steps *)

Lemma bind_inv {A B} (m : M A) (k : A -> M B) (st : state) r st' :
  bind m k st = (r, st') ->
  (exists e, m st = (inl e, st') /\ r = inl e) \/
  (exists a st1, m st = (inr a, st1) /\ k a st1 = (r, st')).
Proof.
  unfold bind. destruct (m st) as [[e|a] st1]; intros H.
  - left. injection H as <- <-. eauto.
  - right. eauto.
Qed.

Lemma lift_inv {A} (x : result A) (st : state) r st' :
  lift x st = (r, st') -> r = x /\ st' = st.
Proof. unfold lift. intros [= <- <-]. auto. Qed.

Lemma external_inv {A} (answer : list event -> result A)
    (record : result A -> event) (st : state) r st' :
  external answer record st = (r, st') ->
  r = answer (trace st) /\ st' = log (record (answer (trace st))) st.
Proof.
  unfold external, bind, ask, lift. simpl.
  destruct (answer (trace st)); intros [= <- <-]; auto.
Qed.

Lemma print_inv (l : out_line) (st : state) r st' :
  print l st = (r, st') -> r = ok tt /\ st' = log (EvPrint l) st.
Proof. unfold print, emit. intros [= <- <-]. auto. Qed.

Lemma list_tools_inv (st : state) r st' :
  session st = true ->
  list_tools w st = (r, st') ->
  r = sdk_list_tools w (trace st) /\ st' = log (EvListTools r) st.
Proof.
  intros Hs. unfold list_tools, bind, get_state, external, ask, lift, ret. simpl.
  rewrite Hs. simpl.
  destruct (sdk_list_tools w (trace st)); intros [= <- <-]; auto.
Qed.

Lemma call_claude_inv (messages : list pydict) (tools : option (list pydict))
    (max_tokens : Z) (st : state) r st' :
  call_claude w messages tools max_tokens st = (r, st') ->
  exists o,
    st' = log (EvCreate (ClaudeClient.request_kwargs messages tools max_tokens) o) st /\
    r = match o with
        | inl e => inl e
        | inr response => ok (response_dict response)
        end.
Proof.
  unfold call_claude, bind, external, ask, lift, ret. simpl.
  destruct (messages_create w (trace st) _) as [e|response] eqn:Ho;
    intros [= <- <-]; eexists; split; try reflexivity; reflexivity.
Qed.

(** [connect]: phase 1.  What is on the exit stack afterwards is what was
    entered with success, each context at most once. *)
Lemma connect_spec (p : string) (st : state) r st' :
  connect w p st = (r, st') ->
  exists evs entered,
    trace st' = (trace st ++ evs)%list /\
    forallb is_setup evs = true /\
    exit_stack st' = (entered ++ exit_stack st)%list /\
    (forall c, acquisitions c evs = held c entered /\ (held c entered <= 1)%nat) /\
    (forall a, r = inr a -> session st' = true).
Proof.
  unfold connect, enter_async_context, bind, external, ask, lift, ret,
    get_state, set_exit_stack, set_session. simpl.
  destruct (enter_ctx w (trace st) StdioTransport) as [e|[]] eqn:H1; simpl.
  { intros [= <- <-]. exists [EvEnter StdioTransport (inl e)], []. simpl.
    repeat split; auto; discriminate. }
  destruct (enter_ctx w _ SessionCtx) as [e|[]] eqn:H2; simpl.
  { intros [= <- <-].
    exists [EvEnter StdioTransport (inr tt); EvEnter SessionCtx (inl e)],
      [StdioTransport]. simpl. rewrite <- app_assoc.
    repeat split; auto; try discriminate; destruct c; simpl; auto. }
  destruct (sdk_initialize w _) as [e|init] eqn:H3; simpl; intros [= <- <-].
  - exists [EvEnter StdioTransport (inr tt); EvEnter SessionCtx (inr tt);
            EvInitialize (inl e)], [SessionCtx; StdioTransport].
    simpl. rewrite <- !app_assoc.
    repeat split; auto; try discriminate; destruct c; simpl; auto.
  - exists [EvEnter StdioTransport (inr tt); EvEnter SessionCtx (inr tt);
            EvInitialize (inr init)], [SessionCtx; StdioTransport].
    simpl. rewrite <- !app_assoc.
    repeat split; auto; destruct c; simpl; auto.
Qed.

(** The printing loop of the branch without tools. *)
Lemma report_loop_spec (blocks : list value) :
  forall st r st',
    report_loop blocks st = (r, st') ->
    exists lines,
      trace st' = (trace st ++ map EvPrint lines)%list /\
      session st' = session st /\ exit_stack st' = exit_stack st.
Proof.
  induction blocks as [|block rest IH]; intros st r st' Hrun.
  - injection Hrun as <- <-. exists []. simpl. now rewrite app_nil_r.
  - cbn [report_loop] in Hrun.
    apply bind_inv in Hrun as [(e & Hm & ->) | (ty & st1 & Hm & Hk)];
      apply lift_inv in Hm as [Hty ->].
    { exists []. simpl. now rewrite app_nil_r. }
    apply bind_inv in Hk as [(e & Hm & ->) | ([] & st2 & Hm & Hk)].
    + destruct (eq_str ty "text").
      * apply bind_inv in Hm as [(e' & Hm & He) | (text & st2 & Hm & Hp)];
          apply lift_inv in Hm as [Htext ->].
        -- exists []. simpl. now rewrite app_nil_r.
        -- apply print_inv in Hp as [Hr ->]. discriminate.
      * discriminate.
    + destruct (eq_str ty "text").
      * apply bind_inv in Hm as [(e' & Hm & He) | (text & st3 & Hm & Hp)];
          apply lift_inv in Hm as [Htext ->]; [discriminate|].
        apply print_inv in Hp as [_ ->].
        apply IH in Hk as (lines & Htr & Hs & Hstack).
        exists (OutClaudeText text :: lines). simpl in *.
        rewrite Htr, <- app_assoc. auto.
      * injection Hm as <-. apply IH in Hk. exact Hk.
Qed.

Lemma report_loop_wf (blocks : list pydict) :
  forallb wf_text_block blocks = true ->
  forall st r st',
    report_loop (map VDict blocks) st = (r, st') ->
    r = ok tt /\
    trace st'
    = (trace st
       ++ map EvPrint (map (fun s => OutClaudeText (VStr s)) (text_blocks blocks)))%list.
Proof.
  induction blocks as [|block rest IH]; intros Hwf st r st' Hrun.
  - injection Hrun as <- <-. simpl. now rewrite app_nil_r.
  - cbn [forallb] in Hwf. apply andb_true_iff in Hwf as [Hblock Hrest].
    unfold wf_text_block in Hblock. apply andb_true_iff in Hblock as [Hty Htext].
    cbn [map report_loop subscript] in Hrun.
    rewrite bind_lift, (getitem_has_key _ _ Hty) in Hrun.
    unfold ok in Hrun; cbn beta iota in Hrun. fold (is_text block) in Hrun.
    unfold text_blocks. cbn [filter].
    destruct (is_text block) eqn:Hist.
    + unfold getitem in Hrun. cbn [map]. unfold block_text at 1.
      destruct (lookup "text" block) as [[| | |s| |]|]; try discriminate.
      unfold bind at 1 in Hrun. simpl in Hrun.
      apply (IH Hrest) in Hrun as [-> Htr]. split; [reflexivity|].
      rewrite Htr. simpl. rewrite <- app_assoc. reflexivity.
    + unfold bind at 1 in Hrun. simpl in Hrun.
      apply (IH Hrest) in Hrun. exact Hrun.
Qed.

End HostFacts.

(** ** Computations that leave the exit stack alone *)

Section Emits.

Variable w : World.
Variable P : event -> bool.

Lemma emits_ret {A} (a : A) : emits P (ret a).
Proof. intros st. exists []. simpl. rewrite app_nil_r. auto. Qed.

Lemma emits_throw {A} (e : exn) : emits P (@throw A e).
Proof. intros st. exists []. simpl. rewrite app_nil_r. auto. Qed.

Lemma emits_lift {A} (r : result A) : emits P (lift r).
Proof. intros st. exists []. simpl. rewrite app_nil_r. auto. Qed.

Lemma emits_bind {A B} (m : M A) (k : A -> M B) :
  emits P m -> (forall a, emits P (k a)) -> emits P (bind m k).
Proof.
  intros Hm Hk st. destruct (Hm st) as (evs1 & Htr1 & HP1 & Hs1 & Hx1).
  unfold bind. destruct (m st) as [[e|a] st1]; simpl in *.
  - exists evs1. auto.
  - destruct (Hk a st1) as (evs2 & Htr2 & HP2 & Hs2 & Hx2).
    exists (evs1 ++ evs2)%list.
    rewrite Htr2, Htr1, Hs2, Hx2, forallb_app, HP1, HP2, app_assoc. auto.
Qed.

Lemma emits_external {A} (answer : list event -> result A)
    (record : result A -> event) :
  (forall r, P (record r) = true) -> emits P (external answer record).
Proof.
  intros HP st. exists [record (answer (trace st))].
  unfold external, bind, ask, lift. simpl.
  destruct (answer (trace st)) eqn:Ha; simpl; rewrite HP; auto.
Qed.

Lemma emits_print (l : out_line) :
  P (EvPrint l) = true -> emits P (print l).
Proof. intros HP st. exists [EvPrint l]. simpl. rewrite HP. auto. Qed.

Lemma emits_get_state : emits P get_state.
Proof. intros st. exists []. simpl. rewrite app_nil_r. auto. Qed.

Lemma emits_list_tools :
  (forall r, P (EvListTools r) = true) -> emits P (list_tools w).
Proof.
  intros HP. unfold list_tools. apply emits_bind; [apply emits_get_state|].
  intros st. destruct (negb (session st)); [apply emits_throw|].
  apply emits_bind; [now apply emits_external | intros; apply emits_ret].
Qed.

Lemma emits_call_tool (name arguments : value) :
  (forall n a r, P (EvCallTool n a r) = true) ->
  emits P (call_tool w name arguments).
Proof.
  intros HP. unfold call_tool. apply emits_bind; [apply emits_get_state|].
  intros st. destruct (negb (session st)); [apply emits_throw|].
  apply emits_bind; [apply emits_external; intros; apply HP | intros; apply emits_ret].
Qed.

Lemma emits_call_claude messages tools max_tokens :
  (forall k r, P (EvCreate k r) = true) ->
  emits P (call_claude w messages tools max_tokens).
Proof.
  intros HP. unfold call_claude.
  apply emits_bind; [apply emits_external; intros; apply HP | intros; apply emits_ret].
Qed.

Lemma emits_execute_loop (tool_calls : list pydict) :
  (forall n a r, P (EvCallTool n a r) = true) ->
  forall tool_results, emits P (execute_loop w tool_calls tool_results).
Proof.
  intros HP. induction tool_calls as [|call rest IH]; intros acc; cbn [execute_loop].
  - apply emits_ret.
  - repeat (apply emits_bind; [first [apply emits_lift | now apply emits_call_tool]|]; intros).
    apply IH.
Qed.

Lemma emits_report_loop (blocks : list value) :
  (forall l, P (EvPrint l) = true) -> emits P (report_loop blocks).
Proof.
  intros HP. induction blocks as [|block rest IH]; cbn [report_loop].
  - apply emits_ret.
  - apply emits_bind; [apply emits_lift|]. intros ty.
    apply emits_bind; [|intros; apply IH].
    destruct (eq_str ty "text"); [|apply emits_ret].
    apply emits_bind; [apply emits_lift | intros; apply emits_print, HP].
Qed.

End Emits.

(** ** The [try] block and the run *)

Section RunFacts.

Variable w : World.

Lemma map_EvPrint_inj (l1 l2 : list out_line) :
  map EvPrint l1 = map EvPrint l2 -> l1 = l2.
Proof. intros H. apply (f_equal printed) in H. now rewrite !printed_prints in H. Qed.

(** Every way through the [try] block is one of the paths. *)
Lemma body_shape (q : string) (st : state) out st' :
  workflow_body w q st = (out, st') ->
  exists evs, trace st' = (trace st ++ evs)%list /\ body_path q out evs.
Proof.
  unfold workflow_body. intros H.
  apply bind_inv in H as [(e & Hc & ->) | (init & st1 & Hc & H)];
    apply connect_spec in Hc as (pre & entered & Htr & Hsetup & _ & _ & Hsess).
  { exists pre. split; [exact Htr | now constructor]. }
  specialize (Hsess _ eq_refl).
  apply bind_inv in H as [(e & Hl & ->) | (mcp_tools & st2 & Hl & H)];
    (apply list_tools_inv in Hl; [|exact Hsess]); destruct Hl as [Hr ->].
  { exists (pre ++ [EvListTools (inl e)])%list. simpl. rewrite Htr, app_assoc.
    split; [reflexivity|]. constructor. rewrite forallb_app, Hsetup. reflexivity. }
  remember (pre ++ [EvListTools (inr mcp_tools)])%list as pre2 eqn:Hpre2.
  assert (Htr2 : trace (log (EvListTools (inr mcp_tools)) st1) = (trace st ++ pre2)%list).
  { simpl. rewrite Htr, Hpre2, app_assoc. reflexivity. }
  assert (Hsetup2 : forallb is_setup pre2 = true).
  { rewrite Hpre2, forallb_app, Hsetup. reflexivity. }
  assert (Hsess2 : session (log (EvListTools (inr mcp_tools)) st1) = true) by exact Hsess.
  remember (log (EvListTools (inr mcp_tools)) st1) as st2 eqn:Hst2.
  clear Hst2 Hpre2 Htr Hsetup Hsess Hr st1 pre.
  apply bind_inv in H as [(e & Hl & ->) | (claude_tools & st3 & Hl & H)];
    apply lift_inv in Hl as [Hconv ->].
  { exists pre2. split; [exact Htr2 | now constructor]. }
  apply bind_inv in H as [(e & Hcc & ->) | (planning & st3 & Hcc & H)];
    apply call_claude_inv in Hcc as (o1 & -> & Ho).
  { destruct o1 as [e1|r1]; [|discriminate]. injection Ho as <-.
    eexists. split; [simpl; rewrite Htr2, <- app_assoc; reflexivity|].
    now apply path_plan_failed. }
  destruct o1 as [e1|r1]; [discriminate|]. injection Ho as ->.
  apply bind_inv in H as [(e & Hx & ->) | (tool_calls & st4 & Hx & H)];
    apply lift_inv in Hx as [Hext ->].
  { eexists. split; [simpl; rewrite Htr2, <- app_assoc; reflexivity|].
    now apply path_extract_failed. }
  symmetry in Hext. fold (plan_request q claude_tools) in H.
  set (st3 := log (EvCreate (plan_request q claude_tools) (inr r1)) st2) in *.
  assert (Htr3 : trace st3
                 = (trace st ++ pre2 ++ [EvCreate (plan_request q claude_tools) (inr r1)])%list).
  { simpl. rewrite Htr2, <- app_assoc. reflexivity. }
  assert (Hsess3 : session st3 = true) by exact Hsess2.
  clearbody st3. clear Htr2 Hsess2 st2.
  destruct tool_calls as [|call calls].
  - (* no tool selected *)
    apply bind_inv in H as [(e & Hp & ->) | ([] & st4 & Hp & H)];
      apply print_inv in Hp as [? ->]; [discriminate|].
    rewrite bind_lift, response_dict_content in H.
    unfold ok in H; cbn beta iota in H.
    rewrite bind_lift in H. cbn [iter ok] in H.
    apply bind_inv in H as [(e & Hrep & ->) | ([] & st5 & Hrep & H)].
    + pose proof Hrep as Hrep'.
      apply report_loop_spec in Hrep' as (lines & Htr5 & _ & _).
      exists (pre2 ++ [EvCreate (plan_request q claude_tools) (inr r1)]
                   ++ map EvPrint (OutNoTools :: lines))%list.
      split.
      { rewrite Htr5. simpl. rewrite Htr3, <- !app_assoc. reflexivity. }
      apply path_no_tools; auto.
      intros Hwf. apply report_loop_wf in Hrep as [Habs _]; [discriminate | exact Hwf].
    + pose proof Hrep as Hrep'.
      apply report_loop_spec in Hrep' as (lines & Htr5 & _ & _).
      apply bind_inv in H as [(e & Hp & ->) | ([] & st6 & Hp & H)];
        apply print_inv in Hp as [? ->]; [discriminate|].
      injection H as <- <-.
      exists (pre2 ++ [EvCreate (plan_request q claude_tools) (inr r1)]
                   ++ map EvPrint (OutNoTools :: lines ++ [OutNoExecution]))%list.
      split.
      { simpl. rewrite Htr5. simpl. rewrite Htr3, map_app, <- !app_assoc. reflexivity. }
      apply path_no_tools; auto.
      intros Hwf. apply report_loop_wf in Hrep as [_ Htr5']; [|exact Hwf].
      rewrite Htr5 in Htr5'. apply app_inv_head, map_EvPrint_inj in Htr5'.
      now rewrite Htr5'.
  - (* execution and synthesis *)
    pose proof (extract_response_calls _ Hext) as Hcalls.
    apply bind_inv in H as [(e & Hex & ->) | (tool_results & st4 & Hex & H)];
      (apply execute_loop_spec in Hex; [|exact Hcalls|exact Hsess3]);
      destruct Hex as (outcomes & blocks & Hexec & Htr4 & Hsess4 & _ & Hres).
    + eexists. split; [rewrite Htr4, Htr3, <- !app_assoc; reflexivity|].
      eapply path_execute_failed; eauto. discriminate.
    + destruct Hres as [-> Hlen]. cbn [app] in H.
      rewrite bind_lift, response_dict_content in H.
      unfold ok in H; cbn beta iota in H.
      apply bind_inv in H as [(e & Hcc & ->) | (synthesis & st5 & Hcc & H)];
        apply call_claude_inv in Hcc as (o2 & -> & Ho).
      * destruct o2 as [e2|r2]; [|discriminate]. injection Ho as <-.
        exists (pre2 ++ [EvCreate (plan_request q claude_tools) (inr r1)]
                 ++ map invocation_event (invoked (call :: calls) outcomes)
                 ++ [EvCreate (synthesis_request q claude_tools (resp_content r1) blocks)
                       (inl e)]
                 ++ map EvPrint [])%list.
        split.
        { simpl. rewrite Htr4, Htr3, <- !app_assoc. reflexivity. }
        eapply path_synthesis; eauto; [discriminate | simpl; auto].
      * destruct o2 as [e2|r2]; [discriminate|]. injection Ho as ->.
        rewrite bind_lift, response_dict_content in H.
        unfold ok in H; cbn beta iota in H.
        rewrite bind_lift in H. cbn [iter ok] in H.
        rewrite bind_lift in H.
        destruct (final_loop (map VDict (resp_content r2)) "") as [e|final_text] eqn:Hfin.
        -- injection H as <- <-.
           exists (pre2 ++ [EvCreate (plan_request q claude_tools) (inr r1)]
                 ++ map invocation_event (invoked (call :: calls) outcomes)
                 ++ [EvCreate (synthesis_request q claude_tools (resp_content r1) blocks)
                       (inr r2)]
                 ++ map EvPrint [])%list.
           split.
           { simpl. rewrite Htr4, Htr3, <- !app_assoc. reflexivity. }
           eapply path_synthesis; eauto; [discriminate | simpl; rewrite Hfin; auto].
        -- apply bind_inv in H as [(e & Hp & ->) | ([] & st6 & Hp & H)];
             apply print_inv in Hp as [? ->]; [discriminate|].
           injection H as <- <-.
           exists (pre2 ++ [EvCreate (plan_request q claude_tools) (inr r1)]
                 ++ map invocation_event (invoked (call :: calls) outcomes)
                 ++ [EvCreate (synthesis_request q claude_tools (resp_content r1) blocks)
                       (inr r2)]
                 ++ map EvPrint [OutFinal final_text])%list.
           split.
           { simpl. rewrite Htr4, Htr3, <- !app_assoc. reflexivity. }
           eapply path_synthesis; eauto; [discriminate | simpl; rewrite Hfin; auto].
Qed.

Ltac emits_step :=
  first
    [ apply emits_ret
    | apply emits_lift
    | apply emits_print; reflexivity
    | apply emits_list_tools; intros; reflexivity
    | apply emits_call_claude; intros; reflexivity
    | apply emits_execute_loop; intros; reflexivity
    | apply emits_report_loop; intros; reflexivity
    | apply emits_bind; [|intros] ].

(** The [try] block enters each context at most once, in [connect], keeps
    what it entered on the exit stack and exits nothing. *)
Lemma body_lifecycle (q : string) (st : state) out st' :
  workflow_body w q st = (out, st') ->
  exists evs entered,
    trace st' = (trace st ++ evs)%list /\
    exit_stack st' = (entered ++ exit_stack st)%list /\
    forall c, acquisitions c evs = held c entered /\
              (held c entered <= 1)%nat /\
              releases c evs = 0%nat.
Proof.
  unfold workflow_body. intros H.
  apply bind_inv in H as [(e & Hc & ->) | (init & st1 & Hc & H)];
    apply connect_spec in Hc as (pre & entered & Htr & Hsetup & Hstack & Hacq & _).
  { exists pre, entered. repeat split; try apply Hacq; auto.
    now apply setup_silent. }
  match type of H with
  | ?m st1 = _ => assert (Hem : emits no_ctx_event m)
  end.
  { repeat emits_step. destruct a2; repeat emits_step. }
  destruct (Hem st1) as (evs & Htr' & HP & _ & Hx).
  rewrite H in Htr', Hx. simpl in Htr', Hx.
  exists (pre ++ evs)%list, entered.
  rewrite Htr', Htr, Hx, Hstack, app_assoc.
  repeat split; auto.
  - rewrite acquisitions_app. destruct (no_ctx_event_silent _ HP c) as [_ ->].
    destruct (Hacq c) as [-> _]. lia.
  - apply Hacq.
  - rewrite releases_app. destruct (no_ctx_event_silent _ HP c) as [-> _].
    destruct (setup_silent _ Hsetup) as (_ & _ & _ & ->). reflexivity.
Qed.

(** [aclose]: every context on the stack is exited once, whatever the exits
    answer, and the stack is empty afterwards. *)
Lemma aclose_loop_spec (stack : list ctx) :
  forall pending st r st',
    aclose_loop w stack pending st = (r, st') ->
    exists exits,
      trace st' = (trace st ++ exits)%list /\
      forallb is_exit exits = true /\
      (forall c, releases c exits = held c stack) /\
      exit_stack st' = match stack with [] => exit_stack st | _ => [] end /\
      (r = ok tt \/
       exists e, r = inl e /\
                 (pending = Some e \/ exists c, In (EvExit c (inl e)) exits)).
Proof.
  induction stack as [|c rest IH]; intros pending st r st' H.
  - exists []. simpl in *. rewrite app_nil_r.
    destruct pending as [e|]; injection H as <- <-; repeat split; eauto.
  - cbn [aclose_loop] in H.
    unfold bind at 1, set_exit_stack in H. cbn beta iota in H.
    unfold bind at 1, ask in H. cbn beta iota zeta in H.
    set (o := exit_ctx w _ c) in H.
    set (st1 := log (EvExit c o) _) in H.
    assert (Hnext : exists pending',
               aclose_loop w rest pending' st1 = (r, st') /\
               (forall e, pending' = Some e -> pending = Some e \/ o = inl e)).
    { destruct o as [e|[|]]; eexists; (split; [exact H|]); intros e';
        try discriminate; auto. intros [= ->]. auto. }
    destruct Hnext as (pending' & Hrun & Hpend).
    apply IH in Hrun as (exits & Htr & Hex & Hrel & Hstack & Hr).
    exists (EvExit c o :: exits). simpl in Htr. rewrite <- app_assoc in Htr.
    split; [exact Htr|]. split; [exact Hex|]. split; [|split].
    + intros c'. simpl. rewrite Hrel. unfold held. simpl.
      destruct (ctx_eqb c' c); reflexivity.
    + rewrite Hstack. destruct rest; reflexivity.
    + destruct Hr as [-> | (e & -> & [Hp | (c' & Hin)])]; [now left | |];
        right; exists e; split; auto.
      * destruct (Hpend _ Hp) as [-> | Ho]; [now left|].
        right. exists c. left. now rewrite Ho.
      * right. exists c'. now right.
Qed.

(** A whole run: a path through the [try] block, then the exits of
    [cleanup], one for each context that was entered. *)
Lemma run_shape (q : string) out st :
  run w q = (out, st) ->
  exists body_out evs exits,
    trace st = (evs ++ exits)%list /\
    body_path q body_out evs /\
    forallb is_exit exits = true /\
    (out = body_out \/ exists e c, out = inl e /\ In (EvExit c (inl e)) exits) /\
    (forall c, releases c exits = acquisitions c evs /\
               (acquisitions c evs <= 1)%nat /\
               releases c evs = 0%nat) /\
    exit_stack st = [].
Proof.
  unfold run, run_poc_workflow. intros H.
  assert (Hmissing : forall o s, throw missing_key initial_state = (o, s) ->
            exists body_out evs exits,
              trace s = (evs ++ exits)%list /\
              body_path q body_out evs /\
              forallb is_exit exits = true /\
              (o = body_out \/ exists e c, o = inl e /\ In (EvExit c (inl e)) exits) /\
              (forall c, releases c exits = acquisitions c evs /\
                         (acquisitions c evs <= 1)%nat /\
                         releases c evs = 0%nat) /\
              exit_stack s = []).
  { intros o s [= <- <-]. exists (inl missing_key), [], []. simpl.
    repeat split; auto. now constructor. }
  destruct (getenv_api_key w) as [api_key|]; [|now apply Hmissing].
  destruct (String.eqb api_key ""); [now apply Hmissing|]. clear Hmissing.
  unfold try_finally in H.
  destruct (workflow_body w q initial_state) as [body_out st1] eqn:Hbody.
  destruct (cleanup w st1) as [cout st2] eqn:Hclean.
  destruct (body_shape _ _ Hbody) as (evs & Htr & Hpath).
  destruct (body_lifecycle _ _ Hbody) as (evs' & entered & Htr' & Hstack & Hlife).
  simpl in Htr, Htr', Hstack. rewrite app_nil_r in Hstack.
  rewrite Htr in Htr'. subst evs'.
  unfold cleanup, aclose, bind, get_state in Hclean. cbn beta iota in Hclean.
  apply aclose_loop_spec in Hclean as (exits & Htr2 & Hexits & Hrel & Hstack2 & Hr).
  exists body_out, evs, exits.
  assert (Hst : st = st2) by (destruct cout; now injection H).
  subst st. rewrite Htr2, Htr.
  split; [reflexivity|]. split; [exact Hpath|]. split; [exact Hexits|].
  split; [|split].
  - destruct Hr as [-> | (e & -> & [Hp | (c & Hin)])].
    + left. now injection H.
    + discriminate.
    + right. exists e, c. split; [now injection H | exact Hin].
  - intros c. rewrite Hrel, Hstack. destruct (Hlife c) as (-> & Hle & Hz). auto.
  - rewrite Hstack2, Hstack. now destruct entered.
Qed.

Lemma requests_of_invocations (l : list (value * value * result pydict)) :
  model_requests (map invocation_event l) = [].
Proof. induction l as [|[[n a] o] l IH]; simpl; auto. Qed.

Lemma printed_of_invocations (l : list (value * value * result pydict)) :
  printed (map invocation_event l) = [].
Proof. induction l as [|[[n a] o] l IH]; simpl; auto. Qed.

Lemma requests_of_prints (l : list out_line) : model_requests (map EvPrint l) = [].
Proof. induction l; simpl; auto. Qed.

Lemma invocations_of_prints (l : list out_line) : invocations (map EvPrint l) = [].
Proof. induction l; simpl; auto. Qed.

(** What the readers see on each path. *)
Lemma path_view (q : string) out evs exits :
  body_path q out evs ->
  forallb is_exit exits = true ->
  run_view q out (model_requests (evs ++ exits)) (invocations (evs ++ exits))
    (printed (evs ++ exits)).
Proof.
  intros Hpath Hexits.
  destruct (exit_silent _ Hexits) as (Hx1 & Hx2 & Hx3 & _).
  destruct Hpath as [e pre Hs|e pre tools Hs|e pre tools r1 Hs Hext
                    |out pre tools r1 lines Hs Hext Hlines
                    |e pre tools r1 calls outcomes blocks Hs Hext Hne Hex Hlt
                    |out pre tools r1 calls outcomes blocks o2 lines Hs Hext Hne Hex Hlen Hsyn];
    destruct (setup_silent _ Hs) as (Hs1 & Hs2 & Hs3 & _);
    rewrite !model_requests_app, !invocations_app, !printed_app;
    rewrite ?Hx1, ?Hx2, ?Hx3, ?Hs1, ?Hs2, ?Hs3;
    rewrite ?requests_of_invocations, ?printed_of_invocations,
      ?invocations_invoked, ?requests_of_prints, ?invocations_of_prints,
      ?printed_prints;
    cbn [model_requests invocations printed app];
    rewrite ?app_nil_r.
  - constructor.
  - constructor.
  - now constructor.
  - now constructor.
  - econstructor; eassumption.
  - econstructor; eassumption.
Qed.

(** The view of a whole run.  The run returns what its [try] block ended
    with, unless an exit raised during [cleanup]. *)
Lemma run_view_ok (q : string) :
  exists body_out,
    run_view q body_out
      (model_requests (trace (snd (run w q))))
      (invocations (trace (snd (run w q))))
      (printed (trace (snd (run w q)))) /\
    (fst (run w q) = body_out \/
     exists e c, fst (run w q) = inl e /\
                 In (EvExit c (inl e)) (trace (snd (run w q)))).
Proof.
  destruct (run w q) as [out st] eqn:Hrun.
  apply run_shape in Hrun
    as (body_out & evs & exits & Htr & Hpath & Hexits & Hout & _ & _).
  exists body_out. simpl. rewrite Htr. split.
  - now apply path_view.
  - destruct Hout as [-> | (e & c & -> & Hin)]; [now left|].
    right. exists e, c. split; [reflexivity|]. apply in_or_app. now right.
Qed.

End RunFacts.

(** ** Facts about the Execute phase and the final text *)

Lemma executed_lengths calls outcomes blocks :
  executed calls outcomes blocks ->
  (List.length blocks <= List.length outcomes)%nat /\
  (List.length outcomes <= List.length calls)%nat /\
  (List.length outcomes <= S (List.length blocks))%nat.
Proof.
  induction 1 as [|call calls outcome outcomes block blocks Hfmt Hex IH|];
    simpl; lia.
Qed.

(** The calls that got a block are the first ones, and each block is the
    formatted result of its own call. *)
Lemma executed_formatted calls outcomes blocks :
  executed calls outcomes blocks ->
  Forall2 (fun co block => tool_result_for (fst co) (snd co) = Some block)
    (combine calls (firstn (List.length blocks) outcomes)) blocks.
Proof.
  induction 1 as [|call calls outcome outcomes block blocks Hfmt Hex IH|];
    simpl; constructor; auto.
Qed.

Lemma executed_complete calls outcomes blocks :
  executed calls outcomes blocks ->
  List.length blocks = List.length calls ->
  List.length outcomes = List.length calls /\
  Forall2 (fun co block => tool_result_for (fst co) (snd co) = Some block)
    (combine calls outcomes) blocks.
Proof.
  induction 1 as [|call calls outcome outcomes block blocks Hfmt Hex IH|];
    simpl; intros Hlen; try discriminate.
  - split; [reflexivity | constructor].
  - injection Hlen as Hlen. destruct (IH Hlen) as [-> Hall].
    split; [reflexivity | now constructor].
Qed.

(** When no issued call is left without a block, none stopped the loop. *)
Lemma executed_no_stop calls outcomes blocks :
  executed calls outcomes blocks ->
  (forall call outcome, In (call, outcome) (combine calls outcomes) ->
                        tool_result_for call outcome <> None) ->
  List.length blocks = List.length outcomes.
Proof.
  induction 1 as [|call calls outcome outcomes block blocks Hfmt Hex IH
                  |call calls outcome Hfmt]; simpl; intros Hall.
  - reflexivity.
  - f_equal. apply IH. intros c o Hin. apply Hall. now right.
  - exfalso. apply (Hall call outcome); [now left | exact Hfmt].
Qed.

Lemma format_block_fields (tool_call_id : value) (tool_result block : pydict) :
  ClaudeClient.format_tool_result_for_claude tool_call_id tool_result = inr block ->
  lookup "type" block = Some (VStr "tool_result") /\
  lookup "tool_use_id" block = Some tool_call_id.
Proof.
  unfold ClaudeClient.format_tool_result_for_claude.
  match goal with
  | |- rbind ?m _ = _ -> _ => destruct m as [e|content_text]
  end; simpl; [discriminate|].
  intros [= <-]. split; reflexivity.
Qed.

Lemma tool_result_for_id call outcome block :
  tool_result_for call outcome = Some block ->
  lookup "tool_use_id" block = Some (get call "id" VNone).
Proof.
  unfold tool_result_for. destruct outcome as [e|mcp_result]; [discriminate|].
  destruct (ClaudeClient.format_tool_result_for_claude _ _) as [e|b] eqn:Hfmt;
    [discriminate|].
  intros [= <-]. now apply format_block_fields in Hfmt.
Qed.

Lemma executed_ids calls outcomes blocks :
  executed calls outcomes blocks ->
  map (lookup "tool_use_id") blocks
  = map (fun call => Some (get call "id" VNone)) (firstn (List.length blocks) calls).
Proof.
  induction 1 as [|call calls outcome outcomes block blocks Hfmt Hex IH|];
    simpl; try reflexivity.
  now rewrite IH, (tool_result_for_id _ _ Hfmt).
Qed.

Lemma final_loop_wf (blocks : list pydict) :
  forallb wf_text_block blocks = true ->
  forall final_text,
    final_loop (map VDict blocks) final_text
    = ok (final_text ++ String.concat "" (text_blocks blocks)).
Proof.
  induction blocks as [|block rest IH]; intros Hwf acc.
  - simpl. now rewrite append_nil_r.
  - cbn [forallb] in Hwf. apply andb_true_iff in Hwf as [Hblock Hrest].
    unfold wf_text_block in Hblock. apply andb_true_iff in Hblock as [Hty Htext].
    cbn [map final_loop subscript].
    rewrite (getitem_has_key _ _ Hty). cbn [rbind ok]. fold (is_text block).
    unfold text_blocks. cbn [filter].
    destruct (is_text block) eqn:Hist.
    + cbn [map]. rewrite concat_cons, <- append_assoc.
      unfold getitem, block_text.
      destruct (lookup "text" block) as [[| | |s| |]|]; try discriminate.
      cbn [rbind ok str_iadd]. apply (IH Hrest).
    + apply (IH Hrest).
Qed.

Lemma request_messages messages tools max_tokens :
  lookup "messages" (ClaudeClient.request_kwargs messages tools max_tokens)
  = Some (VList (map VDict messages)).
Proof. destruct tools as [[|t ts]|]; reflexivity. Qed.

Lemma has_type_wf_block (block : pydict) :
  has_key "type" block = true -> is_tool_use block = false ->
  wf_block block = true.
Proof. intros Hty Htu. unfold wf_block. now rewrite Hty, Htu. Qed.

(** A response of well-formed blocks without a [tool_use] yields no call. *)
Lemma extract_plain_response (response : ApiResponse) :
  forallb wf_text_block (resp_content response) = true ->
  filter is_tool_use (resp_content response) = [] ->
  ClaudeClient.extract_tool_calls (response_dict response) = ok [].
Proof.
  intros Hwf Hnone.
  unfold ClaudeClient.extract_tool_calls. rewrite response_dict_content. simpl.
  assert (Hblocks : forallb wf_block (resp_content response) = true).
  { revert Hwf Hnone. induction (resp_content response) as [|b l IH]; simpl; auto.
    intros Hwf Hnone. apply andb_true_iff in Hwf as [Hb Hl].
    destruct (is_tool_use b) eqn:Htu; [discriminate|].
    unfold wf_text_block in Hb. apply andb_true_iff in Hb as [Hty _].
    rewrite (has_type_wf_block _ Hty Htu). auto. }
  destruct (extract_loop_spec _ Hblocks []) as (out & Heq & Hall).
  rewrite Hnone in Hall. inversion Hall. subst. exact Heq.
Qed.

Lemma invoked_outcomes (P : result pydict -> Prop) outcomes :
  forall calls,
    (List.length outcomes <= List.length calls)%nat ->
    Forall (fun i => P (snd i)) (invoked calls outcomes) ->
    Forall P outcomes.
Proof.
  induction outcomes as [|o os IH]; intros calls Hlen Hall; [constructor|].
  destruct calls as [|c cs]; simpl in Hlen; [lia|].
  rewrite invoked_cons in Hall. inversion Hall as [|i l Hi Hl]; subst.
  constructor; [exact Hi | apply (IH cs); [lia | exact Hl]].
Qed.

Lemma returned_results outcomes :
  Forall (fun o => exists mcp_result,
                     o = inr mcp_result /\ wf_result mcp_result = true) outcomes ->
  exists results : list pydict,
    outcomes = map (@inr exn pydict) results /\ forallb wf_result results = true.
Proof.
  induction 1 as [|o os (res & -> & Hwf) _ (results & -> & Hall)].
  - exists []. auto.
  - exists (res :: results). simpl. now rewrite Hwf, Hall.
Qed.

Lemma formatted_results calls :
  forall (results blocks : list pydict),
    Forall2 (fun co block => tool_result_for (fst co) (snd co) = Some block)
      (combine calls (map (@inr exn pydict) results)) blocks ->
    Forall2 (fun cr block =>
               ClaudeClient.format_tool_result_for_claude
                 (get (fst cr) "id" VNone) (snd cr) = ok block)
      (combine calls results) blocks.
Proof.
  induction calls as [|c cs IH]; intros results blocks Hall.
  - simpl in *. inversion Hall. constructor.
  - destruct results as [|r rs]; simpl in *.
    + inversion Hall. constructor.
    + inversion Hall as [|co b l bs Hfmt Hrest]; subst.
      constructor; [|apply IH; exact Hrest].
      simpl in *. unfold tool_result_for in Hfmt.
      destruct (ClaudeClient.format_tool_result_for_claude _ _); [discriminate|].
      now injection Hfmt as ->.
Qed.

Lemma Forall2_combine_nth {A B C} (R : A * B -> C -> Prop) (k : nat) :
  forall xs ys zs x y,
    Forall2 R (combine xs ys) zs ->
    nth_error xs k = Some x ->
    nth_error ys k = Some y ->
    exists z, nth_error zs k = Some z /\ R (x, y) z.
Proof.
  induction k as [|k IH]; intros [|x' xs] [|y' ys] zs x y Hall Hx Hy;
    simpl in *; try discriminate.
  - injection Hx as ->. injection Hy as ->.
    inversion Hall; subst. eauto.
  - inversion Hall; subst. eapply IH; eauto.
Qed.

(** ** The Capability Registry and the Model Gateway *)

(** C4.  [convert_mcp_tools_to_claude_format] is total on sequences of
    descriptors (dicts with a name): for n descriptors it returns n tool
    descriptors with the same names in the same order; a missing
    description becomes the empty string, a missing input schema becomes
    [{type: object, properties: {}}], and what is present is carried over. *)
Theorem convert_preserves_names_and_order (mcp_tools : list pydict) :
  forallb is_descriptor mcp_tools = true ->
  exists claude_tools,
    ClaudeClient.convert_mcp_tools_to_claude_format mcp_tools = ok claude_tools /\
    List.length claude_tools = List.length mcp_tools /\
    map (lookup "name") claude_tools = map (lookup "name") mcp_tools /\
    Forall2
      (fun mcp_tool claude_tool =>
         lookup "name" claude_tool = lookup "name" mcp_tool /\
         lookup "description" claude_tool
           = Some (match lookup "description" mcp_tool with
                   | Some description => description
                   | None => VStr ""
                   end) /\
         lookup "input_schema" claude_tool
           = Some (match lookup "inputSchema" mcp_tool with
                   | Some schema => schema
                   | None => VDict [("type", VStr "object"); ("properties", VDict [])]
                   end))
      mcp_tools claude_tools.
Proof.
  intros Hd. destruct (convert_loop_spec _ Hd []) as (out & Heq & Hall).
  exists out. split; [exact Heq|].
  split; [symmetry; exact (Forall2_length Hall)|].
  split.
  - clear Heq Hd. induction Hall as [|m c ms cs [Hname _] _ IH]; simpl;
      [reflexivity | now rewrite Hname, IH].
  - eapply Forall2_impl; [|exact Hall].
    intros m c (Hname & Hdesc & Hschema). auto.
Qed.

Lemma convert_preserves_names_and_order_witness :
  exists claude_tools,
    ClaudeClient.convert_mcp_tools_to_claude_format
      [Examples.calculate_tool; Examples.bare_tool] = ok claude_tools /\
    map (lookup "name") claude_tools
      = [Some (VStr "calculate"); Some (VStr "get_weather")].
Proof.
  destruct (convert_preserves_names_and_order
              [Examples.calculate_tool; Examples.bare_tool] eq_refl)
    as (claude_tools & Heq & _ & Hnames & _).
  exists claude_tools. split; [exact Heq | exact Hnames].
Defined.

(** C5.  For a response whose content blocks are well formed,
    [extract_tool_calls] returns one call per [tool_use] block, in the
    order of the blocks, each with the id, name and input of its block;
    without a [tool_use] block the result is empty. *)
Theorem extract_one_call_per_tool_use (response : pydict) (blocks : list pydict) :
  lookup "content" response = Some (VList (map VDict blocks)) ->
  forallb wf_block blocks = true ->
  exists calls,
    ClaudeClient.extract_tool_calls response = ok calls /\
    List.length calls = List.length (filter is_tool_use blocks) /\
    Forall2
      (fun block call =>
         lookup "id" call = lookup "id" block /\
         lookup "name" call = lookup "name" block /\
         lookup "input" call = lookup "input" block)
      (filter is_tool_use blocks) calls /\
    (filter is_tool_use blocks = [] -> calls = []).
Proof.
  intros Hcontent Hwf.
  destruct (extract_loop_spec _ Hwf []) as (calls & Heq & Hall).
  exists calls. unfold ClaudeClient.extract_tool_calls, getitem.
  rewrite Hcontent. simpl. split; [exact Heq|].
  split; [symmetry; exact (Forall2_length Hall)|].
  split; [exact Hall|].
  intros Hnone. rewrite Hnone in Hall. now inversion Hall.
Qed.

Lemma extract_one_call_per_tool_use_witness :
  exists calls,
    ClaudeClient.extract_tool_calls
      (response_dict
         (Examples.response_of
            [Examples.text_block "Let me compute.";
             Examples.tool_use_block "toolu_01" "calculate"
               [("expression", VStr "42 + 8")];
             Examples.tool_use_block "toolu_02" "get_weather"
               [("city", VStr "Tokyo")]]
            "tool_use")) = ok calls /\
    List.length calls = 2%nat.
Proof.
  destruct (extract_one_call_per_tool_use
              (response_dict
                 (Examples.response_of
                    [Examples.text_block "Let me compute.";
                     Examples.tool_use_block "toolu_01" "calculate"
                       [("expression", VStr "42 + 8")];
                     Examples.tool_use_block "toolu_02" "get_weather"
                       [("city", VStr "Tokyo")]]
                    "tool_use"))
              _ eq_refl eq_refl)
    as (calls & Heq & Hlen & _).
  exists calls. split; [exact Heq | exact Hlen].
Defined.

(** C3.  For a capability result (content: a sequence of entries),
    [format_tool_result_for_claude] returns a [tool_result] block whose
    [tool_use_id] is the call id and whose content is the concatenation,
    in order, of the text of every text entry.  When that concatenation is
    empty, the content is instead [json.dumps] of the whole result, and
    this serialization carries the entire result: it is the serialization
    of no other value, so that every key and every value of the result
    (the error flag and the entries that are not text included) is
    determined by the content.  The content is never the empty string. *)
Theorem format_result_text_or_serialization
    (tool_call_id : value) (tool_result : pydict) :
  wf_result tool_result = true ->
  exists content,
    ClaudeClient.format_tool_result_for_claude tool_call_id tool_result
    = ok [("type", VStr "tool_result");
          ("tool_use_id", tool_call_id);
          ("content", VStr content)] /\
    (result_text tool_result <> "" -> content = result_text tool_result) /\
    (result_text tool_result = "" ->
     content = Json.dumps (VDict tool_result) /\
     forall other : value, Json.dumps other = content -> other = VDict tool_result) /\
    content <> "".
Proof.
  intros Hwf. rewrite (format_wf _ _ Hwf).
  destruct (String.eqb_spec (result_text tool_result) "") as [Hempty | Hfull].
  - exists (Json.dumps (VDict tool_result)).
    split; [reflexivity|]. split; [intros Hne; contradiction|].
    split; [|apply dumps_dict_not_empty].
    intros _. split; [reflexivity|]. intros other Heq. now apply dumps_inj.
  - exists (result_text tool_result).
    split; [reflexivity|]. split; [reflexivity|].
    split; [intros Hempty; contradiction | exact Hfull].
Qed.

Lemma format_result_text_or_serialization_witness :
  ClaudeClient.format_tool_result_for_claude (VStr "toolu_01")
    [("content",
      VList [VDict [("type", VStr "text"); ("text", VStr "The result")];
             VDict [("type", VStr "image"); ("data", VStr "aGk=")];
             VDict [("type", VStr "text"); ("text", VStr " is: 50")]]);
     ("isError", VBool false)]
  = ok [("type", VStr "tool_result");
        ("tool_use_id", VStr "toolu_01");
        ("content", VStr "The result is: 50")]
  /\ (let q := Json.dquote in
      ClaudeClient.format_tool_result_for_claude (VStr "toolu_02")
        [("content", VList [VDict [("type", VStr "image"); ("data", VStr "aGk=")]]);
         ("isError", VBool true)]
      = ok [("type", VStr "tool_result");
            ("tool_use_id", VStr "toolu_02");
            ("content",
             VStr ("{" ++ q ++ "content" ++ q ++ ": [{"
                   ++ q ++ "type" ++ q ++ ": " ++ q ++ "image" ++ q ++ ", "
                   ++ q ++ "data" ++ q ++ ": " ++ q ++ "aGk=" ++ q ++ "}], "
                   ++ q ++ "isError" ++ q ++ ": true}"))])
  /\ (let q := Json.dquote in
      Json.dumps
        (VDict [("content", VList [VDict [("type", VStr "image"); ("data", VStr "aGk=")]]);
                ("isError", VBool false)])
      = "{" ++ q ++ "content" ++ q ++ ": [{"
        ++ q ++ "type" ++ q ++ ": " ++ q ++ "image" ++ q ++ ", "
        ++ q ++ "data" ++ q ++ ": " ++ q ++ "aGk=" ++ q ++ "}], "
        ++ q ++ "isError" ++ q ++ ": true}" -> False).
Proof.
  cbv zeta.
  destruct (@format_result_text_or_serialization (VStr "toolu_01")
              [("content",
                VList [VDict [("type", VStr "text"); ("text", VStr "The result")];
                       VDict [("type", VStr "image"); ("data", VStr "aGk=")];
                       VDict [("type", VStr "text"); ("text", VStr " is: 50")]]);
               ("isError", VBool false)] eq_refl)
    as (text & Htext & Hconcat & _ & _).
  destruct (@format_result_text_or_serialization (VStr "toolu_02")
              [("content",
                VList [VDict [("type", VStr "image"); ("data", VStr "aGk=")]]);
               ("isError", VBool true)] eq_refl)
    as (serialized & Hserialized & _ & Hfallback & _).
  destruct (Hfallback eq_refl) as [Hdumps Hentire].
  split; [|split].
  - rewrite Htext, Hconcat; [reflexivity | discriminate].
  - rewrite Hserialized, Hdumps. reflexivity.
  - intros Hsame. rewrite Hdumps in Hentire.
    apply Hentire in Hsame. discriminate.
Defined.

(** C10.  [call_claude] with an empty tool list does what it does with no
    tool list: the request is the same in both cases and has no [tools]
    field. *)
Theorem call_claude_empty_tools_omitted
    (w : World) (messages : list pydict) (max_tokens : Z) (st : state) :
  call_claude w messages (Some []) max_tokens st
    = call_claude w messages None max_tokens st /\
  ClaudeClient.request_kwargs messages (Some []) max_tokens
    = ClaudeClient.request_kwargs messages None max_tokens /\
  lookup "tools" (ClaudeClient.request_kwargs messages (Some []) max_tokens) = None /\
  model_requests (trace (snd (call_claude w messages (Some []) max_tokens st)))
    = (model_requests (trace st)
       ++ [([("model", VStr ClaudeClient.model);
             ("max_tokens", VInt max_tokens);
             ("messages", VList (map VDict messages))],
            messages_create w (trace st)
              [("model", VStr ClaudeClient.model);
               ("max_tokens", VInt max_tokens);
               ("messages", VList (map VDict messages))])])%list.
Proof.
  repeat split.
  unfold call_claude, external, bind, ask, lift, ret. simpl.
  destruct (messages_create w (trace st) _); simpl;
    now rewrite model_requests_app.
Qed.

(** ** The session guard *)

(** [self.session] is set as soon as the [ClientSession] context is
    entered, before [initialize()] is awaited. *)
Lemma connect_sets_session (w : World) (p : string) (st : state) r st' :
  session st = false ->
  connect w p st = (r, st') ->
  session st' = match enter_ctx w (trace st) StdioTransport with
                | inl _ => false
                | inr _ =>
                    match enter_ctx w
                            (trace st ++ [EvEnter StdioTransport (inr tt)])
                            SessionCtx with
                    | inl _ => false
                    | inr _ => true
                    end
                end.
Proof.
  intros Hs.
  unfold connect, enter_async_context, bind, external, ask, lift, ret,
    get_state, set_exit_stack, set_session. simpl.
  destruct (enter_ctx w (trace st) StdioTransport) as [e|[]]; simpl.
  { intros [= <- <-]. exact Hs. }
  destruct (enter_ctx w _ SessionCtx) as [e|[]]; simpl.
  { intros [= <- <-]. exact Hs. }
  destruct (sdk_initialize w _); simpl; intros [= <- <-]; reflexivity.
Qed.

(** C6, as the code has it.  On a client whose session is not set
    ([connect] was not called, or failed before the [ClientSession]
    context was entered), [list_tools] and [call_tool] raise
    [RuntimeError("Not connected to a server")] and perform no request:
    the state, trace included, is unchanged. *)
Theorem unset_session_is_refused (w : World) (st : state) :
  session st = false ->
  list_tools w st = (raise not_connected, st) /\
  forall tool_name arguments,
    call_tool w tool_name arguments st = (raise not_connected, st).
Proof.
  intros Hs. unfold list_tools, call_tool, bind, get_state, throw. simpl.
  rewrite Hs. simpl. split; [reflexivity | intros; reflexivity].
Qed.

Lemma unset_session_is_refused_witness :
  list_tools Examples.calc_world initial_state = (raise not_connected, initial_state) /\
  call_tool Examples.calc_world (VStr "calculate") (VDict []) initial_state
    = (raise not_connected, initial_state).
Proof.
  destruct (@unset_session_is_refused Examples.calc_world initial_state eq_refl)
    as [Hlist Hcall].
  split; [exact Hlist | apply Hcall].
Defined.

(** C6, as stated, fails: when [initialize()] raises, [connect] has already
    set the session, and afterwards [list_tools] and [call_tool] pass the
    guard and send their requests. *)
Lemma initialize_failed_guard_passes :
  fst (connect Examples.failing_init_world server_path initial_state)
    = raise (SdkError "initialize: connection closed") /\
  initialized (trace Examples.after_failed_connect) = false /\
  session Examples.after_failed_connect = true /\
  list_tools Examples.failing_init_world Examples.after_failed_connect
    = (ok [Examples.calculate_tool; Examples.bare_tool],
       log (EvListTools (ok [Examples.calculate_tool; Examples.bare_tool]))
         Examples.after_failed_connect) /\
  call_tool Examples.failing_init_world (VStr "calculate") (VDict [])
      Examples.after_failed_connect
    = (ok (Examples.text_result "late answer" false),
       log (EvCallTool (VStr "calculate") (VDict [])
              (ok (Examples.text_result "late answer" false)))
         Examples.after_failed_connect) /\
  (list_tools Examples.failing_init_world Examples.after_failed_connect
     = (raise not_connected, Examples.after_failed_connect) -> False).
Proof.
  repeat split; try reflexivity. discriminate.
Qed.

(** ** The workflow *)

(** C9.  In every run, whatever the world answers and however the run
    ends, the transport is acquired at most once, and it is released as
    often as it was acquired: exactly once when it was acquired, never
    otherwise.  The release happens in [cleanup], after everything else:
    the trace ends with the exits, and the exit stack is empty afterwards. *)
Theorem transport_released_exactly_once (w : World) (q : string) :
  (acquisitions StdioTransport (trace (snd (run w q))) <= 1)%nat /\
  releases StdioTransport (trace (snd (run w q)))
    = acquisitions StdioTransport (trace (snd (run w q))) /\
  exit_stack (snd (run w q)) = [] /\
  exists evs exits,
    trace (snd (run w q)) = (evs ++ exits)%list /\
    forallb is_exit exits = true /\
    releases StdioTransport evs = 0%nat /\
    acquisitions StdioTransport exits = 0%nat.
Proof.
  destruct (run w q) as [out st] eqn:Hrun.
  apply run_shape in Hrun
    as (body_out & evs & exits & Htr & _ & Hexits & _ & Hlife & Hstack).
  destruct (Hlife StdioTransport) as (Hrel & Hle & Hzero).
  destruct (exit_silent _ Hexits) as (_ & _ & _ & Hacq).
  simpl. rewrite Htr, acquisitions_app, releases_app, Hacq, Hzero, Hrel.
  repeat split; try lia; auto.
  exists evs, exits. auto.
Qed.

(** C1.  When the planning response has no [tool_use] block, the run makes
    no second request to the model and invokes no capability; and when
    the blocks of the response are well formed, what is printed as the
    answer is the text of its text blocks, in order, and the run returns
    (unless an exit raises during [cleanup]). *)
Theorem plain_answer_ends_the_run
    (w : World) (q : string) (kwargs : pydict) (r1 : ApiResponse)
    (rest : list (pydict * result ApiResponse)) :
  model_requests (trace (snd (run w q))) = (kwargs, inr r1) :: rest ->
  filter is_tool_use (resp_content r1) = [] ->
  rest = [] /\
  invocations (trace (snd (run w q))) = [] /\
  (forallb wf_text_block (resp_content r1) = true ->
   printed (trace (snd (run w q)))
   = OutNoTools
       :: (map (fun s => OutClaudeText (VStr s)) (text_blocks (resp_content r1))
           ++ [OutNoExecution])%list /\
   (fst (run w q) = ok tt \/
    exists e c, fst (run w q) = inl e /\
                In (EvExit c (inl e)) (trace (snd (run w q))))).
Proof.
  intros Hreq Hnone.
  destruct (run_view_ok w q) as (body_out & Hview & Hout).
  rewrite Hreq in Hview.
  remember (invocations (trace (snd (run w q)))) as invs eqn:Hinvs.
  remember (printed (trace (snd (run w q)))) as lines eqn:Hlines.
  clear Hreq Hinvs Hlines.
  inversion Hview as [| |e tools r Hext|out tools r ls Hext Hwf
                     |e tools r calls outcomes blocks Hext Hne
                     |out tools r calls outcomes blocks o2 ls Hext Hne]; subst.
  - split; [reflexivity|]. split; [reflexivity|]. intros Hwf.
    rewrite (extract_plain_response _ Hwf Hnone) in Hext. discriminate.
  - split; [reflexivity|]. split; [reflexivity|]. intros Hwf'.
    destruct (Hwf Hwf') as [-> ->]. split; [reflexivity|].
    destruct Hout as [Hout | Hout]; [left | right]; auto.
  - apply (extract_response_no_tool_use _ Hnone) in Hext. contradiction.
  - apply (extract_response_no_tool_use _ Hnone) in Hext. contradiction.
Qed.

Lemma plain_answer_ends_the_run_witness :
  invocations (trace (snd (run Examples.chat_world "Hi"))) = [] /\
  printed (trace (snd (run Examples.chat_world "Hi")))
  = [OutNoTools; OutClaudeText (VStr "Hello.");
     OutClaudeText (VStr "How can I help?"); OutNoExecution].
Proof.
  edestruct (@plain_answer_ends_the_run Examples.chat_world "Hi")
    as (Hrest & Hinv & Hprint); [reflexivity | reflexivity |].
  split; [exact Hinv|].
  destruct (Hprint eq_refl) as [Hp _]. exact Hp.
Defined.

(** C2.  A run that sends a second request to the model sends no third.
    The messages of that second request are exactly three, in this
    order: the user message with the query, an assistant message whose
    content is the content of the planning response as it came, and one
    user message whose content is the sequence of [tool_result] blocks,
    one per call, in call order.  When the synthesis response is well
    formed, the final answer printed is the concatenation, in order, of
    its text blocks. *)
Theorem synthesis_request_has_three_messages
    (w : World) (q : string) (kw1 kw2 : pydict) (o1 o2 : result ApiResponse)
    (rest : list (pydict * result ApiResponse)) :
  model_requests (trace (snd (run w q))) = (kw1, o1) :: (kw2, o2) :: rest ->
  rest = [] /\
  exists r1 calls outcomes tool_results,
    o1 = inr r1 /\
    ClaudeClient.extract_tool_calls (response_dict r1) = ok calls /\
    calls <> [] /\
    invocations (trace (snd (run w q))) = invoked calls outcomes /\
    List.length outcomes = List.length calls /\
    Forall2 (fun co block => tool_result_for (fst co) (snd co) = Some block)
      (combine calls outcomes) tool_results /\
    lookup "messages" kw2
    = Some (VList
              [VDict [("role", VStr "user"); ("content", VStr q)];
               VDict [("role", VStr "assistant");
                      ("content", VList (map VDict (resp_content r1)))];
               VDict [("role", VStr "user");
                      ("content", VList (map VDict tool_results))]]) /\
    forall r2,
      o2 = inr r2 ->
      forallb wf_text_block (resp_content r2) = true ->
      printed (trace (snd (run w q)))
      = [OutFinal (String.concat "" (text_blocks (resp_content r2)))].
Proof.
  intros Hreq.
  destruct (run_view_ok w q) as (body_out & Hview & Hout).
  rewrite Hreq in Hview.
  remember (invocations (trace (snd (run w q)))) as invs eqn:Hinvs.
  remember (printed (trace (snd (run w q)))) as lines eqn:Hlines.
  clear Hreq Hinvs Hlines.
  inversion Hview as [| | | | |out tools r1 calls outcomes blocks o ls
                                Hext Hne Hexec Hlen Hsyn]; subst.
  split; [reflexivity|].
  destruct (executed_complete Hexec Hlen) as [Hall Hfmt].
  exists r1, calls, outcomes, blocks.
  repeat (split; [easy|]).
  split; [apply request_messages|].
  intros r2 -> Hwf. unfold synthesis_outcome in Hsyn.
  rewrite (final_loop_wf _ Hwf) in Hsyn. now destruct Hsyn as [_ ->].
Qed.

Lemma synthesis_request_has_three_messages_witness :
  printed (trace (snd (run Examples.calc_world Examples.calc_query)))
  = [OutFinal "42 + 8 = 50"].
Proof.
  edestruct (@synthesis_request_has_three_messages
               Examples.calc_world Examples.calc_query)
    as (_ & r1 & calls & outcomes & tool_results & _ & _ & _ & _ & _ & _ & _ & Hfinal);
    [reflexivity|].
  apply (Hfinal _ eq_refl eq_refl).
Defined.

(** C7.  In a run that executes a non-empty batch of calls in which every
    invocation comes back with a capability result, failed ([isError])
    or not, no call of the batch is skipped and the run goes on to the
    second request: every call is invoked, every result is formatted by
    [format_tool_result_for_claude], the result of a failed invocation
    included, and the blocks are the content of the tool-result message
    of that request.  An exception that reaches the caller then comes from
    the synthesis request, the final text or an exit, never from the
    batch. *)
Theorem failed_invocation_is_reported
    (w : World) (q : string) (kw1 : pydict) (r1 : ApiResponse)
    (rest : list (pydict * result ApiResponse)) (calls : list pydict) :
  model_requests (trace (snd (run w q))) = (kw1, inr r1) :: rest ->
  ClaudeClient.extract_tool_calls (response_dict r1) = ok calls ->
  calls <> [] ->
  Forall (fun i => exists mcp_result,
                     snd i = inr mcp_result /\ wf_result mcp_result = true)
    (invocations (trace (snd (run w q)))) ->
  exists results tool_results kw2 o2,
    rest = [(kw2, o2)] /\
    invocations (trace (snd (run w q)))
      = invoked calls (map (@inr exn pydict) results) /\
    List.length results = List.length calls /\
    Forall2 (fun cr block =>
               ClaudeClient.format_tool_result_for_claude
                 (get (fst cr) "id" VNone) (snd cr) = ok block)
      (combine calls results) tool_results /\
    (forall k call mcp_result,
        nth_error calls k = Some call ->
        nth_error results k = Some mcp_result ->
        lookup "isError" mcp_result = Some (VBool true) ->
        exists block,
          nth_error tool_results k = Some block /\
          ClaudeClient.format_tool_result_for_claude
            (get call "id" VNone) mcp_result = ok block) /\
    lookup "messages" kw2
    = Some (VList
              [VDict [("role", VStr "user"); ("content", VStr q)];
               VDict [("role", VStr "assistant");
                      ("content", VList (map VDict (resp_content r1)))];
               VDict [("role", VStr "user");
                      ("content", VList (map VDict tool_results))]]) /\
    (forall e, fst (run w q) = inl e ->
       o2 = inl e \/
       (exists r2, o2 = inr r2 /\
                   final_loop (map VDict (resp_content r2)) "" = inl e) \/
       (exists c, In (EvExit c (inl e)) (trace (snd (run w q))))).
Proof.
  intros Hreq Hcalls Hne Hret.
  destruct (run_view_ok w q) as (body_out & Hview & Hout).
  rewrite Hreq in Hview.
  remember (invocations (trace (snd (run w q)))) as invs eqn:Hinvs.
  remember (printed (trace (snd (run w q)))) as lines eqn:Hlines.
  clear Hreq Hinvs Hlines.
  inversion Hview as [| |e tools r Hext|out tools r ls Hext Hwf
                     |e tools r cs outcomes blocks Hext Hne' Hexec Hlt
                     |out tools r cs outcomes blocks o2 ls Hext Hne' Hexec Hlen Hsyn];
    subst; rewrite Hcalls in Hext; try discriminate.
  - injection Hext as ->. contradiction.
  - injection Hext as <-.
    destruct (executed_lengths Hexec) as (_ & Hle & _).
    apply (@invoked_outcomes
             (fun o => exists mcp_result,
                         o = inr mcp_result /\ wf_result mcp_result = true)
             _ _ Hle) in Hret.
    exfalso. apply (Nat.lt_irrefl (List.length blocks)).
    rewrite (executed_no_stop Hexec) at 2; [exact Hlt|].
    intros call outcome Hin. apply in_combine_r in Hin.
    rewrite Forall_forall in Hret.
    destruct (Hret _ Hin) as (mcp_result & -> & Hwf).
    destruct (tool_result_for_wf call _ Hwf) as (block & -> & _). discriminate.
  - injection Hext as <-.
    destruct (executed_complete Hexec Hlen) as [Hall Hfmt].
    assert (Hle : (List.length outcomes <= List.length calls)%nat) by lia.
    apply (@invoked_outcomes
             (fun o => exists mcp_result,
                         o = inr mcp_result /\ wf_result mcp_result = true)
             _ _ Hle) in Hret.
    apply returned_results in Hret as (results & -> & Hwf).
    apply formatted_results in Hfmt.
    exists results, blocks, (synthesis_request q tools (resp_content r1) blocks), o2.
    split; [reflexivity|]. split; [reflexivity|].
    split; [now rewrite length_map in Hall|].
    split; [exact Hfmt|].
    split.
    { intros k call mcp_result Hk Hr _.
      pose proof (@Forall2_combine_nth _ _ _ _ k _ _ _ _ _ Hfmt Hk Hr)
        as (block & Hb & Hf).
      exists block. auto. }
    split; [apply request_messages|].
    intros e He. unfold synthesis_outcome in Hsyn.
    destruct Hout as [Hout | (e' & c & Hout & Hin)].
    + rewrite He in Hout. subst body_out.
      destruct o2 as [e2|r2].
      * destruct Hsyn as [[= ->] _]. now left.
      * right. left. exists r2. split; [reflexivity|].
        destruct (final_loop _ _) as [e3|text]; destruct Hsyn as [Heq _];
          [now injection Heq as -> | discriminate].
    + rewrite He in Hout. injection Hout as ->. right. right. eauto.
Qed.

Lemma failed_invocation_is_reported_witness :
  exists results tool_results,
    invocations (trace (snd (run Examples.error_world Examples.error_query)))
      = invoked Examples.error_calls (map (@inr exn pydict) results) /\
    nth_error results 0
      = Some (Examples.text_result
                "Error calculating expression: division by zero" true) /\
    List.length tool_results = 2%nat /\
    Forall2 (fun cr block =>
               ClaudeClient.format_tool_result_for_claude
                 (get (fst cr) "id" VNone) (snd cr) = ok block)
      (combine Examples.error_calls results) tool_results.
Proof.
  edestruct (@failed_invocation_is_reported
               Examples.error_world Examples.error_query)
    as (results & tool_results & kw2 & o2 & _ & Hinv & Hlen & Hfmt & _);
    [ reflexivity
    | reflexivity
    | discriminate
    | vm_compute; repeat constructor; eexists; split; reflexivity
    | ].
  exists results, tool_results.
  split; [exact Hinv|].
  assert (Hres : results
                 = [Examples.text_result
                      "Error calculating expression: division by zero" true;
                    Examples.text_result "Rainy, 55F (13C)" false]).
  { vm_compute in Hinv.
    destruct results as [|a [|b [|c results]]]; try discriminate.
    injection Hinv as <- <-. reflexivity. }
  split; [now rewrite Hres|].
  split; [|exact Hfmt].
  rewrite <- (Forall2_length Hfmt), Hres. reflexivity.
Defined.

(** C8.  In a run that executes a non-empty batch, the invocations are
    those of the calls, taken in call order from the first one on, and
    nothing is invoked besides; a call is invoked only after every call
    before it has returned and been formatted (at most one invocation lies
    beyond the formatted ones); the blocks carry the ids of their calls in
    call order; and when the run reaches the second request, every call
    has its block and the tool-result message lists the blocks in call
    order. *)
Theorem invocations_follow_call_order
    (w : World) (q : string) (kw1 : pydict) (r1 : ApiResponse)
    (rest : list (pydict * result ApiResponse)) (calls : list pydict) :
  model_requests (trace (snd (run w q))) = (kw1, inr r1) :: rest ->
  ClaudeClient.extract_tool_calls (response_dict r1) = ok calls ->
  calls <> [] ->
  exists outcomes tool_results,
    invocations (trace (snd (run w q)))
      = map (fun co => (get (fst co) "name" VNone,
                        get (fst co) "input" VNone,
                        snd co))
          (combine calls outcomes) /\
    (List.length outcomes <= List.length calls)%nat /\
    (List.length tool_results <= List.length outcomes)%nat /\
    (List.length outcomes <= S (List.length tool_results))%nat /\
    Forall2 (fun co block => tool_result_for (fst co) (snd co) = Some block)
      (combine calls (firstn (List.length tool_results) outcomes)) tool_results /\
    map (lookup "tool_use_id") tool_results
      = map (fun call => Some (get call "id" VNone))
          (firstn (List.length tool_results) calls) /\
    forall kw2 o2 rest',
      rest = (kw2, o2) :: rest' ->
      List.length tool_results = List.length calls /\
      lookup "messages" kw2
      = Some (VList
                [VDict [("role", VStr "user"); ("content", VStr q)];
                 VDict [("role", VStr "assistant");
                        ("content", VList (map VDict (resp_content r1)))];
                 VDict [("role", VStr "user");
                        ("content", VList (map VDict tool_results))]]).
Proof.
  intros Hreq Hcalls Hne.
  destruct (run_view_ok w q) as (body_out & Hview & Hout).
  rewrite Hreq in Hview.
  remember (invocations (trace (snd (run w q)))) as invs eqn:Hinvs.
  remember (printed (trace (snd (run w q)))) as lines eqn:Hlines.
  clear Hreq Hinvs Hlines Hout.
  inversion Hview as [| |e tools r Hext|out tools r ls Hext Hwf
                     |e tools r cs outcomes blocks Hext Hne' Hexec Hlt
                     |out tools r cs outcomes blocks o2 ls Hext Hne' Hexec Hlen Hsyn];
    subst; rewrite Hcalls in Hext; try discriminate.
  - injection Hext as ->. contradiction.
  - injection Hext as <-.
    destruct (executed_lengths Hexec) as (H1 & H2 & H3).
    exists outcomes, blocks.
    split; [reflexivity|]. repeat (split; [assumption|]).
    split; [exact (executed_formatted Hexec)|].
    split; [exact (executed_ids Hexec)|].
    intros kw2 o2 rest' Habs. discriminate.
  - injection Hext as <-.
    destruct (executed_lengths Hexec) as (H1 & H2 & H3).
    exists outcomes, blocks.
    split; [reflexivity|]. repeat (split; [assumption|]).
    split; [exact (executed_formatted Hexec)|].
    split; [exact (executed_ids Hexec)|].
    intros kw2 o2' rest' [= <- <- <-].
    split; [exact Hlen | apply request_messages].
Qed.

Lemma invocations_follow_call_order_witness :
  exists outcomes tool_results,
    invocations (trace (snd (run Examples.error_world Examples.error_query)))
      = map (fun co => (get (fst co) "name" VNone,
                        get (fst co) "input" VNone,
                        snd co))
          (combine Examples.error_calls outcomes) /\
    map (lookup "tool_use_id") tool_results
      = [Some (VStr "toolu_01"); Some (VStr "toolu_02")].
Proof.
  edestruct (@invocations_follow_call_order
               Examples.error_world Examples.error_query)
    as (outcomes & tool_results & Hinv & _ & _ & _ & _ & Hids & Hsecond);
    [ reflexivity | reflexivity | discriminate | ].
  exists outcomes, tool_results.
  split; [exact Hinv|].
  edestruct Hsecond as [Hlen _]; [reflexivity|].
  rewrite Hids, Hlen. reflexivity.
Defined.

(** ** The scenarios of the design, evaluated *)

Example format_single_text :
  ClaudeClient.format_tool_result_for_claude (VStr "toolu_01")
    (Examples.text_result "X" false)
  = ok [("type", VStr "tool_result"); ("tool_use_id", VStr "toolu_01");
        ("content", VStr "X")].
Proof. reflexivity. Qed.

Example format_empty_error :
  ClaudeClient.format_tool_result_for_claude (VStr "toolu_01")
    [("content", VList []); ("isError", VBool true)]
  = ok [("type", VStr "tool_result"); ("tool_use_id", VStr "toolu_01");
        ("content",
         VStr ("{" ++ Json.dquote ++ "content" ++ Json.dquote ++ ": [], "
               ++ Json.dquote ++ "isError" ++ Json.dquote ++ ": true}"))].
Proof. reflexivity. Qed.

(** The defaults are for absent keys: a description that is present and
    [None] is carried over as it is. *)
Example none_description_is_kept :
  ClaudeClient.convert_mcp_tools_to_claude_format
    [[("name", VStr "calculate"); ("description", VNone)]]
  = ok [[("name", VStr "calculate"); ("description", VNone);
         ("input_schema", ClaudeClient.default_input_schema)]].
Proof. reflexivity. Qed.

Example calculator_run :
  fst (run Examples.calc_world Examples.calc_query) = ok tt /\
  map (fun kr => lookup "messages" (fst kr))
    (model_requests (trace (snd (run Examples.calc_world Examples.calc_query))))
  = [Some (VList [VDict (user_message Examples.calc_query)]);
     Some (VList
             [VDict (user_message Examples.calc_query);
              VDict [("role", VStr "assistant");
                     ("content",
                      VList [VDict (Examples.tool_use_block "toolu_01" "calculate"
                                      [("expression", VStr "42 + 8")])])];
              VDict [("role", VStr "user");
                     ("content",
                      VList [VDict [("type", VStr "tool_result");
                                    ("tool_use_id", VStr "toolu_01");
                                    ("content", VStr "The result is: 50")]])]])] /\
  printed (trace (snd (run Examples.calc_world Examples.calc_query)))
  = [OutFinal "42 + 8 = 50"] /\
  releases StdioTransport (trace (snd (run Examples.calc_world Examples.calc_query)))
  = 1%nat.
Proof. repeat split. Qed.

Example missing_api_key (w : World) (q : string) :
  getenv_api_key w = None ->
  run w q = (raise missing_key, initial_state).
Proof. intros H. unfold run, run_poc_workflow. now rewrite H. Qed.

(** * Further properties of the code *)

(** ** [convert_mcp_tools_to_claude_format] *)

Lemma convert_loop_closed (mcp_tools : list pydict) :
  forall claude_tools,
    ClaudeClient.convert_loop mcp_tools claude_tools
    = if forallb is_descriptor mcp_tools
      then ok (claude_tools ++ map claude_tool_of mcp_tools)%list
      else raise (KeyError "name").
Proof.
  induction mcp_tools as [|t rest IH]; intros acc; simpl.
  - now rewrite app_nil_r.
  - unfold is_descriptor at 1, has_key, getitem.
    destruct (lookup "name" t) as [name|] eqn:Hname; simpl; [|reflexivity].
    rewrite IH. destruct (forallb is_descriptor rest); [|reflexivity].
    rewrite <- app_assoc. simpl.
    unfold claude_tool_of, get. now rewrite Hname.
Qed.

(** X1.  The conversion is all or nothing.  When every tool has a name, the
    result has one dict per tool, in order, with exactly the keys [name],
    [description] and [input_schema] (every other field of the tool is
    dropped).  When some tool has no name, it raises [KeyError('name')]
    and returns nothing for the other tools. *)
Theorem convert_all_or_nothing (mcp_tools : list pydict) :
  ClaudeClient.convert_mcp_tools_to_claude_format mcp_tools
  = (if forallb is_descriptor mcp_tools
     then ok (map claude_tool_of mcp_tools)
     else raise (KeyError "name")) /\
  Forall (fun claude_tool => keys claude_tool = ["name"; "description"; "input_schema"])
    (map claude_tool_of mcp_tools).
Proof.
  split.
  - unfold ClaudeClient.convert_mcp_tools_to_claude_format.
    now rewrite convert_loop_closed.
  - apply Forall_forall. intros c Hin. apply in_map_iff in Hin as (m & <- & _).
    reflexivity.
Qed.

(** X2.  Converting a concatenation is converting the parts: when both
    parts convert, the result is the concatenation of their results; when
    a part fails, the whole fails. *)
Theorem convert_app (tools1 tools2 : list pydict) :
  ClaudeClient.convert_mcp_tools_to_claude_format (tools1 ++ tools2)
  = (converted1 <-! ClaudeClient.convert_mcp_tools_to_claude_format tools1;;
     converted2 <-! ClaudeClient.convert_mcp_tools_to_claude_format tools2;;
     ok (converted1 ++ converted2)%list).
Proof.
  unfold ClaudeClient.convert_mcp_tools_to_claude_format.
  rewrite !convert_loop_closed, forallb_app, map_app. simpl.
  destruct (forallb is_descriptor tools1); simpl; [|reflexivity].
  destruct (forallb is_descriptor tools2); reflexivity.
Qed.

(** ** [extract_tool_calls] *)

Lemma extract_loop_closed (blocks : list pydict) :
  forallb wf_block blocks = true ->
  forall tool_calls,
    ClaudeClient.extract_loop (map VDict blocks) tool_calls
    = ok (tool_calls ++ map tool_call_of (filter is_tool_use blocks))%list.
Proof.
  induction blocks as [|b rest IH]; simpl; intros Hwf acc.
  - now rewrite app_nil_r.
  - apply andb_true_iff in Hwf as [Hb Hrest].
    unfold wf_block in Hb. apply andb_true_iff in Hb as [Hty Hfields].
    rewrite (getitem_has_key _ _ Hty). simpl.
    fold (is_tool_use b). destruct (is_tool_use b) eqn:Htu.
    + apply andb_true_iff in Hfields as [Hfields Hinput].
      apply andb_true_iff in Hfields as [Hid Hname].
      rewrite (getitem_has_key _ _ Hid), (getitem_has_key _ _ Hname),
        (getitem_has_key _ _ Hinput). simpl.
      rewrite (IH Hrest). now rewrite <- app_assoc.
    + apply (IH Hrest).
Qed.

Lemma extract_loop_malformed (blocks : list pydict) :
  forallb wf_block blocks = false ->
  forall tool_calls, exists key,
    ClaudeClient.extract_loop (map VDict blocks) tool_calls = raise (KeyError key) /\
    In key ["type"; "id"; "name"; "input"].
Proof.
  induction blocks as [|b rest IH]; intros Hwf acc; [discriminate|].
  cbn [forallb] in Hwf. cbn [map ClaudeClient.extract_loop subscript].
  unfold getitem.
  destruct (wf_block b) eqn:Hb.
  - simpl in Hwf. unfold wf_block in Hb. apply andb_true_iff in Hb as [Hty Hfields].
    destruct (has_key_lookup _ _ Hty) as [ty Hty']. rewrite Hty'. cbn [rbind ok].
    assert (Htu : eq_str ty "tool_use" = is_tool_use b).
    { unfold is_tool_use, get. now rewrite Hty'. }
    rewrite Htu. destruct (is_tool_use b).
    + apply andb_true_iff in Hfields as [Hfields Hinput].
      apply andb_true_iff in Hfields as [Hid Hname].
      destruct (has_key_lookup _ _ Hid) as [? ->].
      destruct (has_key_lookup _ _ Hname) as [? ->].
      destruct (has_key_lookup _ _ Hinput) as [? ->].
      cbn [rbind ok]. apply (IH Hwf).
    + apply (IH Hwf).
  - clear Hwf IH. unfold wf_block, has_key in Hb.
    destruct (lookup "type" b) as [ty|] eqn:Hty; cbn [rbind ok raise].
    2:{ exists "type". split; [reflexivity | simpl; tauto]. }
    assert (Htu : eq_str ty "tool_use" = is_tool_use b).
    { unfold is_tool_use, get. now rewrite Hty. }
    rewrite Htu. destruct (is_tool_use b); [|discriminate].
    destruct (lookup "id" b); cbn [rbind ok raise]; [|exists "id"; split; [reflexivity | simpl; tauto]].
    destruct (lookup "name" b); cbn [rbind ok raise]; [|exists "name"; split; [reflexivity | simpl; tauto]].
    destruct (lookup "input" b); cbn [rbind ok raise]; [|exists "input"; split; [reflexivity | simpl; tauto]].
    discriminate.
Qed.

(** X3.  For a response whose content is a list of dict blocks,
    [extract_tool_calls] succeeds exactly when every block has a type and
    every [tool_use] block has its id, name and input.  Then each call is
    a dict with exactly the keys [id], [name], [input], taken from the
    [tool_use] blocks in order, and every other block and field is
    ignored.  Otherwise it raises [KeyError] for one of those four keys. *)
Theorem extract_succeeds_on_well_formed_blocks
    (response : pydict) (blocks : list pydict) :
  lookup "content" response = Some (VList (map VDict blocks)) ->
  (forallb wf_block blocks = true ->
   ClaudeClient.extract_tool_calls response
   = ok (map tool_call_of (filter is_tool_use blocks))) /\
  (forallb wf_block blocks = false ->
   exists key,
     ClaudeClient.extract_tool_calls response = raise (KeyError key) /\
     In key ["type"; "id"; "name"; "input"]) /\
  Forall (fun call => keys call = ["id"; "name"; "input"])
    (map tool_call_of (filter is_tool_use blocks)).
Proof.
  intros Hcontent.
  unfold ClaudeClient.extract_tool_calls, getitem. rewrite Hcontent. simpl.
  split; [|split].
  - intros Hwf. now rewrite (extract_loop_closed _ Hwf).
  - intros Hwf. apply (extract_loop_malformed _ Hwf).
  - apply Forall_forall. intros c Hin. apply in_map_iff in Hin as (b & <- & _).
    reflexivity.
Qed.

Lemma extract_succeeds_on_well_formed_blocks_witness :
  ClaudeClient.extract_tool_calls
    [("content",
      VList (map VDict
               [Examples.text_block "Let me compute.";
                [("type", VStr "tool_use"); ("id", VStr "toolu_01");
                 ("name", VStr "calculate")]]))]
  = raise (KeyError "input").
Proof.
  destruct (@extract_succeeds_on_well_formed_blocks
              [("content",
                VList (map VDict
                         [Examples.text_block "Let me compute.";
                          [("type", VStr "tool_use"); ("id", VStr "toolu_01");
                           ("name", VStr "calculate")]]))]
              _ eq_refl) as (_ & Hbad & _).
  destruct (Hbad eq_refl) as (key & Heq & _).
  rewrite Heq. vm_compute in Heq. injection Heq as <-. reflexivity.
Defined.

(** ** [format_tool_result_for_claude] *)

(** X4.  Whatever the result dict is, a block that
    [format_tool_result_for_claude] returns has exactly the keys [type],
    [tool_use_id] and [content] (so no error flag is passed on), its
    [tool_use_id] is the call id, and its content is a non-empty string. *)
Theorem format_block_shape (tool_call_id : value) (tool_result block : pydict) :
  ClaudeClient.format_tool_result_for_claude tool_call_id tool_result = ok block ->
  exists content,
    block = [("type", VStr "tool_result");
             ("tool_use_id", tool_call_id);
             ("content", VStr content)] /\
    content <> "" /\
    keys block = ["type"; "tool_use_id"; "content"] /\
    lookup "is_error" block = None.
Proof.
  unfold ClaudeClient.format_tool_result_for_claude.
  match goal with
  | |- rbind ?m _ = _ -> _ => destruct m as [e|content_text]
  end; simpl; [discriminate|].
  intros [= <-]. eexists. split; [reflexivity|]. split; [|split; reflexivity].
  destruct (String.eqb_spec content_text "") as [_|Hne];
    [apply dumps_dict_not_empty | exact Hne].
Qed.

Lemma format_block_shape_witness :
  exists content,
    [("type", VStr "tool_result"); ("tool_use_id", VStr "toolu_01");
     ("content", VStr "Error calculating expression: division by zero")]
    = [("type", VStr "tool_result"); ("tool_use_id", VStr "toolu_01");
       ("content", VStr content)] /\
    content <> "".
Proof.
  destruct (@format_block_shape (VStr "toolu_01")
              (Examples.text_result
                 "Error calculating expression: division by zero" true)
              _ eq_refl) as (content & Hblock & Hne & _).
  exists content. split; [exact Hblock | exact Hne].
Defined.

(** X5.  When a result has text, the block depends on nothing but its
    content: two results with the same [content] (whatever their
    [isError], [structuredContent] or other fields) give the same block. *)
Theorem format_reads_content_only
    (tool_call_id : value) (tool_result1 tool_result2 : pydict) :
  wf_result tool_result1 = true ->
  result_text tool_result1 <> "" ->
  lookup "content" tool_result2 = lookup "content" tool_result1 ->
  ClaudeClient.format_tool_result_for_claude tool_call_id tool_result2
  = ClaudeClient.format_tool_result_for_claude tool_call_id tool_result1.
Proof.
  intros Hwf Htext Hcontent.
  assert (Hwf2 : wf_result tool_result2 = true).
  { unfold wf_result in *. now rewrite Hcontent. }
  assert (Htext2 : result_text tool_result2 = result_text tool_result1).
  { unfold result_text, result_items. now rewrite Hcontent. }
  rewrite (format_wf _ _ Hwf), (format_wf _ _ Hwf2), Htext2.
  apply String.eqb_neq in Htext. now rewrite Htext.
Qed.

Lemma format_reads_content_only_witness :
  ClaudeClient.format_tool_result_for_claude (VStr "toolu_01")
    (Examples.text_result "division by zero" true)
  = ClaudeClient.format_tool_result_for_claude (VStr "toolu_01")
      (Examples.text_result "division by zero" false).
Proof.
  apply (@format_reads_content_only (VStr "toolu_01")
           (Examples.text_result "division by zero" false)
           (Examples.text_result "division by zero" true));
    [reflexivity | discriminate | reflexivity].
Defined.




(** X7.  A result without content, or whose content is falsy ([None],
    an empty list, an empty string, zero, [False]), is never an error:
    the block's content is [json.dumps] of the whole result. *)
Theorem format_without_content (tool_call_id : value) (tool_result : pydict) :
  truthy (get tool_result "content" VNone) = false ->
  ClaudeClient.format_tool_result_for_claude tool_call_id tool_result
  = ok [("type", VStr "tool_result");
        ("tool_use_id", tool_call_id);
        ("content", VStr (Json.dumps (VDict tool_result)))].
Proof.
  intros Hfalsy. unfold ClaudeClient.format_tool_result_for_claude.
  rewrite Hfalsy, andb_false_r. reflexivity.
Qed.

Lemma format_without_content_witness :
  ClaudeClient.format_tool_result_for_claude (VStr "toolu_01")
    [("content", VNone); ("isError", VBool false)]
  = ok [("type", VStr "tool_result");
        ("tool_use_id", VStr "toolu_01");
        ("content",
         VStr (Json.dumps (VDict [("content", VNone); ("isError", VBool false)])))].
Proof.
  apply (@format_without_content (VStr "toolu_01")
           [("content", VNone); ("isError", VBool false)]).
  reflexivity.
Defined.

(** ** The serialization of the fallback *)

Lemma all_printable_app (s t : string) :
  all_printable (s ++ t) = (all_printable s && all_printable t)%bool.
Proof.
  induction s as [|c s IH]; simpl; [reflexivity|].
  now rewrite IH, andb_assoc.
Qed.

Lemma escape_char_printable (c : ascii) :
  all_printable (Json.escape_char c) = true.
Proof. destruct c as [[] [] [] [] [] [] [] []]; reflexivity. Qed.

Lemma escape_printable (s : string) : all_printable (Json.escape s) = true.
Proof.
  induction s as [|c s IH]; simpl; [reflexivity|].
  now rewrite all_printable_app, escape_char_printable, IH.
Qed.

Lemma quote_printable (s : string) : all_printable (Json.quote s) = true.
Proof.
  unfold Json.quote. now rewrite !all_printable_app, escape_printable.
Qed.

Lemma uint_printable (d : Decimal.uint) :
  all_printable (NilEmpty.string_of_uint d) = true.
Proof. induction d; simpl; auto. Qed.

Lemma dumps_int_printable (z : Z) : all_printable (Json.dumps_int z) = true.
Proof.
  unfold Json.dumps_int, NilZero.string_of_int, NilZero.string_of_uint.
  destruct (Z.to_int z) as [d|d]; destruct d; simpl;
    try reflexivity; apply uint_printable.
Qed.

Lemma join_printable (parts : list string) :
  Forall (fun p => all_printable p = true) parts ->
  all_printable (Json.join ", " parts) = true.
Proof.
  induction 1 as [|p ps Hp Hps IH]; [reflexivity|].
  destruct ps as [|q ps]; [exact Hp|].
  change (Json.join ", " (p :: q :: ps)) with (p ++ ", " ++ Json.join ", " (q :: ps)).
  now rewrite !all_printable_app, Hp, IH.
Qed.

(** [json.dumps] with [ensure_ascii] writes printable ASCII only. *)
Lemma dumps_printable : forall v : value, all_printable (Json.dumps v) = true.
Proof.
  fix IH 1. intros [| [|] | z | s | l | d]; try reflexivity.
  - apply dumps_int_printable.
  - apply quote_printable.
  - cbn [Json.dumps]. rewrite !all_printable_app.
    rewrite join_printable; [reflexivity|].
    induction l as [|x l IHl]; constructor; [apply IH | exact IHl].
  - cbn [Json.dumps]. rewrite !all_printable_app.
    rewrite join_printable; [reflexivity|].
    induction d as [|[k x] d IHd]; constructor; [|exact IHd].
    cbn [fst snd]. now rewrite !all_printable_app, quote_printable, IH.
Qed.

(** X8.  When a well-formed result has no text, the content of its block
    is printable ASCII throughout, whatever characters the result holds,
    and it is a JSON object: it starts with an opening brace. *)
Theorem fallback_is_printable_ascii (tool_call_id : value) (tool_result : pydict) :
  wf_result tool_result = true ->
  result_text tool_result = "" ->
  exists rest,
    ClaudeClient.format_tool_result_for_claude tool_call_id tool_result
    = ok [("type", VStr "tool_result");
          ("tool_use_id", tool_call_id);
          ("content", VStr (String "{" rest))] /\
    all_printable (String "{" rest) = true.
Proof.
  intros Hwf Hempty. rewrite (format_wf _ _ Hwf), Hempty. simpl String.eqb.
  pose proof (dumps_printable (VDict tool_result)) as Hp.
  cbn [Json.dumps] in *. simpl append in *.
  eexists. split; [reflexivity | exact Hp].
Qed.

Lemma fallback_is_printable_ascii_witness :
  exists rest,
    ClaudeClient.format_tool_result_for_claude (VStr "toolu_01")
      [("content", VList [VDict [("type", VStr "image");
                                 ("data", VStr SimpleServer.degree)]])]
    = ok [("type", VStr "tool_result");
          ("tool_use_id", VStr "toolu_01");
          ("content", VStr (String "{" rest))] /\
    all_printable (String "{" rest) = true.
Proof.
  apply (@fallback_is_printable_ascii (VStr "toolu_01")
           [("content", VList [VDict [("type", VStr "image");
                                      ("data", VStr SimpleServer.degree)]])]);
    reflexivity.
Defined.

(** ** [MCPClient]: [connect] and [cleanup] *)

Lemma connect_shape (w : World) (p : string) (st : state) r st' :
  connect w p st = (r, st') ->
  (exists e,
      r = inl e /\
      trace st' = (trace st ++ [EvEnter StdioTransport (inl e)])%list /\
      exit_stack st' = exit_stack st /\
      session st' = session st) \/
  (exists e,
      r = inl e /\
      trace st' = (trace st ++ [EvEnter StdioTransport (inr tt);
                                EvEnter SessionCtx (inl e)])%list /\
      exit_stack st' = StdioTransport :: exit_stack st /\
      session st' = session st) \/
  (trace st' = (trace st ++ [EvEnter StdioTransport (inr tt);
                             EvEnter SessionCtx (inr tt);
                             EvInitialize r])%list /\
   exit_stack st' = SessionCtx :: StdioTransport :: exit_stack st /\
   session st' = true).
Proof.
  unfold connect, enter_async_context, bind, external, ask, lift, ret,
    get_state, set_exit_stack, set_session. simpl.
  destruct (enter_ctx w (trace st) StdioTransport) as [e|[]] eqn:H1; simpl.
  { intros [= <- <-]. left. exists e. auto. }
  destruct (enter_ctx w _ SessionCtx) as [e|[]] eqn:H2; simpl.
  { intros [= <- <-]. right. left. exists e. simpl. rewrite <- app_assoc. auto. }
  destruct (sdk_initialize w _) as [e|init] eqn:H3; simpl; intros [= <- <-];
    right; right; simpl; rewrite <- !app_assoc; auto.
Qed.

(** X9.  [connect] takes its three steps in order and stops at the first
    that fails: the [ClientSession] context is entered only after the
    transport, [initialize()] is sent only after both.  What was entered
    stays on the exit stack, so that [cleanup] will exit it.  The session
    attribute is set once the [ClientSession] context is entered, also when
    [initialize()] then raises; the result of [connect] is that of
    [initialize()]. *)
Theorem connect_stops_at_first_failure
    (w : World) (p : string) (st : state) r st' :
  connect w p st = (r, st') ->
  (exists e,
      r = inl e /\
      trace st' = (trace st ++ [EvEnter StdioTransport (inl e)])%list /\
      exit_stack st' = exit_stack st /\
      session st' = session st) \/
  (exists e,
      r = inl e /\
      trace st' = (trace st ++ [EvEnter StdioTransport (inr tt);
                                EvEnter SessionCtx (inl e)])%list /\
      exit_stack st' = StdioTransport :: exit_stack st /\
      session st' = session st) \/
  (trace st' = (trace st ++ [EvEnter StdioTransport (inr tt);
                             EvEnter SessionCtx (inr tt);
                             EvInitialize r])%list /\
   exit_stack st' = SessionCtx :: StdioTransport :: exit_stack st /\
   session st' = true).
Proof. apply connect_shape. Qed.

Lemma connect_stops_at_first_failure_witness :
  trace Examples.after_failed_connect
  = [EvEnter StdioTransport (inr tt); EvEnter SessionCtx (inr tt);
     EvInitialize (raise (SdkError "initialize: connection closed"))] /\
  exit_stack Examples.after_failed_connect = [SessionCtx; StdioTransport] /\
  session Examples.after_failed_connect = true.
Proof.
  destruct (@connect_stops_at_first_failure Examples.failing_init_world
              server_path initial_state _ _ eq_refl)
    as [(e & _ & Habs & _) | [(e & _ & Habs & _) | H]];
    [discriminate Habs | discriminate Habs | exact H].
Defined.

Lemma aclose_loop_order (w : World) (stack : list ctx) :
  forall pending st r st',
    aclose_loop w stack pending st = (r, st') ->
    exists exits,
      trace st' = (trace st ++ exits)%list /\
      forallb is_exit exits = true /\
      exited exits = stack /\
      entered exits = [] /\
      session st' = session st /\
      (pending = None -> existsb exit_raised exits = false -> r = ok tt).
Proof.
  induction stack as [|c rest IH]; intros pending st r st' H.
  - exists []. simpl in *. rewrite app_nil_r.
    destruct pending as [e|]; injection H as <- <-; repeat split; auto.
    discriminate.
  - cbn [aclose_loop] in H.
    unfold bind at 1, set_exit_stack in H. cbn beta iota in H.
    unfold bind at 1, ask in H. cbn beta iota zeta in H.
    set (o := exit_ctx w _ c) in H.
    set (st1 := log (EvExit c o) _) in H.
    assert (Hnext : exists pending',
               aclose_loop w rest pending' st1 = (r, st') /\
               (pending = None -> exit_raised (EvExit c o) = false ->
                pending' = None)).
    { destruct o as [e|[|]]; eexists; (split; [exact H|]); simpl; auto.
      discriminate. }
    destruct Hnext as (pending' & Hrun & Hpend).
    apply IH in Hrun as (exits & Htr & Hex & Hord & Hent & Hs & Hr).
    exists (EvExit c o :: exits). simpl in Htr. rewrite <- app_assoc in Htr.
    split; [exact Htr|]. split; [exact Hex|].
    split; [unfold exited in *; simpl; now rewrite Hord|].
    split; [unfold entered in *; simpl; exact Hent|].
    split; [exact Hs|].
    intros Hp Hno. cbn [existsb] in Hno. apply orb_false_iff in Hno as [Hc Hrest].
    apply Hr; auto.
Qed.

Lemma cleanup_empties_stack (w : World) (st : state) :
  exit_stack (snd (cleanup w st)) = [].
Proof.
  destruct (cleanup w st) as [r st'] eqn:Hclean.
  unfold cleanup, aclose, bind, get_state in Hclean. cbn beta iota in Hclean.
  apply aclose_loop_spec in Hclean as (exits & _ & _ & _ & Hstack & _).
  simpl. rewrite Hstack. now destruct (exit_stack st).
Qed.

Lemma cleanup_spec (w : World) (st : state) :
  exists exits,
    trace (snd (cleanup w st)) = (trace st ++ exits)%list /\
    forallb is_exit exits = true /\
    exited exits = exit_stack st /\
    exit_stack (snd (cleanup w st)) = [] /\
    session (snd (cleanup w st)) = session st /\
    (existsb exit_raised exits = false -> fst (cleanup w st) = ok tt).
Proof.
  pose proof (cleanup_empties_stack w st) as Hstack.
  destruct (cleanup w st) as [r st'] eqn:Hclean.
  unfold cleanup, aclose, bind, get_state in Hclean. cbn beta iota in Hclean.
  apply aclose_loop_order in Hclean as (exits & Htr & Hex & Hord & _ & Hs & Hr).
  exists exits. simpl. repeat split; auto.
Qed.


(** X10.  [cleanup] exits every context on the exit stack exactly once,
    the last entered first, whatever the exits answer; afterwards the stack
    is empty, and the session attribute is what it was.  It returns
    normally when no exit raised. *)
Theorem cleanup_exits_last_entered_first (w : World) (st : state) :
  exists exits,
    trace (snd (cleanup w st)) = (trace st ++ exits)%list /\
    forallb is_exit exits = true /\
    exited exits = exit_stack st /\
    exit_stack (snd (cleanup w st)) = [] /\
    session (snd (cleanup w st)) = session st /\
    (existsb exit_raised exits = false -> fst (cleanup w st) = ok tt).
Proof. apply cleanup_spec. Qed.

(** X11.  A second [cleanup] does nothing: no exit is run again and it
    returns normally, whatever the first one did. *)
Theorem cleanup_twice (w : World) (st : state) :
  cleanup w (snd (cleanup w st)) = (ok tt, snd (cleanup w st)).
Proof.
  pose proof (cleanup_empties_stack w st) as Hstack.
  unfold cleanup at 1, aclose, bind, get_state. cbn beta iota.
  unfold ok at 1. cbn beta iota. now rewrite Hstack.
Qed.

(** X12.  [cleanup] does not reset the session attribute: a client that
    was connected and then cleaned up still passes the guard of
    [list_tools], which sends its request over the closed session. *)
Theorem closed_client_passes_guard (w : World) (st : state) :
  session st = true ->
  list_tools w (snd (cleanup w st))
  = (sdk_list_tools w (trace (snd (cleanup w st))),
     log (EvListTools (sdk_list_tools w (trace (snd (cleanup w st)))))
       (snd (cleanup w st))).
Proof.
  intros Hs.
  destruct (cleanup_spec w st) as (exits & _ & _ & _ & _ & Hs' & _).
  rewrite <- Hs' in Hs.
  destruct (list_tools w (snd (cleanup w st))) as [r st'] eqn:Hl.
  apply list_tools_inv in Hl; [|exact Hs]. destruct Hl as [-> ->]. reflexivity.
Qed.

Lemma closed_client_passes_guard_witness :
  fst (list_tools Examples.calc_world (snd (cleanup Examples.calc_world connected_client)))
  = ok [Examples.calculate_tool; Examples.bare_tool].
Proof.
  rewrite (@closed_client_passes_guard Examples.calc_world connected_client eq_refl).
  reflexivity.
Defined.

(** ** The workflow: what a run never does *)

Lemma extract_response_closed (response : ApiResponse) (calls : list pydict) :
  ClaudeClient.extract_tool_calls (response_dict response) = inr calls ->
  calls = map tool_call_of (filter is_tool_use (resp_content response)).
Proof.
  unfold ClaudeClient.extract_tool_calls. rewrite response_dict_content. simpl.
  destruct (forallb wf_block (resp_content response)) eqn:Hwf.
  - rewrite (extract_loop_closed _ Hwf). now intros [= <-].
  - destruct (extract_loop_malformed _ Hwf []) as (key & -> & _). discriminate.
Qed.

Lemma invoked_names (calls : list pydict) :
  forall outcomes,
    map fst (invoked calls outcomes)
    = firstn (List.length outcomes)
        (map (fun call => (get call "name" VNone, get call "input" VNone)) calls).
Proof.
  induction calls as [|c cs IH]; intros [|o os]; try reflexivity.
  rewrite invoked_cons. simpl. now rewrite IH.
Qed.

(** X13.  A run never invokes a capability the model did not ask for:
    the invocations, read in order, are the names and inputs of the first
    [tool_use] blocks of the planning response, in block order, each at
    most once.  Without a planning response nothing is invoked.  And a run
    never sends more than two requests to the model. *)
Theorem invokes_only_what_was_requested (w : World) (q : string) :
  match model_requests (trace (snd (run w q))) with
  | (_, inr r1) :: _ =>
      exists n, map fst (invocations (trace (snd (run w q))))
                = firstn n (requested (resp_content r1))
  | _ => invocations (trace (snd (run w q))) = []
  end /\
  (List.length (model_requests (trace (snd (run w q)))) <= 2)%nat.
Proof.
  destruct (run_view_ok w q) as (body_out & Hview & _).
  inversion Hview as [e Hreq Hinv Hpr|e tools Hreq Hinv Hpr
                     |e tools r Hext Hreq Hinv Hpr
                     |out tools r ls Hext Hwf Hreq Hinv Hpr
                     |e tools r calls outcomes blocks Hext Hne Hexec Hlt Hreq Hinv Hpr
                     |out tools r calls outcomes blocks o2 ls Hext Hne Hexec Hlen Hsyn
                        Hreq Hinv Hpr];
    simpl; (split; [|lia]); try reflexivity; try (exists 0%nat; reflexivity).
  - exists (List.length outcomes). rewrite invoked_names.
    rewrite (extract_response_closed _ Hext). unfold requested.
    rewrite map_map. reflexivity.
  - exists (List.length outcomes). rewrite invoked_names.
    rewrite (extract_response_closed _ Hext). unfold requested.
    rewrite map_map. reflexivity.
Qed.

(** X14.  Both requests of a run carry the same model, the same token
    limit of 1024 and the same tools; the conversation of the second
    starts with the one message of the first. *)
Theorem synthesis_request_repeats_plan_request
    (w : World) (q : string) (kw1 kw2 : pydict) (o1 o2 : result ApiResponse)
    (rest : list (pydict * result ApiResponse)) :
  model_requests (trace (snd (run w q))) = (kw1, o1) :: (kw2, o2) :: rest ->
  lookup "model" kw2 = lookup "model" kw1 /\
  lookup "max_tokens" kw1 = Some (VInt 1024) /\
  lookup "max_tokens" kw2 = Some (VInt 1024) /\
  lookup "tools" kw2 = lookup "tools" kw1 /\
  lookup "messages" kw1 = Some (VList [VDict (user_message q)]) /\
  exists later,
    lookup "messages" kw2 = Some (VList (VDict (user_message q) :: later)).
Proof.
  intros Hreq.
  destruct (run_view_ok w q) as (body_out & Hview & _).
  rewrite Hreq in Hview.
  inversion Hview as [| | | | |out tools r1 calls outcomes blocks o ls]; subst.
  unfold plan_request, synthesis_request, ClaudeClient.request_kwargs.
  destruct tools as [|t ts]; simpl; repeat split; eexists; reflexivity.
Qed.

Lemma synthesis_request_repeats_plan_request_witness :
  map (fun kr => lookup "tools" (fst kr))
    (model_requests (trace (snd (run Examples.calc_world Examples.calc_query))))
  = [Some (VList [VDict (claude_tool_of Examples.calculate_tool);
                  VDict (claude_tool_of Examples.bare_tool)]);
     Some (VList [VDict (claude_tool_of Examples.calculate_tool);
                  VDict (claude_tool_of Examples.bare_tool)])].
Proof.
  edestruct (@synthesis_request_repeats_plan_request
               Examples.calc_world Examples.calc_query)
    as (_ & _ & _ & Htools & _); [reflexivity|].
  reflexivity.
Defined.

(** X15.  An error of the Model Service is fatal and is passed on as it
    is: the failed request is the last request of the run (no retry), no
    answer line is printed at all, and the run raises that very error
    (unless an exit raises during [cleanup]). *)
Theorem model_error_is_fatal
    (w : World) (q : string) (kwargs : pydict) (e : exn) :
  In (kwargs, inl e) (model_requests (trace (snd (run w q)))) ->
  (exists before,
      model_requests (trace (snd (run w q))) = (before ++ [(kwargs, inl e)])%list) /\
  printed (trace (snd (run w q))) = [] /\
  (fst (run w q) = inl e \/
   exists e' c, fst (run w q) = inl e' /\
                In (EvExit c (inl e')) (trace (snd (run w q)))).
Proof.
  intros Hin.
  destruct (run_view_ok w q) as (body_out & Hview & Hout).
  remember (model_requests (trace (snd (run w q)))) as reqs eqn:Hreqs.
  remember (invocations (trace (snd (run w q)))) as invs eqn:Hinvs.
  remember (printed (trace (snd (run w q)))) as lines eqn:Hlines.
  clear Hreqs Hinvs Hlines.
  assert (Hgoal : (exists before, reqs = (before ++ [(kwargs, inl e)])%list) /\
                  lines = [] /\ body_out = inl e).
  { clear Hout.
    inversion Hview as [| | | | |out tools r calls outcomes blocks o2 ls
                                  Hext Hne Hexec Hlen Hsyn]; subst;
      simpl in Hin;
      repeat match goal with
             | H : _ \/ _ |- _ => destruct H
             | H : False |- _ => contradiction
             | H : (_, _) = (_, _) |- _ => inversion H; clear H; subst
             end.
    - split; [exists []; reflexivity | auto].
    - unfold synthesis_outcome in Hsyn. destruct Hsyn as [-> ->].
      split; [eexists [_]; reflexivity | auto]. }
  destruct Hgoal as (Hlast & Hpr & ->).
  split; [exact Hlast|]. split; [exact Hpr|].
  destruct Hout as [Hout | Hout]; [left | right]; auto.
Qed.

Lemma model_error_is_fatal_witness :
  fst (run overloaded_world "Hi") = raise (SdkError "overloaded").
Proof.
  edestruct (@model_error_is_fatal overloaded_world "Hi")
    as (_ & _ & [Hout | (e' & c & _ & Hin)]);
    [left; reflexivity | exact Hout | ].
  vm_compute in Hin.
  repeat (destruct Hin as [Hin | Hin]; [discriminate Hin|]). contradiction.
Defined.

Lemma executed_returned calls outcomes blocks :
  executed calls outcomes blocks ->
  List.length blocks = List.length outcomes ->
  Forall (fun i => exists mcp_result : pydict, snd i = inr mcp_result)
    (invoked calls outcomes).
Proof.
  induction 1 as [|call calls outcome outcomes block blocks Hfmt Hex IH
                  |call calls outcome Hfmt]; simpl; intros Hlen.
  - constructor.
  - rewrite invoked_cons. constructor; [|apply IH; lia].
    unfold tool_result_for in Hfmt. destruct outcome as [e|res]; [discriminate|].
    simpl. eauto.
  - discriminate.
Qed.

Lemma executed_stopped calls outcomes blocks :
  executed calls outcomes blocks ->
  (List.length blocks < List.length outcomes)%nat ->
  exists before call outcome,
    invoked calls outcomes = (before ++ [invocation_of call outcome])%list /\
    tool_result_for call outcome = None /\
    Forall (fun i => exists mcp_result : pydict, snd i = inr mcp_result) before.
Proof.
  induction 1 as [|call calls outcome outcomes block blocks Hfmt Hex IH
                  |call calls outcome Hfmt]; simpl; intros Hlen.
  - lia.
  - destruct IH as (before & c & o & Heq & Hnone & Hall); [lia|].
    exists (invocation_of call outcome :: before), c, o.
    rewrite invoked_cons, Heq. split; [reflexivity|]. split; [exact Hnone|].
    constructor; [|exact Hall].
    unfold tool_result_for in Hfmt. destruct outcome as [e|res]; [discriminate|].
    simpl. eauto.
  - exists [], call, outcome. rewrite invoked_cons, invoked_nil. auto.
Qed.

(** X16.  An invocation that raises (the SDK call itself fails, as
    opposed to a result that reports an error) ends the batch: it is the
    last invocation of the run, no synthesis request is sent, no answer
    line is printed, and the run ends with an exception. *)
Theorem raising_invocation_ends_the_batch
    (w : World) (q : string) (name arguments : value) (e : exn) :
  In (name, arguments, inl e) (invocations (trace (snd (run w q)))) ->
  (exists before,
      invocations (trace (snd (run w q)))
      = (before ++ [(name, arguments, inl e)])%list) /\
  List.length (model_requests (trace (snd (run w q)))) = 1%nat /\
  printed (trace (snd (run w q))) = [] /\
  exists e', fst (run w q) = inl e'.
Proof.
  intros Hin.
  destruct (run_view_ok w q) as (body_out & Hview & Hout).
  remember (model_requests (trace (snd (run w q)))) as reqs eqn:Hreqs.
  remember (invocations (trace (snd (run w q)))) as invs eqn:Hinvs.
  remember (printed (trace (snd (run w q)))) as lines eqn:Hlines.
  clear Hreqs Hinvs Hlines.
  assert (Hgoal : (exists before, invs = (before ++ [(name, arguments, inl e)])%list) /\
                  List.length reqs = 1%nat /\
                  lines = [] /\
                  exists e0, body_out = inl e0).
  { inversion Hview as [| | | |e0 tools r calls outcomes blocks Hext Hne Hexec Hlt
                       |out tools r calls outcomes blocks o2 ls
                          Hext Hne Hexec Hlen Hsyn]; subst;
      try contradiction.
    - destruct (executed_stopped Hexec Hlt) as (before & c & o & Heq & Hnone & Hall).
      rewrite Heq in Hin. apply in_app_or in Hin as [Hin | [Hin | []]].
      + rewrite Forall_forall in Hall. destruct (Hall _ Hin) as (res & Habs).
        discriminate.
      + rewrite Heq, Hin. repeat split; eauto.
    - exfalso. destruct (executed_lengths Hexec) as (H1 & H2 & _).
      assert (Hall : List.length blocks = List.length outcomes) by lia.
      apply (executed_returned Hexec) in Hall. rewrite Forall_forall in Hall.
      destruct (Hall _ Hin) as (res & Habs). discriminate. }
  destruct Hgoal as (Hlast & Hone & Hpr & e0 & ->).
  repeat split; auto.
  destruct Hout as [Hout | (e' & c & Hout & _)]; eauto.
Qed.

Lemma raising_invocation_ends_the_batch_witness :
  invocations (trace (snd (run broken_tool_world "1 + 1?")))
  = [(VStr "calculate", VDict [("expression", VStr "1 + 1")],
      raise (SdkError "connection lost"))] /\
  List.length (model_requests (trace (snd (run broken_tool_world "1 + 1?")))) = 1%nat.
Proof.
  edestruct (@raising_invocation_ends_the_batch broken_tool_world "1 + 1?")
    as (_ & Hone & _); [left; reflexivity|].
  split; [reflexivity | exact Hone].
Defined.

(** ** The workflow: discovery comes first *)

Section Prefix.

Variable w : World.

Lemma after_setup_silent :
  forall evs, forallb after_setup evs = true ->
    entered evs = [] /\ exited evs = [] /\
    forall e ev, In ev evs -> ~ failed_with e ev.
Proof.
  induction evs as [|ev evs IH]; simpl; intros H.
  - repeat split; auto.
  - apply andb_true_iff in H as [Hev Hevs].
    destruct (IH Hevs) as (Hent & Hex & Hfail).
    destruct ev; try discriminate; unfold entered, exited in *; simpl;
      (split; [exact Hent|]; split; [exact Hex|]);
      intros e ev' [<- | Hin] Hf; try (now apply (Hfail e ev'));
      destruct Hf as [(c & Hf) | [Hf | Hf]]; discriminate.
Qed.

Ltac emits_more :=
  first
    [ apply emits_ret
    | apply emits_lift
    | apply emits_print; reflexivity
    | apply emits_call_claude; intros; reflexivity
    | apply emits_execute_loop; intros; reflexivity
    | apply emits_report_loop; intros; reflexivity
    | apply emits_bind; [|intros] ].

(** Phases 1 and 2 either fail, or they are followed by the planning
    request, which carries the converted tools. *)
Lemma workflow_prefix (q : string) (st : state) out st' :
  workflow_body w q st = (out, st') ->
  (exists e evs stack,
      out = inl e /\ setup_failure e evs stack /\
      trace st' = (trace st ++ evs)%list /\
      exit_stack st' = (stack ++ exit_stack st)%list) \/
  (exists init mcp_tools claude_tools o1 rest,
      ClaudeClient.convert_mcp_tools_to_claude_format mcp_tools = ok claude_tools /\
      trace st' = (trace st ++ discovered init mcp_tools
                     ++ EvCreate (plan_request q claude_tools) o1 :: rest)%list /\
      forallb after_setup rest = true /\
      exit_stack st' = ([SessionCtx; StdioTransport] ++ exit_stack st)%list).
Proof.
  unfold workflow_body. intros H.
  apply bind_inv in H as [(e & Hc & ->) | (init & st1 & Hc & H)];
    apply connect_shape in Hc
      as [(e' & He & Htr & Hstack & _) | [(e' & He & Htr & Hstack & _)
                                         | (Htr & Hstack & Hsess)]];
    try discriminate.
  - injection He as <-. left.
    exists e, [EvEnter StdioTransport (inl e)], [].
    split; [reflexivity|]. split; [constructor|]. auto.
  - injection He as <-. left.
    exists e, [EvEnter StdioTransport (inr tt); EvEnter SessionCtx (inl e)],
      [StdioTransport].
    split; [reflexivity|]. split; [constructor|]. auto.
  - left.
    exists e, [EvEnter StdioTransport (inr tt); EvEnter SessionCtx (inr tt);
               EvInitialize (inl e)], [SessionCtx; StdioTransport].
    split; [reflexivity|]. split; [constructor|]. auto.
  - apply bind_inv in H as [(e & Hl & ->) | (mcp_tools & st2 & Hl & H)];
      (apply list_tools_inv in Hl; [|exact Hsess]); destruct Hl as [Hr ->].
    { left.
      exists e, [EvEnter StdioTransport (inr tt); EvEnter SessionCtx (inr tt);
                 EvInitialize (inr init); EvListTools (inl e)],
        [SessionCtx; StdioTransport].
      split; [reflexivity|]. split; [apply (list_tools_failed e init)|].
      simpl. rewrite Htr, <- app_assoc. simpl. auto. }
    apply bind_inv in H as [(e & Hl & ->) | (claude_tools & st3 & Hl & H)];
      apply lift_inv in Hl as [Hconv ->].
    { left.
      exists e, (discovered init mcp_tools), [SessionCtx; StdioTransport].
      split; [reflexivity|]. split; [apply (convert_failed init); now symmetry|].
      simpl. rewrite Htr, <- app_assoc. simpl. auto. }
    right. exists init, mcp_tools, claude_tools.
    apply bind_inv in H as [(e & Hcc & ->) | (planning & st3 & Hcc & H)];
      apply call_claude_inv in Hcc as (o1 & -> & Ho).
    { exists o1, []. split; [now symmetry|]. simpl.
      rewrite Htr, <- !app_assoc. simpl. auto. }
    match type of H with
    | ?m _ = _ => assert (Hem : emits after_setup m)
    end.
    { repeat emits_more. destruct a; repeat emits_more. }
    match type of H with
    | _ ?s = _ => destruct (Hem s) as (rest & Htr' & HP & _ & Hx)
    end.
    rewrite H in Htr', Hx. simpl in Htr', Hx.
    exists o1, rest. split; [now symmetry|].
    rewrite Htr', Hx, Htr, Hstack, <- !app_assoc. simpl. auto.
Qed.

End Prefix.

Lemma try_finally_inv {A} (body : M A) (fin : M unit) (st : state) :
  exists r1 st1 r2 st2,
    body st = (r1, st1) /\ fin st1 = (r2, st2) /\
    try_finally body fin st
    = (match r2 with inl e => inl e | inr _ => r1 end, st2).
Proof.
  unfold try_finally.
  destruct (body st) as [r1 st1] eqn:Hbody.
  destruct (fin st1) as [r2 st2] eqn:Hfin.
  exists r1, st1, r2, st2. rewrite Hfin.
  destruct r2; repeat split; reflexivity.
Qed.

Lemma run_prefix (w : World) (q : string) :
  (run w q = (raise missing_key, initial_state) /\
   (getenv_api_key w = None \/ getenv_api_key w = Some "")) \/
  (exists api_key, getenv_api_key w = Some api_key /\ api_key <> "") /\
  ((exists e evs stack exits,
       setup_failure e evs stack /\
       trace (snd (run w q)) = (evs ++ exits)%list /\
       forallb is_exit exits = true /\
       exited exits = stack /\ entered exits = [] /\
       (fst (run w q) = inl e \/
        exists e' c, fst (run w q) = inl e' /\ In (EvExit c (inl e')) exits)) \/
   (exists init mcp_tools claude_tools o1 rest exits,
       ClaudeClient.convert_mcp_tools_to_claude_format mcp_tools = ok claude_tools /\
       trace (snd (run w q))
       = (discovered init mcp_tools
          ++ EvCreate (plan_request q claude_tools) o1 :: rest ++ exits)%list /\
       forallb after_setup rest = true /\
       forallb is_exit exits = true /\
       exited exits = [SessionCtx; StdioTransport] /\ entered exits = [])).
Proof.
  unfold run, run_poc_workflow.
  destruct (getenv_api_key w) as [api_key|]; [|left; auto].
  destruct (String.eqb_spec api_key "") as [-> | Hkey]; [left; auto|].
  right. split; [eauto|].
  destruct (try_finally_inv (workflow_body w q) (cleanup w) initial_state)
    as (body_out & st1 & cout & st2 & Hbody & Hclean & ->).
  unfold cleanup, aclose, bind, get_state in Hclean. cbn beta iota in Hclean.
  pose proof Hclean as Hclean'.
  apply aclose_loop_order in Hclean as (exits & Htr2 & Hexits & Hord & Hent & _ & _).
  apply aclose_loop_spec in Hclean' as (exits' & Htr2' & _ & _ & _ & Hr).
  rewrite Htr2 in Htr2'. apply app_inv_head in Htr2'. subst exits'.
  cbn [fst snd]. rewrite Htr2.
  assert (Hfst : match cout with inl e => inl e | inr _ => body_out end = body_out \/
                 exists e' c, match cout with inl e => inl e | inr _ => body_out end
                              = inl e' /\ In (EvExit c (inl e')) exits).
  { destruct Hr as [-> | (e & -> & [Habs | (c & Hin)])];
      [now left | discriminate
      | right; exists e, c; split; [reflexivity | exact Hin]]. }
  apply workflow_prefix in Hbody
    as [(e & evs & stack & -> & Hfail & Htr & Hstack)
       | (init & mcp_tools & claude_tools & o1 & rest & Hconv & Htr & Hrest & Hstack)];
    simpl in Htr, Hstack; rewrite ?app_nil_r in Hstack.
  - left. exists e, evs, stack, exits. rewrite Htr. rewrite Hstack in Hord.
    split; [exact Hfail|]. split; [reflexivity|]. split; [exact Hexits|].
    split; [exact Hord|]. split; [exact Hent | exact Hfst].
  - right. exists init, mcp_tools, claude_tools, o1, rest, exits.
    rewrite Htr. rewrite Hstack in Hord. simpl. rewrite <- ?app_assoc.
    split; [exact Hconv|]. split; [reflexivity|]. split; [exact Hrest|].
    split; [exact Hexits|]. split; [exact Hord | exact Hent].
Qed.

Lemma setup_failure_silent e evs stack :
  setup_failure e evs stack ->
  model_requests evs = [] /\ invocations evs = [] /\ printed evs = [] /\
  entered evs = rev stack /\ exited evs = [] /\
  exists o rest, evs = EvEnter StdioTransport o :: rest.
Proof.
  destruct 1; (split; [reflexivity|]); (split; [reflexivity|]);
    (split; [reflexivity|]); (split; [reflexivity|]); (split; [reflexivity|]);
    eexists; eexists; reflexivity.
Qed.

(** X17.  The API key is checked before anything else: without a key, or
    with an empty one, the run raises [ValueError] and no process is
    started, no request sent, nothing exited.  With a key, the first thing
    a run does is to open the transport. *)
Theorem api_key_is_checked_first (w : World) (q : string) :
  (getenv_api_key w = None \/ getenv_api_key w = Some "" ->
   run w q = (raise missing_key, initial_state)) /\
  (forall api_key,
      getenv_api_key w = Some api_key -> api_key <> "" ->
      exists o rest, trace (snd (run w q)) = EvEnter StdioTransport o :: rest).
Proof.
  split.
  - unfold run, run_poc_workflow. intros [-> | ->]; reflexivity.
  - intros api_key Hkey Hne.
    destruct (run_prefix w q)
      as [[_ [Habs | Habs]]
         | [_ [(e & evs & stack & exits & Hfail & -> & _)
              | (init & tools & ct & o1 & rest & exits & _ & -> & _)]]].
    + congruence.
    + rewrite Hkey in Habs. injection Habs as ->. contradiction.
    + destruct (setup_failure_silent Hfail) as (_ & _ & _ & _ & _ & o & r & ->).
      simpl. eauto.
    + simpl. eauto.
Qed.

(** X18.  The model is consulted only after discovery went through.  When
    a run sends a request to the model, its trace starts with the two
    contexts entered, [initialize()] and [list_tools()] answered with
    success, then the request; every listed tool has a name, and the
    request carries the one user message with the query, the token limit
    1024 and the conversion of exactly the listed tools, in order. *)
Theorem discovery_precedes_planning
    (w : World) (q : string) (kw1 : pydict) (o1 : result ApiResponse)
    (rest : list (pydict * result ApiResponse)) :
  model_requests (trace (snd (run w q))) = (kw1, o1) :: rest ->
  exists init mcp_tools later,
    trace (snd (run w q))
    = (discovered init mcp_tools ++ EvCreate kw1 o1 :: later)%list /\
    forallb is_descriptor mcp_tools = true /\
    kw1 = ClaudeClient.request_kwargs [user_message q]
            (Some (map claude_tool_of mcp_tools)) 1024.
Proof.
  intros Hreq.
  destruct (run_prefix w q)
    as [[Hrun _]
       | [_ [(e & evs & stack & exits & Hfail & Htr & Hexits & _)
            | (init & tools & ct & o & later & exits & Hconv & Htr & _)]]].
  - rewrite Hrun in Hreq. discriminate.
  - destruct (setup_failure_silent Hfail) as (Hnone & _).
    destruct (exit_silent _ Hexits) as (Hx & _).
    rewrite Htr, model_requests_app, Hnone, Hx in Hreq. discriminate.
  - rewrite Htr in Hreq. simpl in Hreq. injection Hreq as <- <- _.
    pose proof (convert_loop_closed tools []) as Hclosed.
    fold (ClaudeClient.convert_mcp_tools_to_claude_format tools) in Hclosed.
    exists init, tools, (later ++ exits)%list.
    split; [exact Htr|].
    rewrite Hclosed in Hconv.
    destruct (forallb is_descriptor tools); [|discriminate].
    injection Hconv as <-. split; reflexivity.
Qed.

Lemma discovery_precedes_planning_witness :
  exists later,
    trace (snd (run Examples.calc_world Examples.calc_query))
    = (discovered Examples.handshake [Examples.calculate_tool; Examples.bare_tool]
       ++ later)%list.
Proof.
  edestruct (@discovery_precedes_planning Examples.calc_world Examples.calc_query)
    as (init & mcp_tools & later & Htr & _); [reflexivity|].
  assert (Hfour : firstn 4 (trace (snd (run Examples.calc_world Examples.calc_query)))
                  = discovered init mcp_tools) by (rewrite Htr; reflexivity).
  vm_compute in Hfour. injection Hfour as <- <-.
  eexists. exact Htr.
Defined.

Lemma exits_report_no_failure (exits : list event) :
  forallb is_exit exits = true ->
  forall e ev, In ev exits -> ~ failed_with e ev.
Proof.
  intros Hexits e ev Hin Hf. rewrite forallb_forall in Hexits.
  specialize (Hexits _ Hin).
  destruct Hf as [(c & ->) | [-> | ->]]; discriminate.
Qed.

(** X19.  A failure of phase 1 or 2 is fatal.  When entering a context,
    [initialize()] or [list_tools()] raises, the model is never consulted,
    no capability is invoked, no answer line is printed, and the run
    raises that exception (unless an exit raises during [cleanup]). *)
Theorem setup_failure_is_fatal (w : World) (q : string) (e : exn) (ev : event) :
  In ev (trace (snd (run w q))) ->
  failed_with e ev ->
  model_requests (trace (snd (run w q))) = [] /\
  invocations (trace (snd (run w q))) = [] /\
  printed (trace (snd (run w q))) = [] /\
  (fst (run w q) = inl e \/
   exists e' c, fst (run w q) = inl e' /\
                In (EvExit c (inl e')) (trace (snd (run w q)))).
Proof.
  intros Hin Hf.
  destruct (run_prefix w q)
    as [[Hrun _]
       | [_ [(e0 & evs & stack & exits & Hfail & Htr & Hexits & _ & _ & Hout)
            | (init & tools & ct & o & rest & exits & _ & Htr & Hrest & Hexits & _)]]].
  - rewrite Hrun in Hin. contradiction.
  - rewrite Htr in *.
    destruct (setup_failure_silent Hfail) as (H1 & H2 & H3 & _).
    destruct (exit_silent _ Hexits) as (Hx1 & Hx2 & Hx3 & _).
    rewrite model_requests_app, invocations_app, printed_app,
      H1, H2, H3, Hx1, Hx2, Hx3.
    repeat (split; [reflexivity|]).
    assert (He : e0 = e).
    { apply in_app_or in Hin as [Hin | Hin].
      - destruct Hfail; simpl in Hin;
          repeat (destruct Hin as [<- | Hin]);
          try contradiction;
          destruct Hf as [(c & Hf) | [Hf | Hf]]; try discriminate;
          now injection Hf.
      - exfalso. eapply exits_report_no_failure; eassumption. }
    subst e0. destruct Hout as [Hout | (e' & c & Hout & Hc)]; [now left|].
    right. exists e', c. split; [exact Hout|]. apply in_or_app. now right.
  - exfalso. rewrite Htr in Hin.
    apply in_app_or in Hin as [Hin | [<- | Hin]].
    + simpl in Hin. repeat (destruct Hin as [<- | Hin]); try contradiction;
        destruct Hf as [(c & Hf) | [Hf | Hf]]; discriminate.
    + destruct Hf as [(c & Hf) | [Hf | Hf]]; discriminate.
    + apply in_app_or in Hin as [Hin | Hin].
      * destruct (after_setup_silent _ Hrest) as (_ & _ & Hno).
        exact (Hno e ev Hin Hf).
      * eapply exits_report_no_failure; eassumption.
Qed.

Lemma setup_failure_is_fatal_witness :
  model_requests (trace (snd (run Examples.failing_init_world "Hi"))) = [] /\
  fst (run Examples.failing_init_world "Hi")
  = raise (SdkError "initialize: connection closed").
Proof.
  edestruct (@setup_failure_is_fatal Examples.failing_init_world "Hi"
               (SdkError "initialize: connection closed")
               (EvInitialize (raise (SdkError "initialize: connection closed"))))
    as (Hreq & _ & _ & [Hout | (e' & c & _ & Hin)]).
  - vm_compute. tauto.
  - right. left. reflexivity.
  - split; [exact Hreq | exact Hout].
  - vm_compute in Hin.
    repeat (destruct Hin as [Hin | Hin]; [discriminate Hin|]). contradiction.
Defined.

(** X20.  A listed tool without a name ends the run before the model is
    consulted: the conversion raises [KeyError('name')], no request is
    sent, nothing is invoked, and the run raises that error (unless an
    exit raises during [cleanup]). *)
Theorem nameless_tool_ends_the_run
    (w : World) (q : string) (mcp_tools : list pydict) :
  In (EvListTools (inr mcp_tools)) (trace (snd (run w q))) ->
  forallb is_descriptor mcp_tools = false ->
  model_requests (trace (snd (run w q))) = [] /\
  invocations (trace (snd (run w q))) = [] /\
  (fst (run w q) = raise (KeyError "name") \/
   exists e' c, fst (run w q) = inl e' /\
                In (EvExit c (inl e')) (trace (snd (run w q)))).
Proof.
  intros Hin Hbad.
  assert (Hconv : ClaudeClient.convert_mcp_tools_to_claude_format mcp_tools
                  = raise (KeyError "name")).
  { unfold ClaudeClient.convert_mcp_tools_to_claude_format.
    now rewrite convert_loop_closed, Hbad. }
  destruct (run_prefix w q)
    as [[Hrun _]
       | [_ [(e0 & evs & stack & exits & Hfail & Htr & Hexits & _ & _ & Hout)
            | (init & tools & ct & o & rest & exits & Hok & Htr & Hrest & Hexits & _)]]].
  - rewrite Hrun in Hin. contradiction.
  - rewrite Htr in *.
    destruct (setup_failure_silent Hfail) as (H1 & H2 & H3 & _).
    destruct (exit_silent _ Hexits) as (Hx1 & Hx2 & Hx3 & _).
    rewrite model_requests_app, invocations_app, H1, H2, Hx1, Hx2.
    repeat (split; [reflexivity|]).
    assert (He : e0 = KeyError "name").
    { apply in_app_or in Hin as [Hin | Hin].
      - destruct Hfail as [| | | |e0 init tools Hfailconv]; simpl in Hin;
          repeat (destruct Hin as [Hin | Hin]; try discriminate Hin);
          try contradiction.
        injection Hin as ->. rewrite Hconv in Hfailconv. now injection Hfailconv.
      - exfalso. rewrite forallb_forall in Hexits.
        specialize (Hexits _ Hin). discriminate. }
    subst e0. destruct Hout as [Hout | (e' & c & Hout & Hc)]; [now left|].
    right. exists e', c. split; [exact Hout|]. apply in_or_app. now right.
  - exfalso. rewrite Htr in Hin.
    apply in_app_or in Hin as [Hin | [Hin | Hin]].
    + simpl in Hin.
      repeat (destruct Hin as [Hin | Hin]; try discriminate Hin); try contradiction.
      injection Hin as ->. rewrite Hconv in Hok. discriminate.
    + discriminate.
    + apply in_app_or in Hin as [Hin | Hin].
      * rewrite forallb_forall in Hrest. specialize (Hrest _ Hin). discriminate.
      * rewrite forallb_forall in Hexits. specialize (Hexits _ Hin). discriminate.
Qed.

Lemma nameless_tool_ends_the_run_witness :
  model_requests (trace (snd (run nameless_tool_world "Hi"))) = [] /\
  fst (run nameless_tool_world "Hi") = raise (KeyError "name").
Proof.
  edestruct (@nameless_tool_ends_the_run nameless_tool_world "Hi"
               [Examples.calculate_tool; [("description", VStr "no name")]])
    as (Hreq & _ & [Hout | (e' & c & _ & Hin)]).
  - vm_compute. tauto.
  - reflexivity.
  - split; [exact Hreq | exact Hout].
  - vm_compute in Hin.
    repeat (destruct Hin as [Hin | Hin]; [discriminate Hin|]). contradiction.
Defined.

Lemma flat_map_app_ctx (f : event -> list ctx) (l1 l2 : list event) :
  flat_map f (l1 ++ l2) = (flat_map f l1 ++ flat_map f l2)%list.
Proof. induction l1 as [|x l1 IH]; simpl; [reflexivity | now rewrite IH, app_assoc]. Qed.

Lemma exits_enter_nothing (exits : list event) :
  forallb is_exit exits = true -> entered exits = [].
Proof.
  induction exits as [|[] exits IH]; simpl; intros H; try discriminate; auto.
Qed.

(** X21.  In every run the contexts are exited in the reverse order of
    their entry, each one that was entered exactly once: the session
    context before the transport.  All exits come after everything else. *)
Theorem run_exits_in_reverse_order (w : World) (q : string) :
  exited (trace (snd (run w q))) = rev (entered (trace (snd (run w q)))) /\
  exists evs exits,
    trace (snd (run w q)) = (evs ++ exits)%list /\
    exited evs = [] /\
    forallb is_exit exits = true.
Proof.
  destruct (run_prefix w q)
    as [[Hrun _]
       | [_ [(e0 & evs & stack & exits & Hfail & Htr & Hexits & Hord & Hent & _)
            | (init & tools & ct & o & rest & exits & _ & Htr & Hrest & Hexits
               & Hord & Hent)]]].
  - rewrite Hrun. split; [reflexivity|]. exists [], []. auto.
  - destruct (setup_failure_silent Hfail) as (_ & _ & _ & Hin & Hout & _).
    rewrite Htr. unfold exited, entered in *. rewrite !flat_map_app_ctx.
    rewrite Hin, Hout, Hord, Hent, app_nil_r, rev_involutive.
    split; [reflexivity|]. exists evs, exits. auto.
  - destruct (after_setup_silent _ Hrest) as (Hrin & Hrout & _).
    rewrite Htr. split.
    + unfold exited, entered in *.
      change (EvCreate (plan_request q ct) o :: rest ++ exits)%list
        with ([EvCreate (plan_request q ct) o] ++ rest ++ exits)%list.
      rewrite !flat_map_app_ctx, Hrin, Hrout, Hord, Hent. reflexivity.
    + exists (discovered init tools ++ EvCreate (plan_request q ct) o :: rest)%list,
        exits.
      rewrite <- app_assoc. split; [reflexivity|]. split; [|exact Hexits].
      unfold exited in *.
      change (EvCreate (plan_request q ct) o :: rest)%list
        with ([EvCreate (plan_request q ct) o] ++ rest)%list.
      rewrite !flat_map_app_ctx, Hrout. reflexivity.
Qed.

(** ** [simple_server.py] *)

Lemma forallb_allowed_app (s t : string) :
  SimpleServer.all_allowed (s ++ t)
  = (SimpleServer.all_allowed s && SimpleServer.all_allowed t)%bool.
Proof.
  unfold SimpleServer.all_allowed.
  induction s as [|c s IH]; simpl; [reflexivity|].
  now rewrite IH, andb_assoc.
Qed.

(** X22.  [calculate] never evaluates an expression that contains a
    character other than digits, [+ - * / ( ) .] and the space: whatever
    [eval] would do, the answer is the fixed message about invalid
    characters.  So no name, quote, comma or bracket reaches [eval]. *)
Theorem calculate_rejects_before_eval
    (py_eval : string -> string + string) (before after : string) (c : ascii) :
  SimpleServer.allowed c = false ->
  SimpleServer.calculate py_eval (before ++ String c after)
  = SimpleServer.invalid_characters.
Proof.
  intros Hc. unfold SimpleServer.calculate.
  rewrite forallb_allowed_app.
  unfold SimpleServer.all_allowed at 2. simpl forallb. rewrite Hc.
  now rewrite andb_false_r.
Qed.

Lemma calculate_rejects_before_eval_witness :
  SimpleServer.calculate (fun _ => inr "pwned") "__import__('os').getcwd()"
  = SimpleServer.invalid_characters.
Proof.
  apply (@calculate_rejects_before_eval (fun _ => inr "pwned")
           "" "_import__('os').getcwd()" "_"%char).
  reflexivity.
Defined.

(** X23.  [get_weather] matches the city exactly against its four names.
    For any other city the answer is the default sentence, which names the
    city as it was given, and which is none of the four table entries: the
    answer tells whether the city was known. *)
Theorem get_weather_unknown_city (city : string) :
  ~ In city (map fst SimpleServer.weather_data) ->
  SimpleServer.get_weather city
  = "Weather data not available for " ++ city
    ++ ". Showing default: Partly cloudy, 70" ++ SimpleServer.degree
    ++ "F (21" ++ SimpleServer.degree ++ "C)" /\
  ~ In (SimpleServer.get_weather city) (map snd SimpleServer.weather_data).
Proof.
  intros Hnot.
  assert (Hget : SimpleServer.get_weather city = SimpleServer.unknown_city city).
  { unfold SimpleServer.get_weather, SimpleServer.weather_data in *.
    cbn [SimpleServer.dict_get]. cbn [map fst In] in Hnot.
    repeat match goal with
           | |- context [String.eqb ?k city] =>
               destruct (String.eqb_spec k city) as [Heq|_];
               [exfalso; apply Hnot; rewrite Heq; tauto|]
           end.
    reflexivity. }
  rewrite Hget. split; [reflexivity|].
  unfold SimpleServer.weather_data, SimpleServer.unknown_city.
  cbn [map snd In append].
  intros [H | [H | [H | [H | []]]]]; discriminate H.
Qed.

Lemma get_weather_unknown_city_witness :
  SimpleServer.get_weather "london"
  = "Weather data not available for london. Showing default: Partly cloudy, 70"
    ++ SimpleServer.degree ++ "F (21" ++ SimpleServer.degree ++ "C)".
Proof.
  apply (@get_weather_unknown_city "london").
  unfold SimpleServer.weather_data. cbn [map fst In].
  intros [H | [H | [H | [H | []]]]]; discriminate H.
Defined.

(** ** [protocol_inspector.py] *)

Lemma inspect_body_shape (w : World) (st : state) r st' :
  inspect_body w st = (r, st') ->
  (exists e evs stack,
      r = inl e /\ setup_failure e evs stack /\ invocations evs = [] /\
      trace st' = (trace st ++ evs)%list /\
      exit_stack st' = (stack ++ exit_stack st)%list) \/
  (exists init mcp_tools o,
      trace st' = (trace st ++ discovered init mcp_tools
                     ++ [EvCallTool (fst inspected_call) (snd inspected_call) o])%list /\
      exit_stack st' = ([SessionCtx; StdioTransport] ++ exit_stack st)%list).
Proof.
  unfold inspect_body, enter_async_context, bind, external, ask, lift, ret,
    get_state, set_exit_stack. simpl.
  destruct (enter_ctx w (trace st) StdioTransport) as [e|[]] eqn:H1; simpl.
  { intros [= <- <-]. left.
    exists e, [EvEnter StdioTransport (inl e)], [].
    repeat split; auto. constructor. }
  destruct (enter_ctx w _ SessionCtx) as [e|[]] eqn:H2; simpl.
  { intros [= <- <-]. left.
    exists e, [EvEnter StdioTransport (inr tt); EvEnter SessionCtx (inl e)],
      [StdioTransport].
    simpl. rewrite <- app_assoc. repeat split; auto. constructor. }
  destruct (sdk_initialize w _) as [e|init] eqn:H3; simpl.
  { intros [= <- <-]. left.
    exists e, [EvEnter StdioTransport (inr tt); EvEnter SessionCtx (inr tt);
               EvInitialize (inl e)], [SessionCtx; StdioTransport].
    simpl. rewrite <- !app_assoc. repeat split; auto. constructor. }
  destruct (sdk_list_tools w _) as [e|mcp_tools] eqn:H4; simpl.
  { intros [= <- <-]. left.
    exists e, [EvEnter StdioTransport (inr tt); EvEnter SessionCtx (inr tt);
               EvInitialize (inr init); EvListTools (inl e)],
      [SessionCtx; StdioTransport].
    simpl. rewrite <- !app_assoc. repeat split; auto. constructor. }
  destruct (sdk_call_tool w _ _ _) as [e|res] eqn:H5; simpl;
    intros [= <- <-]; right; eexists init, mcp_tools, _;
    simpl; rewrite <- !app_assoc; simpl; split; reflexivity.
Qed.

(** X24.  On every path through [inspect_protocol], whatever fails: the
    contexts that were entered are exited exactly once, in reverse order,
    after everything else, and the stack is empty at the end; the model is
    never contacted; and at most one capability is invoked, [calculate]
    with the expression [42 + 8], only after [initialize()] and
    [list_tools()] were answered with success. *)
Theorem inspector_exits_what_it_entered (w : World) (st : state) :
  exists evs exits,
    trace (snd (inspect_protocol w st)) = (trace st ++ evs ++ exits)%list /\
    forallb is_exit exits = true /\
    exited evs = [] /\ entered exits = [] /\
    exited exits = rev (entered evs) /\
    exit_stack (snd (inspect_protocol w st)) = [] /\
    model_requests (evs ++ exits) = [] /\
    (invocations evs = [] \/
     exists init mcp_tools o,
       evs = (discovered init mcp_tools
              ++ [EvCallTool (VStr "calculate")
                    (VDict [("expression", VStr "42 + 8")]) o])%list).
Proof.
  unfold inspect_protocol, async_with_exit_stack, bind, set_exit_stack, ok.
  cbn beta iota.
  set (st0 := {| trace := trace st; session := session st; exit_stack := [] |}).
  destruct (inspect_body w st0) as [r st1] eqn:Hbody.
  destruct (aclose_loop w (exit_stack st1)
              match r with inl e => Some e | inr _ => None end st1)
    as [r2 st2] eqn:Hclose.
  pose proof Hclose as Hclose'.
  apply aclose_loop_order in Hclose as (exits & Htr2 & Hexits & Hord & Hent & _ & _).
  apply aclose_loop_spec in Hclose' as (exits' & _ & _ & _ & Hstack2 & _).
  destruct (exit_silent _ Hexits) as (Hx1 & _).
  apply inspect_body_shape in Hbody
    as [(e & evs & stack & _ & Hfail & Hinv & Htr & Hstack)
       | (init & mcp_tools & o & Htr & Hstack)];
    simpl in Htr, Hstack; rewrite ?app_nil_r in Hstack.
  - destruct (setup_failure_silent Hfail) as (H1 & _ & _ & Hin & Hout & _).
    exists evs, exits. simpl. rewrite Htr2, Htr, <- app_assoc.
    rewrite model_requests_app, H1, Hx1, Hord, Hstack, Hin, rev_involutive.
    repeat split; auto.
    rewrite Hstack2, Hstack. now destruct stack.
  - exists (discovered init mcp_tools
            ++ [EvCallTool (fst inspected_call) (snd inspected_call) o])%list, exits.
    cbn [snd]. rewrite Htr2, Htr, Hord, Hstack, Hstack2, Hstack.
    rewrite model_requests_app, Hx1.
    split; [now rewrite <- !app_assoc|].
    repeat split; auto. right. eauto.
Qed.
